(** * CBA [script_macros_common.hpp]: the macro header and what it expands to

    The header is a list of preprocessor definitions.  Two readings of it
    are developed here.

    - [Text]: every macro is a function from the replacement texts of its
      arguments (and from the definitions in force) to its replacement
      text.  Conditional sections ([#ifdef] / [#ifndef]) read the table
      of definitions the including file has made.
    - [Sqf]: the script a macro expands to, as a syntax tree of the
      scripting language, with an evaluator for the fragment the macros
      use.

    [Header] lists the macros and gives the preprocessor step that
    replaces an invocation. *)

From Stdlib Require Import Ascii String ZArith QArith Qround Lia.
From stdpp Require Import gmap strings list fin_maps.

(** ** Preprocessing: macros as functions on text *)

Module Text.

(** Replacement text, character for character. *)
Abbreviation text := string (only parsing).

(** The double-quote character, and a double-quoted literal. *)
Definition dq : text := String (Ascii.ascii_of_nat 34) EmptyString.
Definition quoted (s : text) : text := dq +:+ s +:+ dq.

(** The definitions in force: name of an object-like macro, its
    replacement text.  [__FILE__] and [__LINE__], which the preprocessor
    itself keeps up to date, are entries of the same table. *)
Abbreviation defs := (gmap string string) (only parsing).

(** [#ifdef NAME] *)
Definition defined (name : string) (d : defs) : bool :=
  match d !! name with Some _ => true | None => false end.

(** [#define NAME body] *)
Definition define (name : string) (body : text) (d : defs) : defs :=
  <[name := body]> d.

(** A name written in a macro body: replaced when it is defined, left as
    it is written otherwise. *)
Definition object_like (name : string) (d : defs) : text :=
  match d !! name with Some body => body | None => name end.

Definition PREFIX (d : defs) : text := object_like "PREFIX" d.
Definition COMPONENT (d : defs) : text := object_like "COMPONENT" d.
Definition THIS_FILE (d : defs) : text := object_like "THIS_FILE" d.
Definition __FILE__ (d : defs) : text := object_like "__FILE__" d.
Definition __LINE__ (d : defs) : text := object_like "__LINE__" d.

(** [#ifndef NAME] / [#define NAME body] / [#endif] *)
Definition ifndef_define (name : string) (body : text) (d : defs) : text :=
  match d !! name with Some given => given | None => body end.

(** Lines 42-56. *)
Definition MAINPREFIX (d : defs) : text := ifndef_define "MAINPREFIX" "x" d.
Definition SUBPREFIX (d : defs) : text := ifndef_define "SUBPREFIX" "addons" d.
Definition MAINLOGIC (d : defs) : text := ifndef_define "MAINLOGIC" "main" d.
Definition VERSION (d : defs) : text := ifndef_define "VERSION" "0" d.

(** Lines 58-64. [QUOTE] is the stringizing macro of line 324. *)
Definition VERSION_AR (d : defs) : text :=
  ifndef_define "VERSION_AR" (VERSION d) d.
Definition VERSION_CONFIG (d : defs) : text :=
  ifndef_define "VERSION_CONFIG"
    ("version = " +:+ VERSION d +:+ "; versionStr = " +:+ quoted (VERSION d)
     +:+ "; versionAr[] = {" +:+ VERSION_AR d +:+ "}") d.

(** *** Debug levels (lines 118-132)

    Three conditional sections, read in order; each sees the definitions
    the previous one has made. *)

(** [#ifdef DEBUG_MODE_FULL] / [#define DEBUG_MODE_NORMAL] / [#endif] *)
Definition full_enables_normal (d : defs) : defs :=
  if defined "DEBUG_MODE_FULL" d then define "DEBUG_MODE_NORMAL" "" d else d.

(** [#ifdef DEBUG_MODE_NORMAL] / [#define DEBUG_MODE_MINIMAL] / [#endif] *)
Definition normal_enables_minimal (d : defs) : defs :=
  if defined "DEBUG_MODE_NORMAL" d then define "DEBUG_MODE_MINIMAL" "" d else d.

(** [#ifndef DEBUG_MODE_MINIMAL] / [#define DEBUG_MODE_NORMAL] /
    [#define DEBUG_MODE_MINIMAL] / [#endif] *)
Definition default_debug_mode (d : defs) : defs :=
  if defined "DEBUG_MODE_MINIMAL" d then d
  else define "DEBUG_MODE_MINIMAL" "" (define "DEBUG_MODE_NORMAL" "" d).

Definition debug_modes (d : defs) : defs :=
  default_debug_mode (normal_enables_minimal (full_enables_normal d)).

Definition DEBUG_MODE_FULL (d : defs) : bool :=
  defined "DEBUG_MODE_FULL" (debug_modes d).
Definition DEBUG_MODE_NORMAL (d : defs) : bool :=
  defined "DEBUG_MODE_NORMAL" (debug_modes d).
Definition DEBUG_MODE_MINIMAL (d : defs) : bool :=
  defined "DEBUG_MODE_MINIMAL" (debug_modes d).

(** Lines 134-138. Macros are replaced inside single quotes. *)
Definition THIS_FILE_ (d : defs) : text :=
  if defined "THIS_FILE" d then "'" +:+ THIS_FILE d +:+ "'" else __FILE__ d.

(** *** Logging (lines 157-230)

    A body that is only a comment is an empty replacement text. *)

Definition LOG (d : defs) (MESSAGE : text) : text :=
  if DEBUG_MODE_FULL d
  then "[" +:+ THIS_FILE_ d +:+ ", " +:+ __LINE__ d +:+ ", " +:+ MESSAGE
       +:+ "] call CBA_fnc_log"
  else "".

Definition WARNING (d : defs) (MESSAGE : text) : text :=
  if DEBUG_MODE_NORMAL d
  then "[" +:+ THIS_FILE_ d +:+ ", " +:+ __LINE__ d +:+ ", ('WARNING: ' + "
       +:+ MESSAGE +:+ ")] call CBA_fnc_log"
  else "".

Definition ERROR (d : defs) (MESSAGE : text) : text :=
  "[" +:+ THIS_FILE_ d +:+ ", " +:+ __LINE__ d +:+ ", " +:+ quoted "ERROR"
  +:+ ", " +:+ MESSAGE +:+ "] call CBA_fnc_error;".

Definition ERROR_WITH_TITLE (d : defs) (TITLE MESSAGE : text) : text :=
  "[" +:+ THIS_FILE_ d +:+ ", " +:+ __LINE__ d +:+ ", " +:+ TITLE
  +:+ ", " +:+ MESSAGE +:+ "] call CBA_fnc_error;".

(** Line 249. *)
Definition RETNIL (VARIABLE : text) : text :=
  "if (isNil{" +:+ VARIABLE +:+ "}) then {nil} else {" +:+ VARIABLE +:+ "}".

(** *** Tracing (lines 278-314)

    The parameter names inside the single-quoted format string are
    replaced by the argument texts too. *)

Definition TRACE_1 (d : defs) (MESSAGE A : text) : text :=
  if DEBUG_MODE_FULL d
  then "[" +:+ THIS_FILE_ d +:+ ", " +:+ __LINE__ d +:+ ", format ['%1: "
       +:+ A +:+ "=%2', " +:+ MESSAGE +:+ ", " +:+ RETNIL A
       +:+ "]] call CBA_fnc_log"
  else "".

Definition TRACE_2 (d : defs) (MESSAGE A B : text) : text :=
  if DEBUG_MODE_FULL d
  then "[" +:+ THIS_FILE_ d +:+ ", " +:+ __LINE__ d +:+ ", format ['%1: "
       +:+ A +:+ "=%2, " +:+ B +:+ "=%3', " +:+ MESSAGE +:+ ", " +:+ RETNIL A
       +:+ ", " +:+ RETNIL B +:+ "]] call CBA_fnc_log"
  else "".

Definition TRACE_3 (d : defs) (MESSAGE A B C : text) : text :=
  if DEBUG_MODE_FULL d
  then "[" +:+ THIS_FILE_ d +:+ ", " +:+ __LINE__ d +:+ ", format ['%1: "
       +:+ A +:+ "=%2, " +:+ B +:+ "=%3, " +:+ C +:+ "=%4', " +:+ MESSAGE
       +:+ ", " +:+ RETNIL A +:+ ", " +:+ RETNIL B +:+ ", " +:+ RETNIL C
       +:+ "]] call CBA_fnc_log"
  else "".

Definition TRACE_4 (d : defs) (MESSAGE A B C D : text) : text :=
  if DEBUG_MODE_FULL d
  then "[" +:+ THIS_FILE_ d +:+ ", " +:+ __LINE__ d +:+ ", format ['%1: "
       +:+ A +:+ "=%2, " +:+ B +:+ "=%3, " +:+ C +:+ "=%4, " +:+ D
       +:+ "=%5', " +:+ MESSAGE
       +:+ ", " +:+ RETNIL A +:+ ", " +:+ RETNIL B +:+ ", " +:+ RETNIL C
       +:+ ", " +:+ RETNIL D +:+ "]] call CBA_fnc_log"
  else "".

Definition TRACE_5 (d : defs) (MESSAGE A B C D E : text) : text :=
  if DEBUG_MODE_FULL d
  then "[" +:+ THIS_FILE_ d +:+ ", " +:+ __LINE__ d +:+ ", format ['%1: "
       +:+ A +:+ "=%2, " +:+ B +:+ "=%3, " +:+ C +:+ "=%4, " +:+ D
       +:+ "=%5, " +:+ E +:+ "=%6', " +:+ MESSAGE
       +:+ ", " +:+ RETNIL A +:+ ", " +:+ RETNIL B +:+ ", " +:+ RETNIL C
       +:+ ", " +:+ RETNIL D +:+ ", " +:+ RETNIL E +:+ "]] call CBA_fnc_log"
  else "".

Definition TRACE_6 (d : defs) (MESSAGE A B C D E F : text) : text :=
  if DEBUG_MODE_FULL d
  then "[" +:+ THIS_FILE_ d +:+ ", " +:+ __LINE__ d +:+ ", format ['%1: "
       +:+ A +:+ "=%2, " +:+ B +:+ "=%3, " +:+ C +:+ "=%4, " +:+ D
       +:+ "=%5, " +:+ E +:+ "=%6, " +:+ F +:+ "=%7', " +:+ MESSAGE
       +:+ ", " +:+ RETNIL A +:+ ", " +:+ RETNIL B +:+ ", " +:+ RETNIL C
       +:+ ", " +:+ RETNIL D +:+ ", " +:+ RETNIL E +:+ ", " +:+ RETNIL F
       +:+ "]] call CBA_fnc_log"
  else "".

Definition TRACE_7 (d : defs) (MESSAGE A B C D E F G : text) : text :=
  if DEBUG_MODE_FULL d
  then "[" +:+ THIS_FILE_ d +:+ ", " +:+ __LINE__ d +:+ ", format ['%1: "
       +:+ A +:+ "=%2, " +:+ B +:+ "=%3, " +:+ C +:+ "=%4, " +:+ D
       +:+ "=%5, " +:+ E +:+ "=%6, " +:+ F +:+ "=%7, " +:+ G +:+ "=%8', "
       +:+ MESSAGE
       +:+ ", " +:+ RETNIL A +:+ ", " +:+ RETNIL B +:+ ", " +:+ RETNIL C
       +:+ ", " +:+ RETNIL D +:+ ", " +:+ RETNIL E +:+ ", " +:+ RETNIL F
       +:+ ", " +:+ RETNIL G +:+ "]] call CBA_fnc_log"
  else "".

Definition TRACE_8 (d : defs) (MESSAGE A B C D E F G H : text) : text :=
  if DEBUG_MODE_FULL d
  then "[" +:+ THIS_FILE_ d +:+ ", " +:+ __LINE__ d +:+ ", format ['%1: "
       +:+ A +:+ "=%2, " +:+ B +:+ "=%3, " +:+ C +:+ "=%4, " +:+ D
       +:+ "=%5, " +:+ E +:+ "=%6, " +:+ F +:+ "=%7, " +:+ G +:+ "=%8, "
       +:+ H +:+ "=%9', " +:+ MESSAGE
       +:+ ", " +:+ RETNIL A +:+ ", " +:+ RETNIL B +:+ ", " +:+ RETNIL C
       +:+ ", " +:+ RETNIL D +:+ ", " +:+ RETNIL E +:+ ", " +:+ RETNIL F
       +:+ ", " +:+ RETNIL G +:+ ", " +:+ RETNIL H +:+ "]] call CBA_fnc_log"
  else "".

(** *** Token pasting and stringizing (lines 322-324)

    [##] glues the texts on its two sides, [#] puts its operand in double
    quotes. *)

Definition DOUBLES (var1 var2 : text) : text := var1 +:+ "_" +:+ var2.
Definition TRIPLES (var1 var2 var3 : text) : text :=
  var1 +:+ "_" +:+ var2 +:+ "_" +:+ var3.
Definition QUOTE (var1 : text) : text := quoted var1.

(** What the preprocessor takes for one identifier: a letter or an
    underscore, then letters, digits and underscores. *)
Definition is_letter (c : ascii) : bool :=
  let n := Ascii.nat_of_ascii c in
  ((65 <=? n) && (n <=? 90) || (97 <=? n) && (n <=? 122) || (n =? 95))%nat.
Definition is_digit (c : ascii) : bool :=
  let n := Ascii.nat_of_ascii c in ((48 <=? n) && (n <=? 57))%nat.

Fixpoint identifier_tail (s : string) : bool :=
  match s with
  | EmptyString => true
  | String c s' => (is_letter c || is_digit c) && identifier_tail s'
  end.

Definition is_identifier (s : string) : bool :=
  match s with
  | EmptyString => false
  | String c s' => is_letter c && identifier_tail s'
  end.

(** Lines 326-338: the component name as the path macros use it. *)
Definition MODULAR (d : defs) : bool := defined "MODULAR" d.
Definition COMPONENT_T (d : defs) : text :=
  if MODULAR d then DOUBLES "t" (COMPONENT d) else COMPONENT d.
Definition COMPONENT_M (d : defs) : text :=
  if MODULAR d then DOUBLES "m" (COMPONENT d) else COMPONENT d.
Definition COMPONENT_S (d : defs) : text :=
  if MODULAR d then DOUBLES "s" (COMPONENT d) else COMPONENT d.
Definition COMPONENT_C (d : defs) : text :=
  if MODULAR d then DOUBLES "c" (COMPONENT d) else COMPONENT d.
Definition COMPONENT_F (d : defs) : text :=
  if MODULAR d then COMPONENT_C d else COMPONENT d.

(** *** Arithmetic and array shorthands (lines 359-474) *)

Definition INC (var : text) : text := var +:+ " = (" +:+ var +:+ ") + 1".
Definition DEC (var : text) : text := var +:+ " = (" +:+ var +:+ ") - 1".
Definition ADD (var1 var2 : text) : text :=
  var1 +:+ " = (" +:+ var1 +:+ ") + (" +:+ var2 +:+ ")".
Definition SUB (var1 var2 : text) : text :=
  var1 +:+ " = (" +:+ var1 +:+ ") - (" +:+ var2 +:+ ")".
Definition REM (var1 var2 : text) : text := SUB var1 ("[" +:+ var2 +:+ "]").
Definition PUSH (var1 var2 : text) : text :=
  var1 +:+ " set [count (" +:+ var1 +:+ "), " +:+ var2 +:+ "]".

(** *** Defaults for undefined variables (lines 502-506) *)

Definition ISNILS (VARIABLE DEFAULT_VALUE : text) : text :=
  "if (isNil " +:+ quoted VARIABLE +:+ ") then { " +:+ VARIABLE +:+ " = "
  +:+ DEFAULT_VALUE +:+ " }".
Definition ISNILS2 (var1 var2 var3 var4 : text) : text :=
  ISNILS (TRIPLES var1 var2 var3) var4.
Definition ISNILS3 (var1 var2 var3 : text) : text :=
  ISNILS (DOUBLES var1 var2) var3.
Definition ISNIL (d : defs) (var1 var2 : text) : text :=
  ISNILS2 (PREFIX d) (COMPONENT d) var1 var2.
Definition ISNILMAIN (d : defs) (var1 var2 : text) : text :=
  ISNILS3 (PREFIX d) var1 var2.

(** *** Game logics and their variables (lines 508-514) *)

Definition logic_position : text := "[0, 0, 0], [], 0, " +:+ quoted "NONE".

Definition CREATELOGICS (var1 var2 : text) : text :=
  var1 +:+ "_" +:+ var2
  +:+ " = ([sideLogic] call CBA_fnc_getSharedGroup) createUnit ["
  +:+ quoted "LOGIC" +:+ ", " +:+ logic_position +:+ "]".
Definition CREATELOGICLOCALS (var1 var2 : text) : text :=
  var1 +:+ "_" +:+ var2 +:+ " = " +:+ quoted "LOGIC"
  +:+ " createVehicleLocal [0, 0, 0]".
Definition CREATELOGICGLOBALS (var1 var2 : text) : text :=
  var1 +:+ "_" +:+ var2
  +:+ " = ([sideLogic] call CBA_fnc_getSharedGroup) createUnit ["
  +:+ quoted "LOGIC" +:+ ", " +:+ logic_position +:+ "]; publicVariable "
  +:+ QUOTE (DOUBLES var1 var2).
Definition CREATELOGICGLOBALTESTS (d : defs) (var1 var2 : text) : text :=
  var1 +:+ "_" +:+ var2
  +:+ " = ([sideLogic] call CBA_fnc_getSharedGroup) createUnit ["
  +:+ QUOTE (TRIPLES (PREFIX d) (COMPONENT d) "logic") +:+ ", "
  +:+ logic_position +:+ "]".

Definition GETVARS (var1 var2 var3 : text) : text :=
  "(" +:+ var1 +:+ "_" +:+ var2 +:+ " getVariable " +:+ quoted var3 +:+ ")".
Definition GETVARMAINS (d : defs) (var1 var2 : text) : text :=
  GETVARS var1 (MAINLOGIC d) var2.

(** *** File paths (lines 516-527) *)

Definition PATHTO_SYS (d : defs) (var1 var2 var3 : text) : text :=
  MAINPREFIX d +:+ "\" +:+ var1 +:+ "\" +:+ SUBPREFIX d +:+ "\" +:+ var2
  +:+ "\" +:+ var3 +:+ ".sqf".
Definition PATHTOF_SYS (d : defs) (var1 var2 var3 : text) : text :=
  "\" +:+ MAINPREFIX d +:+ "\" +:+ var1 +:+ "\" +:+ SUBPREFIX d +:+ "\"
  +:+ var2 +:+ "\" +:+ var3.
Definition PATHTOF2_SYS (d : defs) (var1 var2 var3 : text) : text :=
  MAINPREFIX d +:+ "\" +:+ var1 +:+ "\" +:+ SUBPREFIX d +:+ "\" +:+ var2
  +:+ "\" +:+ var3.

Definition PATHTO_R (d : defs) (var1 : text) : text :=
  PATHTOF2_SYS d (PREFIX d) (COMPONENT_C d) var1.
Definition PATHTO_T (d : defs) (var1 : text) : text :=
  PATHTOF_SYS d (PREFIX d) (COMPONENT_T d) var1.
Definition PATHTO_M (d : defs) (var1 : text) : text :=
  PATHTOF_SYS d (PREFIX d) (COMPONENT_M d) var1.
Definition PATHTO_S (d : defs) (var1 : text) : text :=
  PATHTOF_SYS d (PREFIX d) (COMPONENT_S d) var1.
Definition PATHTO_C (d : defs) (var1 : text) : text :=
  PATHTOF_SYS d (PREFIX d) (COMPONENT_C d) var1.
Definition PATHTO_F (d : defs) (var1 : text) : text :=
  PATHTO_SYS d (PREFIX d) (COMPONENT_F d) var1.

Definition COMPILE_FILE_SYS (d : defs) (var1 var2 var3 : text) : text :=
  "compile preProcessFileLineNumbers '" +:+ PATHTO_SYS d var1 var2 var3
  +:+ "'".

(** *** Variable names (lines 529-547) *)

Definition SETVARS (var1 var2 : text) : text :=
  var1 +:+ "_" +:+ var2 +:+ " setVariable".
Definition SETVARMAINS (d : defs) (var1 : text) : text :=
  SETVARS var1 (MAINLOGIC d).
Definition GVARS (var1 var2 var3 : text) : text :=
  var1 +:+ "_" +:+ var2 +:+ "_" +:+ var3.
Definition GVARMAINS (var1 var2 : text) : text := var1 +:+ "_" +:+ var2.
Definition CFGSETTINGSS (var1 var2 : text) : text :=
  "configFile >> " +:+ quoted "CfgSettings" +:+ " >> " +:+ quoted var1
  +:+ " >> " +:+ quoted var2.

Definition PREPMAIN_SYS (d : defs) (var1 var2 var3 : text) : text :=
  var1 +:+ "_fnc_" +:+ var3 +:+ " = { " +:+ var1 +:+ "_fnc_" +:+ var3
  +:+ " = " +:+ COMPILE_FILE_SYS d var1 var2 (DOUBLES "fnc" var3)
  +:+ "; if (isNil " +:+ quoted "_this" +:+ ") then { call " +:+ var1
  +:+ "_fnc_" +:+ var3 +:+ " } else { _this call " +:+ var1 +:+ "_fnc_"
  +:+ var3 +:+ " } }".
Definition PREP_SYS (d : defs) (var1 var2 var3 : text) : text :=
  var1 +:+ "_" +:+ var2 +:+ "_fnc_" +:+ var3 +:+ " = "
  +:+ COMPILE_FILE_SYS d var1 var2 (DOUBLES "fnc" var3).
Definition PREP_SYS2 (d : defs) (var1 var2 var3 var4 : text) : text :=
  var1 +:+ "_" +:+ var2 +:+ "_fnc_" +:+ var4 +:+ " = "
  +:+ COMPILE_FILE_SYS d var1 var3 (DOUBLES "fnc" var4).

(** Lines 559-560, used by line 547 and 554. *)
Definition ADDON (d : defs) : text := DOUBLES (PREFIX d) (COMPONENT d).
Definition MAIN_ADDON (d : defs) : text := DOUBLES (PREFIX d) "main".

Definition LSTR (d : defs) (var1 : text) : text := TRIPLES (ADDON d) "STR" var1.

Definition DEBUG_SETTINGS (d : defs) : text :=
  ifndef_define "DEBUG_SETTINGS" "[false, true, false]" d.

Definition MSG_INIT (d : defs) : text :=
  QUOTE ("Initializing: " +:+ ADDON d +:+ " version: " +:+ VERSION d).

(** *** What an addon author writes (lines 562-636) *)

Definition CFGSETTINGS (d : defs) : text :=
  CFGSETTINGSS (PREFIX d) (COMPONENT d).
Definition PATHTO (d : defs) (var1 : text) : text :=
  PATHTO_SYS d (PREFIX d) (COMPONENT_F d) var1.
Definition PATHTOF (d : defs) (var1 : text) : text :=
  PATHTOF_SYS d (PREFIX d) (COMPONENT d) var1.
Definition COMPILE_FILE (d : defs) (var1 : text) : text :=
  COMPILE_FILE_SYS d (PREFIX d) (COMPONENT_F d) var1.

(** A body continued over several lines is joined with single spaces. *)
Definition VERSIONING_SYS (var1 : text) : text :=
  "class CfgSettings { class CBA { class Versioning { class " +:+ var1
  +:+ " { }; }; }; };".
Definition VERSIONING (d : defs) : text := VERSIONING_SYS (PREFIX d).

Definition GVAR (d : defs) (var1 : text) : text :=
  GVARS (PREFIX d) (COMPONENT d) var1.
Definition GVARMAIN (d : defs) (var1 : text) : text :=
  GVARMAINS (PREFIX d) var1.
Definition SETTINGS (d : defs) : text := DOUBLES (PREFIX d) "settings".
Definition CREATELOGIC (d : defs) : text :=
  CREATELOGICS (PREFIX d) (COMPONENT d).
Definition CREATELOGICGLOBAL (d : defs) : text :=
  CREATELOGICGLOBALS (PREFIX d) (COMPONENT d).
Definition CREATELOGICGLOBALTEST (d : defs) : text :=
  CREATELOGICGLOBALTESTS d (PREFIX d) (COMPONENT d).
Definition CREATELOGICLOCAL (d : defs) : text :=
  CREATELOGICLOCALS (PREFIX d) (COMPONENT d).
Definition CREATELOGICMAIN (d : defs) : text :=
  CREATELOGICS (PREFIX d) (MAINLOGIC d).
Definition GETVAR (d : defs) (var1 : text) : text :=
  GETVARS (PREFIX d) (COMPONENT d) var1.
Definition SETVAR (d : defs) : text := SETVARS (PREFIX d) (COMPONENT d).
Definition SETVARMAIN (d : defs) : text := SETVARMAINS d (PREFIX d).
Definition IFCOUNT (var1 var2 var3 : text) : text :=
  "if (count " +:+ var1 +:+ " > " +:+ var2 +:+ ") then { " +:+ var3 +:+ " = "
  +:+ var1 +:+ " select " +:+ var2 +:+ " };".

Definition PREP (d : defs) (var1 : text) : text :=
  PREP_SYS2 d (PREFIX d) (COMPONENT d) (COMPONENT_F d) var1.
Definition PREPMAIN (d : defs) (var1 : text) : text :=
  PREPMAIN_SYS d (PREFIX d) (COMPONENT_F d) var1.
Definition FUNC (d : defs) (var1 : text) : text :=
  TRIPLES (DOUBLES (PREFIX d) (COMPONENT d)) "fnc" var1.
Definition FUNCMAIN (d : defs) (var1 : text) : text :=
  TRIPLES (PREFIX d) "fnc" var1.
Definition FUNC_INNER (d : defs) (var1 var2 : text) : text :=
  TRIPLES (DOUBLES (PREFIX d) var1) "fnc" var2.

(** *** Nested selection (lines 638-645)

    An invocation whose argument count is not the parameter count of the
    macro has no expansion. *)

Definition ARG_1 (A B : text) : text :=
  "((" +:+ A +:+ ") select (" +:+ B +:+ "))".
Definition ARG_2 (A B C : text) : text :=
  "(" +:+ ARG_1 (ARG_1 A B) C +:+ ")".
Definition ARG_3 (A B C D : text) : text :=
  "(" +:+ ARG_1 (ARG_2 A B C) D +:+ ")".
Definition ARG_4 (A B C D E : text) : text :=
  "(" +:+ ARG_1 (ARG_3 A B C D) E +:+ ")".
Definition ARG_5 (A B C D E F : text) : text :=
  "(" +:+ ARG_1 (ARG_4 A B C D E) F +:+ ")".
Definition ARG_6 (A B C D E F G : text) : text :=
  "(" +:+ ARG_1 (ARG_5 A B C D E F) G +:+ ")".

(** [ARG_6(...)] and [ARG_7(...)] as written with a list of arguments. *)
Definition invoke_ARG_6 (args : list text) : option text :=
  match args with
  | [A; B; C; D; E; F; G] => Some (ARG_6 A B C D E F G)
  | _ => None
  end.

(** Line 644 hands [ARG_6] the eight arguments [A,B,C,D,E,E,F,G]. *)
Definition ARG_7 (A B C D E F G H : text) : option text :=
  inner ← invoke_ARG_6 [A; B; C; D; E; E; F; G];
  Some ("(" +:+ ARG_1 inner H +:+ ")").

Definition invoke_ARG_7 (args : list text) : option text :=
  match args with
  | [A; B; C; D; E; F; G; H] => ARG_7 A B C D E F G H
  | _ => None
  end.

(** Line 645 hands [ARG_7] the nine arguments [A,B,C,D,E,E,F,G,H]. *)
Definition ARG_8 (A B C D E F G H I : text) : option text :=
  inner ← invoke_ARG_7 [A; B; C; D; E; E; F; G; H];
  Some ("(" +:+ ARG_1 inner I +:+ ")").

(** Lines 648-649. *)
Definition DISPLAY (A : text) : text := "(findDisplay " +:+ A +:+ ")".
Definition CONTROL (A : text) : text := DISPLAY A +:+ " displayCtrl".

(** *** Type checks (lines 680-698) *)

Definition IS_type (name VAR : text) : text :=
  "((typeName (" +:+ VAR +:+ ")) == " +:+ quoted name +:+ ")".

Definition IS_ARRAY (VAR : text) : text := IS_type "ARRAY" VAR.
Definition IS_BOOL (VAR : text) : text := IS_type "BOOL" VAR.
Definition IS_CODE (VAR : text) : text := IS_type "CODE" VAR.
Definition IS_CONFIG (VAR : text) : text := IS_type "CONFIG" VAR.
Definition IS_CONTROL (VAR : text) : text := IS_type "CONTROL" VAR.
Definition IS_DISPLAY (VAR : text) : text := IS_type "DISPLAY" VAR.
Definition IS_GROUP (VAR : text) : text := IS_type "GROUP" VAR.
Definition IS_OBJECT (VAR : text) : text := IS_type "OBJECT" VAR.
Definition IS_SCALAR (VAR : text) : text := IS_type "SCALAR" VAR.
Definition IS_SCRIPT (VAR : text) : text := IS_type "SCRIPT" VAR.
Definition IS_SIDE (VAR : text) : text := IS_type "SIDE" VAR.
Definition IS_STRING (VAR : text) : text := IS_type "STRING" VAR.
Definition IS_TEXT (VAR : text) : text := IS_type "TEXT" VAR.
Definition IS_LOCATION (VAR : text) : text := IS_type "LOCATION" VAR.

Definition IS_BOOLEAN (VAR : text) : text := IS_BOOL VAR.
Definition IS_FUNCTION (VAR : text) : text := IS_CODE VAR.
Definition IS_INTEGER (VAR : text) : text :=
  "if { " +:+ IS_SCALAR VAR +:+ " } then { (floor(" +:+ VAR +:+ ") == ("
  +:+ VAR +:+ ")) } else { false }".
Definition IS_NUMBER (VAR : text) : text := IS_SCALAR VAR.

(** Lines 715-716. *)
Definition SCRIPT (d : defs) (NAME : text) : text :=
  "scriptName '" +:+ PREFIX d +:+ "\" +:+ COMPONENT d +:+ "\" +:+ NAME
  +:+ "'".

(** *** Splitting an array into variables (lines 745-764) *)

Definition EXPLODE_2 (ARRAY A B : text) : text :=
  A +:+ " = (" +:+ ARRAY +:+ ") select 0; " +:+ B +:+ " = (" +:+ ARRAY
  +:+ ") select 1".
Definition EXPLODE_3 (ARRAY A B C : text) : text :=
  EXPLODE_2 ARRAY A B +:+ "; " +:+ C +:+ " = (" +:+ ARRAY +:+ ") select 2".
Definition EXPLODE_4 (ARRAY A B C D : text) : text :=
  EXPLODE_3 ARRAY A B C +:+ "; " +:+ D +:+ " = (" +:+ ARRAY +:+ ") select 3".
Definition EXPLODE_5 (ARRAY A B C D E : text) : text :=
  EXPLODE_4 ARRAY A B C D +:+ "; " +:+ E +:+ " = (" +:+ ARRAY
  +:+ ") select 4".
Definition EXPLODE_6 (ARRAY A B C D E F : text) : text :=
  EXPLODE_5 ARRAY A B C D E +:+ "; " +:+ F +:+ " = (" +:+ ARRAY
  +:+ ") select 5".
Definition EXPLODE_7 (ARRAY A B C D E F G : text) : text :=
  EXPLODE_6 ARRAY A B C D E F +:+ "; " +:+ G +:+ " = (" +:+ ARRAY
  +:+ ") select 6".
Definition EXPLODE_8 (ARRAY A B C D E F G H : text) : text :=
  EXPLODE_7 ARRAY A B C D E F G +:+ "; " +:+ H +:+ " = (" +:+ ARRAY
  +:+ ") select 7".

(** *** Function parameters (lines 804-878) *)

Definition PARAMS_1 (d : defs) (A : text) : text :=
  "private " +:+ quoted A +:+ "; " +:+ A +:+ " = if (" +:+ IS_ARRAY "_this"
  +:+ ") then {_this select 0} else {_this}; "
  +:+ TRACE_1 d (quoted "PARAMS_1") A.
Definition PARAMS_2 (d : defs) (A B : text) : text :=
  "private [" +:+ quoted A +:+ ", " +:+ quoted B +:+ "]; "
  +:+ EXPLODE_2 "_this" A B +:+ "; " +:+ TRACE_2 d (quoted "PARAMS_2") A B.
Definition PARAMS_3 (d : defs) (A B C : text) : text :=
  "private [" +:+ quoted A +:+ ", " +:+ quoted B +:+ ", " +:+ quoted C
  +:+ "]; " +:+ EXPLODE_3 "_this" A B C +:+ "; "
  +:+ TRACE_3 d (quoted "PARAMS_3") A B C.
Definition PARAMS_4 (d : defs) (A B C D : text) : text :=
  "private [" +:+ quoted A +:+ ", " +:+ quoted B +:+ ", " +:+ quoted C
  +:+ ", " +:+ quoted D +:+ "]; " +:+ EXPLODE_4 "_this" A B C D +:+ "; "
  +:+ TRACE_4 d (quoted "PARAMS_4") A B C D.
Definition PARAMS_5 (d : defs) (A B C D E : text) : text :=
  "private [" +:+ quoted A +:+ ", " +:+ quoted B +:+ ", " +:+ quoted C
  +:+ ", " +:+ quoted D +:+ ", " +:+ quoted E +:+ "]; "
  +:+ EXPLODE_5 "_this" A B C D E +:+ "; "
  +:+ TRACE_5 d (quoted "PARAMS_5") A B C D E.
Definition PARAMS_6 (d : defs) (A B C D E F : text) : text :=
  "private [" +:+ quoted A +:+ ", " +:+ quoted B +:+ ", " +:+ quoted C
  +:+ ", " +:+ quoted D +:+ ", " +:+ quoted E +:+ ", " +:+ quoted F
  +:+ "]; " +:+ EXPLODE_6 "_this" A B C D E F +:+ "; "
  +:+ TRACE_6 d (quoted "PARAMS_6") A B C D E F.
Definition PARAMS_7 (d : defs) (A B C D E F G : text) : text :=
  "private [" +:+ quoted A +:+ ", " +:+ quoted B +:+ ", " +:+ quoted C
  +:+ ", " +:+ quoted D +:+ ", " +:+ quoted E +:+ ", " +:+ quoted F
  +:+ ", " +:+ quoted G +:+ "]; " +:+ EXPLODE_7 "_this" A B C D E F G
  +:+ "; " +:+ TRACE_7 d (quoted "PARAMS_7") A B C D E F G.
Definition PARAMS_8 (d : defs) (A B C D E F G H : text) : text :=
  "private [" +:+ quoted A +:+ ", " +:+ quoted B +:+ ", " +:+ quoted C
  +:+ ", " +:+ quoted D +:+ ", " +:+ quoted E +:+ ", " +:+ quoted F
  +:+ ", " +:+ quoted G +:+ ", " +:+ quoted H +:+ "]; "
  +:+ EXPLODE_8 "_this" A B C D E F G H +:+ "; "
  +:+ TRACE_8 d (quoted "PARAMS_8") A B C D E F G H.

Definition DEFAULT_PARAM (d : defs) (INDEX NAME DEF_VALUE : text) : text :=
  "private " +:+ quoted NAME +:+ "; " +:+ NAME +:+ " = [" +:+ RETNIL "_this"
  +:+ ", " +:+ INDEX +:+ ", " +:+ DEF_VALUE
  +:+ "] call CBA_fnc_defaultParam; "
  +:+ TRACE_3 d (quoted "DEFAULT_PARAM") INDEX NAME DEF_VALUE.

(** *** Assertions (lines 884-975) *)

Definition ASSERTION_ERROR (d : defs) (MESSAGE : text) : text :=
  ERROR_WITH_TITLE d (quoted "Assertion failed!") MESSAGE.

Definition ASSERT_TRUE (d : defs) (CONDITION MESSAGE : text) : text :=
  "if (not (" +:+ CONDITION +:+ ")) then { "
  +:+ ASSERTION_ERROR d
        ("'Assertion (" +:+ CONDITION +:+ ") failed!\n\n' + (" +:+ MESSAGE
         +:+ ")")
  +:+ "; }".
Definition ASSERT_FALSE (d : defs) (CONDITION MESSAGE : text) : text :=
  "if (" +:+ CONDITION +:+ ") then { "
  +:+ ASSERTION_ERROR d
        ("'Assertion (not (" +:+ CONDITION +:+ ")) failed!\n\n' + ("
         +:+ MESSAGE +:+ ")")
  +:+ " }".
Definition ASSERT_OP (d : defs) (A OPERATOR B MESSAGE : text) : text :=
  "if (not ((" +:+ A +:+ ") " +:+ OPERATOR +:+ " (" +:+ B +:+ "))) then { "
  +:+ ASSERTION_ERROR d
        ("'Assertion (" +:+ A +:+ " " +:+ OPERATOR +:+ " " +:+ B
         +:+ ") failed!\n' + '" +:+ A +:+ ": ' + (str (" +:+ A
         +:+ ")) + '\n' + '" +:+ B +:+ ": ' + (str (" +:+ B +:+ ")) + "
         +:+ quoted "\n\n" +:+ " + (" +:+ MESSAGE +:+ ")")
  +:+ "; }".
Definition ASSERT_DEFINED (d : defs) (VARIABLE MESSAGE : text) : text :=
  "if (isNil " +:+ VARIABLE +:+ ") then { "
  +:+ ASSERTION_ERROR d
        ("'Assertion (" +:+ VARIABLE +:+ " is defined) failed!\n\n' + ("
         +:+ MESSAGE +:+ ")")
  +:+ "; }".

(** *** Deprecation (lines 1003-1086) *)

Definition DEPRECATE_SYS (d : defs) (OLD_FUNCTION NEW_FUNCTION : text) : text :=
  OLD_FUNCTION +:+ " = { "
  +:+ WARNING d ("'Deprecated function used: " +:+ OLD_FUNCTION +:+ " (new: "
                 +:+ NEW_FUNCTION +:+ ") in " +:+ ADDON d +:+ "'")
  +:+ "; if (isNil " +:+ quoted "_this" +:+ ") then { call " +:+ NEW_FUNCTION
  +:+ " } else { _this call " +:+ NEW_FUNCTION +:+ " }; }".
Definition DEPRECATE (d : defs) (OLD_FUNCTION NEW_FUNCTION : text) : text :=
  DEPRECATE_SYS d (DOUBLES (PREFIX d) OLD_FUNCTION)
    (DOUBLES (PREFIX d) NEW_FUNCTION).
Definition OBSOLETE_SYS (d : defs) (OLD_FUNCTION COMMAND_CODE : text) : text :=
  OLD_FUNCTION +:+ " = { "
  +:+ WARNING d ("'Obsolete function used: (use: " +:+ OLD_FUNCTION
                 +:+ ") in " +:+ ADDON d +:+ "'")
  +:+ "; if (isNil " +:+ quoted "_this" +:+ ") then { call " +:+ COMMAND_CODE
  +:+ " } else { _this call " +:+ COMMAND_CODE +:+ " }; }".
Definition OBSOLETE (d : defs) (OLD_FUNCTION COMMAND_CODE : text) : text :=
  OBSOLETE_SYS d (DOUBLES (PREFIX d) OLD_FUNCTION) COMMAND_CODE.

End Text.

(** ** Run time: the script the macros expand to *)

Module Sqf.

(** *** Syntax *)

(** Commands without operands. *)
Inductive nular := NNil | NTrue | NFalse.

(** Commands with one operand, written before it. *)
Inductive unop :=
  | TypeName | Floor | IsNil | If | Not | CallU | Private | Format.

(** Commands with two operands, written between them. *)
Inductive binop := Select | Eq | Plus | Then | Else | Call.

(** Engine objects a script only holds a handle of. *)
Inductive handle :=
  | Config | Control | Display | Group | Object | Script | Side
  | StructuredText | Location | Namespace.

(** Values, expressions and statements.  [VNil] is the absent value: what
    an undefined variable reads as.  [VNative f] is a function the host
    provides under the name [f]; [VIf] is what [if] hands to [then]. *)
#[local] Unset Elimination Schemes.
Inductive value :=
  | VNil
  | VScalar (q : Q)
  | VBool (b : bool)
  | VString (s : string)
  | VArray (l : list value)
  | VCode (body : list stmt)
  | VNative (f : string)
  | VIf (b : bool)
  | VHandle (h : handle) (id : nat)
with expr :=
  | ENum (q : Q)
  | EStr (s : string)
  | EVal (v : value)
  | EVar (x : string)
  | ENular (c : nular)
  | EArr (es : list expr)
  | ECode (body : list stmt)
  | EParen (e : expr)
  | EUn (op : unop) (e : expr)
  | EBin (op : binop) (l r : expr)
with stmt :=
  | SAssign (x : string) (e : expr)
  | SExpr (e : expr).
#[local] Set Elimination Schemes.

(** *** Results *)

Inductive error :=
  | Undefined                (* the absent value used as an operand *)
  | BadType (command : string)
  | ZeroDivisor              (* selection outside the array *)
  | UnknownFunction (f : string).

Inductive result (A : Type) :=
  | Ok (a : A)
  | Err (e : error)
  | OutOfFuel.
Arguments Ok {A} a.
Arguments Err {A} e.
Arguments OutOfFuel {A}.

#[export] Instance result_bind : MBind result := fun A B f r =>
  match r with
  | Ok a => f a
  | Err e => Err e
  | OutOfFuel => OutOfFuel
  end.

(** *** State *)

(** Global variables, the scopes of local variables (innermost first) and
    the RPT log (oldest entry first). *)
Record state := State {
  globals : gmap string value;
  frames : list (gmap string value);
  rpt : list value;
}.

Definition with_globals (g : gmap string value) (s : state) : state :=
  State g (frames s) (rpt s).
Definition with_frames (fs : list (gmap string value)) (s : state) : state :=
  State (globals s) fs (rpt s).
Definition with_rpt (l : list value) (s : state) : state :=
  State (globals s) (frames s) l.

(** Local variables are the ones whose name starts with an underscore. *)
Definition is_local (x : string) : bool :=
  match x with
  | String c _ => bool_decide (c = "_"%char)
  | EmptyString => false
  end.

Definition is_nil (v : value) : bool :=
  match v with VNil => true | _ => false end.

Fixpoint read_local (x : string) (fs : list (gmap string value)) : value :=
  match fs with
  | [] => VNil
  | f :: fs' => match f !! x with Some v => v | None => read_local x fs' end
  end.

Definition read (x : string) (s : state) : value :=
  if is_local x then read_local x (frames s)
  else default VNil (globals s !! x).

(** Is [x] declared in one of the scopes? *)
Definition declared (x : string) (fs : list (gmap string value)) : bool :=
  existsb (fun f => bool_decide (is_Some (f !! x))) fs.

(** An assignment goes to the innermost scope that declares the variable,
    and to the current scope when none does. *)
Fixpoint write_declared (x : string) (v : value)
    (fs : list (gmap string value)) : list (gmap string value) :=
  match fs with
  | [] => []
  | f :: fs' =>
      match f !! x with
      | Some _ => <[x := v]> f :: fs'
      | None => f :: write_declared x v fs'
      end
  end.

Definition write_local (x : string) (v : value)
    (fs : list (gmap string value)) : list (gmap string value) :=
  if declared x fs then write_declared x v fs
  else match fs with
       | [] => [ {[ x := v ]} ]
       | f :: fs' => <[x := v]> f :: fs'
       end.

Definition write_global (x : string) (v : value)
    (g : gmap string value) : gmap string value :=
  if is_nil v then delete x g else <[x := v]> g.

Definition write (x : string) (v : value) (s : state) : state :=
  if is_local x then with_frames (write_local x v (frames s)) s
  else with_globals (write_global x v (globals s)) s.

(** [private "x"]: the variable belongs to the current scope, undefined. *)
Definition declare (x : string) (s : state) : state :=
  match frames s with
  | [] => with_frames [ {[ x := VNil ]} ] s
  | f :: fs => with_frames (<[x := VNil]> f :: fs) s
  end.

Definition push (f : gmap string value) (s : state) : state :=
  with_frames (f :: frames s) s.
Definition pop (s : state) : state := with_frames (tail (frames s)) s.

(** What a function of the host can see and change: the global
    variables and the log, not the scopes of its caller. *)
Definition world : Type := gmap string value * list value.
Definition world_of (s : state) : world := (globals s, rpt s).
Definition with_world (w : world) (s : state) : state :=
  State (fst w) (frames s) (snd w).

(** *** Commands *)

Definition handle_name (h : handle) : string :=
  match h with
  | Config => "CONFIG" | Control => "CONTROL" | Display => "DISPLAY"
  | Group => "GROUP" | Object => "OBJECT" | Script => "SCRIPT"
  | Side => "SIDE" | StructuredText => "TEXT" | Location => "LOCATION"
  | Namespace => "NAMESPACE"
  end.

(** [typeName]: no type name for the absent value. *)
Definition type_name (v : value) : option string :=
  match v with
  | VNil => None
  | VScalar _ => Some "SCALAR"
  | VBool _ => Some "BOOL"
  | VString _ => Some "STRING"
  | VArray _ => Some "ARRAY"
  | VCode _ | VNative _ => Some "CODE"
  | VIf _ => Some "IF"
  | VHandle h _ => Some (handle_name h)
  end.

(** Strings compare without regard to case. *)
Definition upper (c : ascii) : ascii :=
  let n := Ascii.nat_of_ascii c in
  if (97 <=? n)%nat && (n <=? 122)%nat then Ascii.ascii_of_nat (n - 32) else c.

Fixpoint upper_string (s : string) : string :=
  match s with
  | EmptyString => EmptyString
  | String c s' => String (upper c) (upper_string s')
  end.

Definition string_eq (a b : string) : bool :=
  bool_decide (upper_string a = upper_string b).

(** [==] *)
Definition equal (a b : value) : result value :=
  match a, b with
  | VScalar x, VScalar y => Ok (VBool (Qeq_bool x y))
  | VString x, VString y => Ok (VBool (string_eq x y))
  | VHandle h i, VHandle k j =>
      Ok (VBool (bool_decide (handle_name h = handle_name k)
                 && bool_decide (i = j)))
  | _, _ => Err (BadType "==")
  end.

(** [+].  Numbers are added without rounding: the engine's numbers are
    floating point (lines 666-668), and a sum is exact there as long as it
    is a small whole number. *)
Definition plus (a b : value) : result value :=
  match a, b with
  | VScalar x, VScalar y => Ok (VScalar (x + y))
  | VString x, VString y => Ok (VString (x +:+ y))
  | VArray x, VArray y => Ok (VArray (x ++ y))
  | _, _ => Err (BadType "+")
  end.

(** An index is rounded to the nearest whole number. *)
Definition index_of (q : Q) : Z := Qfloor (q + (1 # 2)).

(** [select]: the position just past the end reads as the absent value,
    any other position outside the array is an error. *)
Definition select (l : list value) (q : Q) : result value :=
  let i := index_of q in
  if (i <? 0)%Z then Err ZeroDivisor
  else match l !! Z.to_nat i with
       | Some v => Ok v
       | None =>
           if (i =? Z.of_nat (length l))%Z then Ok VNil else Err ZeroDivisor
       end.

Definition nular_value (c : nular) : value :=
  match c with NNil => VNil | NTrue => VBool true | NFalse => VBool false end.

(** The names in [private [...]]. *)
Fixpoint names_of (l : list value) : option (list string) :=
  match l with
  | [] => Some []
  | VString x :: l' => (x ::.) <$> names_of l'
  | _ => None
  end.

(** *** Evaluation *)

Section Evaluation.

(** [format], the engine's message formatter. *)
Variable engine_format : list value -> string.

(** The functions the host provides, by name: from the argument and the
    world to a result and a world. *)
Variable host : string -> value -> world -> result (value * world).

(** Running a block in a scope of its own. *)
Definition in_scope (run : list stmt -> state -> result (value * state))
    (f : gmap string value) (body : list stmt) (s : state)
    : result (value * state) :=
  '(v, s') ← run body (push f s); Ok (v, pop s').

(** [arg call callee], and [call callee] when [arg] is absent: the callee
    sees its argument as [_this]. *)
Definition apply (run : list stmt -> state -> result (value * state))
    (callee arg : value) (s : state) : result (value * state) :=
  match callee with
  | VCode body =>
      in_scope run (if is_nil arg then ∅ else {[ "_this" := arg ]}) body s
  | VNative f => '(v, w) ← host f arg (world_of s); Ok (v, with_world w s)
  | _ => Err (BadType "call")
  end.

Definition unary (run : list stmt -> state -> result (value * state))
    (op : unop) (v : value) (s : state) : result (value * state) :=
  match op, v with
  | IsNil, VString x => Ok (VBool (is_nil (read x s)), s)
  | IsNil, VCode body =>
      '(r, s') ← in_scope run ∅ body s; Ok (VBool (is_nil r), s')
  | IsNil, _ => Err (BadType "isNil")
  | _, VNil => Err Undefined
  | TypeName, _ => Ok (VString (default "" (type_name v)), s)
  | Floor, VScalar q => Ok (VScalar (inject_Z (Qfloor q)), s)
  | Floor, _ => Err (BadType "floor")
  | If, VBool b => Ok (VIf b, s)
  | If, _ => Err (BadType "if")
  | Not, VBool b => Ok (VBool (negb b), s)
  | Not, _ => Err (BadType "not")
  | CallU, _ => apply run v VNil s
  | Private, VString x => Ok (VNil, declare x s)
  | Private, VArray l =>
      match names_of l with
      | Some xs => Ok (VNil, foldl (fun s x => declare x s) s xs)
      | None => Err (BadType "private")
      end
  | Private, _ => Err (BadType "private")
  | Format, VArray l => Ok (VString (engine_format l), s)
  | Format, _ => Err (BadType "format")
  end.

Definition binary (run : list stmt -> state -> result (value * state))
    (op : binop) (a b : value) (s : state) : result (value * state) :=
  match op, a, b with
  | _, VNil, _ | _, _, VNil => Err Undefined
  | Select, VArray l, VScalar q => v ← select l q; Ok (v, s)
  | Select, _, _ => Err (BadType "select")
  | Eq, _, _ => v ← equal a b; Ok (v, s)
  | Plus, _, _ => v ← plus a b; Ok (v, s)
  | Else, VCode _, VCode _ => Ok (VArray [a; b], s)
  | Else, _, _ => Err (BadType "else")
  | Then, VIf c, VCode body =>
      if c then in_scope run ∅ body s else Ok (VNil, s)
  | Then, VIf c, VArray [VCode yes; VCode no] =>
      in_scope run ∅ (if c then yes else no) s
  | Then, _, _ => Err (BadType "then")
  | Call, _, _ => apply run b a s
  end.

(** The elements of an array, left to right. *)
Fixpoint eval_all (ev : expr -> state -> result (value * state))
    (es : list expr) (s : state) : result (list value * state) :=
  match es with
  | [] => Ok ([], s)
  | e :: es' =>
      '(v, s1) ← ev e s; '(vs, s2) ← eval_all ev es' s1; Ok (v :: vs, s2)
  end.

(** Expressions and blocks.  The first argument bounds the depth of the
    evaluation; a block is worth its last statement, an assignment the
    absent value. *)
Fixpoint eval (n : nat) (e : expr) (s : state) {struct n}
    : result (value * state) :=
  match n with
  | O => OutOfFuel
  | S n =>
      match e with
      | ENum q => Ok (VScalar q, s)
      | EStr t => Ok (VString t, s)
      | EVal v => Ok (v, s)
      | EVar x => Ok (read x s, s)
      | ENular c => Ok (nular_value c, s)
      | EArr es => '(vs, s') ← eval_all (eval n) es s; Ok (VArray vs, s')
      | ECode body => Ok (VCode body, s)
      | EParen e' => eval n e' s
      | EUn op e' => '(v, s') ← eval n e' s; unary (exec n) op v s'
      | EBin op l r =>
          '(a, s1) ← eval n l s; '(b, s2) ← eval n r s1;
          binary (exec n) op a b s2
      end
  end
with exec (n : nat) (c : list stmt) (s : state) {struct n}
    : result (value * state) :=
  match n with
  | O => OutOfFuel
  | S n =>
      match c with
      | [] => Ok (VNil, s)
      | [SExpr e] => eval n e s
      | SExpr e :: c' => '(_, s') ← eval n e s; exec n c' s'
      | SAssign x e :: c' => '(v, s') ← eval n e s; exec n c' (write x v s')
      end
  end.

End Evaluation.

(** Modelled from the spec: [CBA_fnc_log], the logging function the
    macros call, is not part of the header; it records the message it is
    handed in the RPT log. *)
Definition CBA_fnc_log (a : value) (w : world) : result (value * world) :=
  Ok (VNil, (fst w, snd w ++ [a])).

(** The host: the logging function, and whatever else is installed. *)
Definition host_with_log
    (others : string -> value -> world -> result (value * world))
    (f : string) : value -> world -> result (value * world) :=
  if bool_decide (f = "CBA_fnc_log") then CBA_fnc_log else others f.

(** *** The macros, as the script they expand to

    Arguments that the header uses as names (of variables, of functions)
    are strings; arguments it uses as expressions are expressions. *)

(** Where a macro is invoked: what [__FILE__] and [__LINE__] stand for. *)
Record site := Site { site_file : string; site_line : Z }.

Definition THIS_FILE_ (d : gmap string string) (here : site) : expr :=
  if Text.defined "THIS_FILE" d then EStr (Text.THIS_FILE d)
  else EStr (site_file here).
Definition __LINE__ (here : site) : expr := ENum (inject_Z (site_line here)).

(** Lines 157-184: a statement when enabled, nothing otherwise. *)
Definition LOG (d : gmap string string) (here : site) (MESSAGE : expr)
    : list stmt :=
  if Text.DEBUG_MODE_FULL d
  then [SExpr (EBin Call (EArr [THIS_FILE_ d here; __LINE__ here; MESSAGE])
                 (EVar "CBA_fnc_log"))]
  else [].

(** Line 181 puts [MESSAGE] after the [+] as it is written, without
    parentheses of its own: [MESSAGE] stands for a literal, as the header's
    own invocations pass, or for an expression in parentheses. *)
Definition WARNING (d : gmap string string) (here : site) (MESSAGE : expr)
    : list stmt :=
  if Text.DEBUG_MODE_NORMAL d
  then [SExpr (EBin Call
                 (EArr [THIS_FILE_ d here; __LINE__ here;
                        EParen (EBin Plus (EStr "WARNING: ") MESSAGE)])
                 (EVar "CBA_fnc_log"))]
  else [].

(** Line 249. *)
Definition RETNIL (VARIABLE : expr) : expr :=
  EBin Then (EUn If (EParen (EUn IsNil (ECode [SExpr VARIABLE]))))
    (EBin Else (ECode [SExpr (ENular NNil)]) (ECode [SExpr VARIABLE])).

(** Lines 279-280 and 305, for a variable [A]. *)
Definition TRACE_1 (d : gmap string string) (here : site) (MESSAGE : expr)
    (A : string) : list stmt :=
  if Text.DEBUG_MODE_FULL d
  then [SExpr (EBin Call
                 (EArr [THIS_FILE_ d here; __LINE__ here;
                        EUn Format
                          (EArr [EStr ("%1: " +:+ A +:+ "=%2"); MESSAGE;
                                 RETNIL (EVar A)])])
                 (EVar "CBA_fnc_log"))]
  else [].

(** Line 502. *)
Definition ISNILS (VARIABLE : string) (DEFAULT_VALUE : expr) : expr :=
  EBin Then (EUn If (EParen (EUn IsNil (EStr VARIABLE))))
    (ECode [SAssign VARIABLE DEFAULT_VALUE]).

(** Lines 638-645.  What becomes of an invocation with more arguments
    than the macro has parameters is the preprocessor's business: it is
    refused, or the arguments in excess are dropped. *)
Inductive surplus := Refuse | DropLast.

Definition bind_args (p : surplus) (params : nat) (args : list expr)
    : option (list expr) :=
  if (length args =? params)%nat then Some args
  else match p with
       | Refuse => None
       | DropLast =>
           if (params <? length args)%nat then Some (take params args)
           else None
       end.

Definition ARG_1 (p : surplus) (args : list expr) : option expr :=
  match bind_args p 2 args with
  | Some [A; B] => Some (EParen (EBin Select (EParen A) (EParen B)))
  | _ => None
  end.

Definition ARG_2 (p : surplus) (args : list expr) : option expr :=
  match bind_args p 3 args with
  | Some [A; B; C] =>
      inner ← ARG_1 p [A; B]; outer ← ARG_1 p [inner; C]; Some (EParen outer)
  | _ => None
  end.

Definition ARG_3 (p : surplus) (args : list expr) : option expr :=
  match bind_args p 4 args with
  | Some [A; B; C; D] =>
      inner ← ARG_2 p [A; B; C]; outer ← ARG_1 p [inner; D];
      Some (EParen outer)
  | _ => None
  end.

Definition ARG_4 (p : surplus) (args : list expr) : option expr :=
  match bind_args p 5 args with
  | Some [A; B; C; D; E] =>
      inner ← ARG_3 p [A; B; C; D]; outer ← ARG_1 p [inner; E];
      Some (EParen outer)
  | _ => None
  end.

Definition ARG_5 (p : surplus) (args : list expr) : option expr :=
  match bind_args p 6 args with
  | Some [A; B; C; D; E; F] =>
      inner ← ARG_4 p [A; B; C; D; E]; outer ← ARG_1 p [inner; F];
      Some (EParen outer)
  | _ => None
  end.

Definition ARG_6 (p : surplus) (args : list expr) : option expr :=
  match bind_args p 7 args with
  | Some [A; B; C; D; E; F; G] =>
      inner ← ARG_5 p [A; B; C; D; E; F]; outer ← ARG_1 p [inner; G];
      Some (EParen outer)
  | _ => None
  end.

Definition ARG_7 (p : surplus) (args : list expr) : option expr :=
  match bind_args p 8 args with
  | Some [A; B; C; D; E; F; G; H] =>
      inner ← ARG_6 p [A; B; C; D; E; E; F; G]; outer ← ARG_1 p [inner; H];
      Some (EParen outer)
  | _ => None
  end.

Definition ARG_8 (p : surplus) (args : list expr) : option expr :=
  match bind_args p 9 args with
  | Some [A; B; C; D; E; F; G; H; I'] =>
      inner ← ARG_7 p [A; B; C; D; E; E; F; G; H]; outer ← ARG_1 p [inner; I'];
      Some (EParen outer)
  | _ => None
  end.

(** Lines 680-698. *)
Definition IS_type (name : string) (VAR : expr) : expr :=
  EParen (EBin Eq (EParen (EUn TypeName (EParen VAR))) (EStr name)).

Definition IS_ARRAY (VAR : expr) : expr := IS_type "ARRAY" VAR.
Definition IS_BOOL (VAR : expr) : expr := IS_type "BOOL" VAR.
Definition IS_CODE (VAR : expr) : expr := IS_type "CODE" VAR.
Definition IS_CONFIG (VAR : expr) : expr := IS_type "CONFIG" VAR.
Definition IS_CONTROL (VAR : expr) : expr := IS_type "CONTROL" VAR.
Definition IS_DISPLAY (VAR : expr) : expr := IS_type "DISPLAY" VAR.
Definition IS_GROUP (VAR : expr) : expr := IS_type "GROUP" VAR.
Definition IS_OBJECT (VAR : expr) : expr := IS_type "OBJECT" VAR.
Definition IS_SCALAR (VAR : expr) : expr := IS_type "SCALAR" VAR.
Definition IS_SCRIPT (VAR : expr) : expr := IS_type "SCRIPT" VAR.
Definition IS_SIDE (VAR : expr) : expr := IS_type "SIDE" VAR.
Definition IS_STRING (VAR : expr) : expr := IS_type "STRING" VAR.
Definition IS_TEXT (VAR : expr) : expr := IS_type "TEXT" VAR.
Definition IS_LOCATION (VAR : expr) : expr := IS_type "LOCATION" VAR.

Definition IS_BOOLEAN (VAR : expr) : expr := IS_BOOL VAR.
Definition IS_FUNCTION (VAR : expr) : expr := IS_CODE VAR.
(** [if { ... } then { ... } else { ... }]: the operand of [if] is a block. *)
Definition IS_INTEGER (VAR : expr) : expr :=
  EBin Then (EUn If (ECode [SExpr (IS_SCALAR VAR)]))
    (EBin Else
       (ECode [SExpr (EParen (EBin Eq (EUn Floor (EParen VAR)) (EParen VAR)))])
       (ECode [SExpr (ENular NFalse)])).
Definition IS_NUMBER (VAR : expr) : expr := IS_SCALAR VAR.

(** Lines 745-764. *)
Definition EXPLODE_2 (ARRAY : expr) (A B : string) : list stmt :=
  [SAssign A (EBin Select (EParen ARRAY) (ENum 0));
   SAssign B (EBin Select (EParen ARRAY) (ENum 1))].
Definition EXPLODE_3 (ARRAY : expr) (A B C : string) : list stmt :=
  EXPLODE_2 ARRAY A B ++ [SAssign C (EBin Select (EParen ARRAY) (ENum 2))].
Definition EXPLODE_4 (ARRAY : expr) (A B C D : string) : list stmt :=
  EXPLODE_3 ARRAY A B C ++ [SAssign D (EBin Select (EParen ARRAY) (ENum 3))].
Definition EXPLODE_5 (ARRAY : expr) (A B C D E : string) : list stmt :=
  EXPLODE_4 ARRAY A B C D
  ++ [SAssign E (EBin Select (EParen ARRAY) (ENum 4))].
Definition EXPLODE_6 (ARRAY : expr) (A B C D E F : string) : list stmt :=
  EXPLODE_5 ARRAY A B C D E
  ++ [SAssign F (EBin Select (EParen ARRAY) (ENum 5))].
Definition EXPLODE_7 (ARRAY : expr) (A B C D E F G : string) : list stmt :=
  EXPLODE_6 ARRAY A B C D E F
  ++ [SAssign G (EBin Select (EParen ARRAY) (ENum 6))].
Definition EXPLODE_8 (ARRAY : expr) (A B C D E F G H : string) : list stmt :=
  EXPLODE_7 ARRAY A B C D E F G
  ++ [SAssign H (EBin Select (EParen ARRAY) (ENum 7))].

(** Lines 804-807. *)
Definition PARAMS_1 (d : gmap string string) (here : site) (A : string)
    : list stmt :=
  [SExpr (EUn Private (EStr A));
   SAssign A
     (EBin Then (EUn If (EParen (IS_ARRAY (EVar "_this"))))
        (EBin Else (ECode [SExpr (EBin Select (EVar "_this") (ENum 0))])
           (ECode [SExpr (EVar "_this")])))]
  ++ TRACE_1 d here (EStr "PARAMS_1") A.

(** Lines 1003-1007, 1031-1032 and 1056-1060. *)
Definition forward (target : expr) : stmt :=
  SExpr (EBin Then (EUn If (EParen (EUn IsNil (EStr "_this"))))
           (EBin Else (ECode [SExpr (EUn CallU target)])
              (ECode [SExpr (EBin Call (EVar "_this") target)]))).

Definition DEPRECATE_SYS (d : gmap string string) (here : site)
    (OLD_FUNCTION NEW_FUNCTION : string) : stmt :=
  SAssign OLD_FUNCTION
    (ECode
       (WARNING d here
          (EStr ("Deprecated function used: " +:+ OLD_FUNCTION +:+ " (new: "
                 +:+ NEW_FUNCTION +:+ ") in " +:+ Text.ADDON d))
        ++ [forward (EVar NEW_FUNCTION)])).

Definition DEPRECATE (d : gmap string string) (here : site)
    (OLD_FUNCTION NEW_FUNCTION : string) : stmt :=
  DEPRECATE_SYS d here (Text.DOUBLES (Text.PREFIX d) OLD_FUNCTION)
    (Text.DOUBLES (Text.PREFIX d) NEW_FUNCTION).

Definition OBSOLETE_SYS (d : gmap string string) (here : site)
    (OLD_FUNCTION : string) (COMMAND_CODE : expr) : stmt :=
  SAssign OLD_FUNCTION
    (ECode
       (WARNING d here
          (EStr ("Obsolete function used: (use: " +:+ OLD_FUNCTION
                 +:+ ") in " +:+ Text.ADDON d))
        ++ [forward COMMAND_CODE])).

(** Lines 359 and 408, for a variable [var]. *)
Definition INC (var : string) : stmt :=
  SAssign var (EBin Plus (EParen (EVar var)) (ENum 1)).
Definition ADD (var1 : string) (var2 : expr) : stmt :=
  SAssign var1 (EBin Plus (EParen (EVar var1)) (EParen var2)).

(** Lines 205-230 and 884. *)
Definition ERROR_WITH_TITLE (d : gmap string string) (here : site)
    (TITLE MESSAGE : expr) : stmt :=
  SExpr (EBin Call (EArr [THIS_FILE_ d here; __LINE__ here; TITLE; MESSAGE])
           (EVar "CBA_fnc_error")).
Definition ERROR (d : gmap string string) (here : site) (MESSAGE : expr)
    : stmt :=
  SExpr (EBin Call
           (EArr [THIS_FILE_ d here; __LINE__ here; EStr "ERROR"; MESSAGE])
           (EVar "CBA_fnc_error")).
Definition ASSERTION_ERROR (d : gmap string string) (here : site)
    (MESSAGE : expr) : stmt :=
  ERROR_WITH_TITLE d here (EStr "Assertion failed!") MESSAGE.

(** Lines 902-975.  The condition is used twice: as it is written, inside
    the message, and as the expression it is. *)
Definition ASSERT_TRUE (d : gmap string string) (here : site)
    (written : string) (CONDITION MESSAGE : expr) : stmt :=
  SExpr (EBin Then (EUn If (EParen (EUn Not (EParen CONDITION))))
           (ECode
              [ASSERTION_ERROR d here
                 (EBin Plus
                    (EStr ("Assertion (" +:+ written +:+ ") failed!\n\n"))
                    (EParen MESSAGE))])).
Definition ASSERT_FALSE (d : gmap string string) (here : site)
    (written : string) (CONDITION MESSAGE : expr) : stmt :=
  SExpr (EBin Then (EUn If (EParen CONDITION))
           (ECode
              [ASSERTION_ERROR d here
                 (EBin Plus
                    (EStr ("Assertion (not (" +:+ written +:+ ")) failed!\n\n"))
                    (EParen MESSAGE))])).
Definition ASSERT_DEFINED (d : gmap string string) (here : site)
    (written : string) (VARIABLE MESSAGE : expr) : stmt :=
  SExpr (EBin Then (EUn If (EParen (EUn IsNil VARIABLE)))
           (ECode
              [ASSERTION_ERROR d here
                 (EBin Plus
                    (EStr ("Assertion (" +:+ written
                           +:+ " is defined) failed!\n\n"))
                    (EParen MESSAGE))])).

(** Lines 282-312, for variables [A], [B], ...: the call they all make,
    with the format string and the values of each. *)
Definition trace_call (d : gmap string string) (here : site)
    (fields : string) (MESSAGE : expr) (values : list expr) : list stmt :=
  if Text.DEBUG_MODE_FULL d
  then [SExpr (EBin Call
                 (EArr [THIS_FILE_ d here; __LINE__ here;
                        EUn Format (EArr (EStr fields :: MESSAGE :: values))])
                 (EVar "CBA_fnc_log"))]
  else [].

Definition TRACE_2 (d : gmap string string) (here : site) (MESSAGE : expr)
    (A B : string) : list stmt :=
  trace_call d here
    ("%1: " +:+ A +:+ "=%2, " +:+ B +:+ "=%3")
    MESSAGE
    [RETNIL (EVar A); RETNIL (EVar B)].

Definition TRACE_3 (d : gmap string string) (here : site) (MESSAGE : expr)
    (A B C : string) : list stmt :=
  trace_call d here
    ("%1: " +:+ A +:+ "=%2, " +:+ B +:+ "=%3, " +:+ C +:+ "=%4")
    MESSAGE
    [RETNIL (EVar A); RETNIL (EVar B); RETNIL (EVar C)].

Definition TRACE_4 (d : gmap string string) (here : site) (MESSAGE : expr)
    (A B C D : string) : list stmt :=
  trace_call d here
    ("%1: " +:+ A +:+ "=%2, " +:+ B +:+ "=%3, " +:+ C +:+ "=%4, " +:+ D
     +:+ "=%5")
    MESSAGE
    [RETNIL (EVar A); RETNIL (EVar B); RETNIL (EVar C); RETNIL (EVar D)].

Definition TRACE_5 (d : gmap string string) (here : site) (MESSAGE : expr)
    (A B C D E : string) : list stmt :=
  trace_call d here
    ("%1: " +:+ A +:+ "=%2, " +:+ B +:+ "=%3, " +:+ C +:+ "=%4, " +:+ D
     +:+ "=%5, " +:+ E +:+ "=%6")
    MESSAGE
    [RETNIL (EVar A); RETNIL (EVar B); RETNIL (EVar C); RETNIL (EVar D);
     RETNIL (EVar E)].

Definition TRACE_6 (d : gmap string string) (here : site) (MESSAGE : expr)
    (A B C D E F : string) : list stmt :=
  trace_call d here
    ("%1: " +:+ A +:+ "=%2, " +:+ B +:+ "=%3, " +:+ C +:+ "=%4, " +:+ D
     +:+ "=%5, " +:+ E +:+ "=%6, " +:+ F +:+ "=%7")
    MESSAGE
    [RETNIL (EVar A); RETNIL (EVar B); RETNIL (EVar C); RETNIL (EVar D);
     RETNIL (EVar E); RETNIL (EVar F)].

Definition TRACE_7 (d : gmap string string) (here : site) (MESSAGE : expr)
    (A B C D E F G : string) : list stmt :=
  trace_call d here
    ("%1: " +:+ A +:+ "=%2, " +:+ B +:+ "=%3, " +:+ C +:+ "=%4, " +:+ D
     +:+ "=%5, " +:+ E +:+ "=%6, " +:+ F +:+ "=%7, " +:+ G +:+ "=%8")
    MESSAGE
    [RETNIL (EVar A); RETNIL (EVar B); RETNIL (EVar C); RETNIL (EVar D);
     RETNIL (EVar E); RETNIL (EVar F); RETNIL (EVar G)].

Definition TRACE_8 (d : gmap string string) (here : site) (MESSAGE : expr)
    (A B C D E F G H : string) : list stmt :=
  trace_call d here
    ("%1: " +:+ A +:+ "=%2, " +:+ B +:+ "=%3, " +:+ C +:+ "=%4, " +:+ D
     +:+ "=%5, " +:+ E +:+ "=%6, " +:+ F +:+ "=%7, " +:+ G +:+ "=%8, " +:+ H
     +:+ "=%9")
    MESSAGE
    [RETNIL (EVar A); RETNIL (EVar B); RETNIL (EVar C); RETNIL (EVar D);
     RETNIL (EVar E); RETNIL (EVar F); RETNIL (EVar G); RETNIL (EVar H)].

(** Lines 809-842. *)
Definition PARAMS_2 (d : gmap string string) (here : site)
    (A B : string) : list stmt :=
  SExpr (EUn Private (EArr [EStr A; EStr B]))
  :: EXPLODE_2 (EVar "_this") A B
  ++ TRACE_2 d here (EStr "PARAMS_2") A B.

Definition PARAMS_3 (d : gmap string string) (here : site)
    (A B C : string) : list stmt :=
  SExpr (EUn Private (EArr [EStr A; EStr B; EStr C]))
  :: EXPLODE_3 (EVar "_this") A B C
  ++ TRACE_3 d here (EStr "PARAMS_3") A B C.

Definition PARAMS_4 (d : gmap string string) (here : site)
    (A B C D : string) : list stmt :=
  SExpr (EUn Private (EArr [EStr A; EStr B; EStr C; EStr D]))
  :: EXPLODE_4 (EVar "_this") A B C D
  ++ TRACE_4 d here (EStr "PARAMS_4") A B C D.

Definition PARAMS_5 (d : gmap string string) (here : site)
    (A B C D E : string) : list stmt :=
  SExpr (EUn Private (EArr [EStr A; EStr B; EStr C; EStr D; EStr E]))
  :: EXPLODE_5 (EVar "_this") A B C D E
  ++ TRACE_5 d here (EStr "PARAMS_5") A B C D E.

Definition PARAMS_6 (d : gmap string string) (here : site)
    (A B C D E F : string) : list stmt :=
  SExpr (EUn Private (EArr [EStr A; EStr B; EStr C; EStr D; EStr E; EStr F]))
  :: EXPLODE_6 (EVar "_this") A B C D E F
  ++ TRACE_6 d here (EStr "PARAMS_6") A B C D E F.

Definition PARAMS_7 (d : gmap string string) (here : site)
    (A B C D E F G : string) : list stmt :=
  SExpr (EUn Private (EArr [EStr A; EStr B; EStr C; EStr D; EStr E; EStr F;
                              EStr G]))
  :: EXPLODE_7 (EVar "_this") A B C D E F G
  ++ TRACE_7 d here (EStr "PARAMS_7") A B C D E F G.

Definition PARAMS_8 (d : gmap string string) (here : site)
    (A B C D E F G H : string) : list stmt :=
  SExpr (EUn Private (EArr [EStr A; EStr B; EStr C; EStr D; EStr E; EStr F;
                              EStr G; EStr H]))
  :: EXPLODE_8 (EVar "_this") A B C D E F G H
  ++ TRACE_8 d here (EStr "PARAMS_8") A B C D E F G H.

End Sqf.

(** ** Vocabulary of the statements *)

Module Spec.

Import Text.

(** A call of the logging function, and of the error function, with the
    file and the line of the invocation. *)
Definition log_call (d : gmap string string) (entry : string) : string :=
  "[" +:+ THIS_FILE_ d +:+ ", " +:+ __LINE__ d +:+ ", " +:+ entry
  +:+ "] call CBA_fnc_log".

Definition error_call (d : gmap string string) (title message : string)
    : string :=
  "[" +:+ THIS_FILE_ d +:+ ", " +:+ __LINE__ d +:+ ", " +:+ title +:+ ", "
  +:+ message +:+ "] call CBA_fnc_error;".

(** The message a trace of the variables [vars] formats: each variable by
    name with the position of its value, then the values. *)
Definition position (k : nat) : string :=
  String (Ascii.ascii_of_nat (48 + k)) EmptyString.

Fixpoint trace_fields (k : nat) (vars : list string) : string :=
  match vars with
  | [] => ""
  | [v] => v +:+ "=%" +:+ position k
  | v :: vs => v +:+ "=%" +:+ position k +:+ ", " +:+ trace_fields (S k) vs
  end.

Fixpoint trace_values (vars : list string) : string :=
  match vars with
  | [] => ""
  | v :: vs => ", " +:+ RETNIL v +:+ trace_values vs
  end.

Definition trace_entry (message : string) (vars : list string) : string :=
  "format ['%1: " +:+ trace_fields 2 vars +:+ "', " +:+ message
  +:+ trace_values vars +:+ "]".

(** The engine types the type checks of lines 680-693 name. *)
Definition engine_types : list string :=
  ["ARRAY"; "BOOL"; "CODE"; "CONFIG"; "CONTROL"; "DISPLAY"; "GROUP";
   "OBJECT"; "SCALAR"; "SCRIPT"; "SIDE"; "STRING"; "TEXT"; "LOCATION"].

(** Indexing again and again: [((X select i1) select i2) ... select in]. *)
Fixpoint nested_select (v : Sqf.value) (path : list nat)
    : option Sqf.value :=
  match path with
  | [] => Some v
  | i :: path' =>
      match v with
      | Sqf.VArray l => l !! i ≫= fun v' => nested_select v' path'
      | _ => None
      end
  end.

(** A whole number written as an index. *)
Definition index (i : nat) : Sqf.expr := Sqf.ENum (inject_Z (Z.of_nat i)).

(** An array seven levels deep, and a path into it whose fourth step is
    the only one that is not 0: where [ARG_7] goes wrong. *)
Definition seven_deep : Sqf.value :=
  let only v := Sqf.VArray [v] in
  only (only (only
    (Sqf.VArray
       [Sqf.VString "unused";
        Sqf.VArray [only (only (Sqf.VString "documented"));
                    only (only (Sqf.VString "other"))]]))).

Definition seven_steps : list nat := [0; 0; 0; 1; 0; 0; 0]%nat.

(** Each target takes the element at its position, first target first. *)
Definition assign_all (targets : list string) (xs : list Sqf.value)
    (s : Sqf.state) : Sqf.state :=
  foldl (fun s ax => Sqf.write (fst ax) (snd ax) s) s (zip targets xs).

(** [EXPLODE_n], with [n] the number of targets. *)
Definition EXPLODE (ARRAY : Sqf.expr) (targets : list string)
    : option (list Sqf.stmt) :=
  match targets with
  | [A; B] => Some (Sqf.EXPLODE_2 ARRAY A B)
  | [A; B; C] => Some (Sqf.EXPLODE_3 ARRAY A B C)
  | [A; B; C; D] => Some (Sqf.EXPLODE_4 ARRAY A B C D)
  | [A; B; C; D; E] => Some (Sqf.EXPLODE_5 ARRAY A B C D E)
  | [A; B; C; D; E; F] => Some (Sqf.EXPLODE_6 ARRAY A B C D E F)
  | [A; B; C; D; E; F; G] => Some (Sqf.EXPLODE_7 ARRAY A B C D E F G)
  | [A; B; C; D; E; F; G; H] => Some (Sqf.EXPLODE_8 ARRAY A B C D E F G H)
  | _ => None
  end.

(** What [PARAMS_1] hands over: the first element of an array, the value
    itself otherwise. *)
Definition first_or_self (this : Sqf.value) : Sqf.value :=
  match this with
  | Sqf.VArray l => default Sqf.VNil (l !! 0%nat)
  | _ => this
  end.

(** The file a log entry names. *)
Definition file_name (d : gmap string string) (here : Sqf.site) : string :=
  if defined "THIS_FILE" d then THIS_FILE d else Sqf.site_file here.

(** One more entry in the RPT log. *)
Definition logged (entry : Sqf.value) (s : Sqf.state) : Sqf.state :=
  Sqf.with_rpt (Sqf.rpt s ++ [entry]) s.

(** The entry [TRACE_1] records for the variable [A] worth [x]. *)
Definition trace_1_record (format : list Sqf.value -> string)
    (d : gmap string string) (here : Sqf.site) (message A : string)
    (x : Sqf.value) : Sqf.value :=
  Sqf.VArray
    [Sqf.VString (file_name d here);
     Sqf.VScalar (inject_Z (Sqf.site_line here));
     Sqf.VString
       (format [Sqf.VString ("%1: " +:+ A +:+ "=%2"); Sqf.VString message; x])].

(** The entry [WARNING] records, and the state after a warning under the
    debug level in force. *)
Definition warning_record (d : gmap string string) (here : Sqf.site)
    (message : string) : Sqf.value :=
  Sqf.VArray
    [Sqf.VString (file_name d here);
     Sqf.VScalar (inject_Z (Sqf.site_line here));
     Sqf.VString ("WARNING: " +:+ message)].

Definition warned (d : gmap string string) (here : Sqf.site)
    (message : string) (s : Sqf.state) : Sqf.state :=
  if DEBUG_MODE_NORMAL d then logged (warning_record d here message) s else s.

(** A result, with the scopes [extra] put back on top of the ones it
    leaves. *)
Definition on_top (extra : list (gmap string Sqf.value))
    (r : Sqf.result (Sqf.value * Sqf.state))
    : Sqf.result (Sqf.value * Sqf.state) :=
  match r with
  | Sqf.Ok (v, s') =>
      Sqf.Ok (v, Sqf.with_frames (extra ++ Sqf.frames s') s')
  | Sqf.Err x => Sqf.Err x
  | Sqf.OutOfFuel => Sqf.OutOfFuel
  end.

(** The scope a callee gets for its argument. *)
Definition argument_scope (a : Sqf.value) : gmap string Sqf.value :=
  if Sqf.is_nil a then ∅ else {[ "_this" := a ]}.

Definition deprecation_message (d : gmap string string)
    (OLD_FUNCTION NEW_FUNCTION : string) : string :=
  "Deprecated function used: " +:+ OLD_FUNCTION +:+ " (new: "
  +:+ NEW_FUNCTION +:+ ") in " +:+ ADDON d.

Definition obsolete_message (d : gmap string string)
    (OLD_FUNCTION : string) : string :=
  "Obsolete function used: (use: " +:+ OLD_FUNCTION +:+ ") in " +:+ ADDON d.

(** A host with the logging function and nothing else, and a formatter
    that keeps the format string: enough to run examples. *)
Definition bare_format (l : list Sqf.value) : string :=
  match l with Sqf.VString f :: _ => f | _ => "" end.

Definition nothing_else (f : string) (a : Sqf.value) (w : Sqf.world)
    : Sqf.result (Sqf.value * Sqf.world) :=
  Sqf.Err (Sqf.UnknownFunction f).

Definition run_bare := Sqf.exec bare_format (Sqf.host_with_log nothing_else).

(** A state with the logging function installed, the function
    [CBA_fnc_fish] that hands back its argument, and nothing else. *)
Definition fish_installed : Sqf.state :=
  Sqf.State
    {[ "CBA_fnc_log" := Sqf.VNative "CBA_fnc_log";
       "CBA_fnc_fish" := Sqf.VCode [Sqf.SExpr (Sqf.EVar "_this")] ]}
    [] [].

(** The type checks of lines 680-693, each with the type it names. *)
Definition type_checks : list (string * (Sqf.expr -> Sqf.expr)) :=
  [("ARRAY", Sqf.IS_ARRAY); ("BOOL", Sqf.IS_BOOL); ("CODE", Sqf.IS_CODE);
   ("CONFIG", Sqf.IS_CONFIG); ("CONTROL", Sqf.IS_CONTROL);
   ("DISPLAY", Sqf.IS_DISPLAY); ("GROUP", Sqf.IS_GROUP);
   ("OBJECT", Sqf.IS_OBJECT); ("SCALAR", Sqf.IS_SCALAR);
   ("SCRIPT", Sqf.IS_SCRIPT); ("SIDE", Sqf.IS_SIDE);
   ("STRING", Sqf.IS_STRING); ("TEXT", Sqf.IS_TEXT);
   ("LOCATION", Sqf.IS_LOCATION)].

(** [EXPLODE_n] target by target, from position [k] of the array [xs]:
    what [select] finds is assigned, an error ends it. *)
Fixpoint split_into (k : nat) (targets : list string) (xs : list Sqf.value)
    (s : Sqf.state) : Sqf.result Sqf.state :=
  match targets with
  | [] => Sqf.Ok s
  | A :: rest =>
      match Sqf.select xs (inject_Z (Z.of_nat k)) with
      | Sqf.Ok v => split_into (S k) rest xs (Sqf.write A v s)
      | Sqf.Err e => Sqf.Err e
      | Sqf.OutOfFuel => Sqf.OutOfFuel
      end
  end.

(** The assignments of [EXPLODE_n], from position [k]. *)
Fixpoint explode_from (ARRAY : Sqf.expr) (k : nat) (targets : list string)
    : list Sqf.stmt :=
  match targets with
  | [] => []
  | A :: rest =>
      Sqf.SAssign A (Sqf.EBin Sqf.Select (Sqf.EParen ARRAY) (index k))
      :: explode_from ARRAY (S k) rest
  end.

(** Variables bound one after the other in a scope. *)
Definition bind_all (f : gmap string Sqf.value)
    (l : list (string * Sqf.value)) : gmap string Sqf.value :=
  foldl (fun f ax => <[fst ax := snd ax]> f) f l.

(** [TRACE_n] and [PARAMS_n], with [n] the number of variables. *)
Definition TRACE (d : gmap string string) (here : Sqf.site)
    (MESSAGE : Sqf.expr) (vars : list string) : option (list Sqf.stmt) :=
  match vars with
  | [A] => Some (Sqf.TRACE_1 d here MESSAGE A)
  | [A; B] => Some (Sqf.TRACE_2 d here MESSAGE A B)
  | [A; B; C] => Some (Sqf.TRACE_3 d here MESSAGE A B C)
  | [A; B; C; D] => Some (Sqf.TRACE_4 d here MESSAGE A B C D)
  | [A; B; C; D; E] => Some (Sqf.TRACE_5 d here MESSAGE A B C D E)
  | [A; B; C; D; E; F] => Some (Sqf.TRACE_6 d here MESSAGE A B C D E F)
  | [A; B; C; D; E; F; G] => Some (Sqf.TRACE_7 d here MESSAGE A B C D E F G)
  | [A; B; C; D; E; F; G; H] =>
      Some (Sqf.TRACE_8 d here MESSAGE A B C D E F G H)
  | _ => None
  end.

Definition PARAMS (d : gmap string string) (here : Sqf.site)
    (targets : list string) : option (list Sqf.stmt) :=
  match targets with
  | [A; B] => Some (Sqf.PARAMS_2 d here A B)
  | [A; B; C] => Some (Sqf.PARAMS_3 d here A B C)
  | [A; B; C; D] => Some (Sqf.PARAMS_4 d here A B C D)
  | [A; B; C; D; E] => Some (Sqf.PARAMS_5 d here A B C D E)
  | [A; B; C; D; E; F] => Some (Sqf.PARAMS_6 d here A B C D E F)
  | [A; B; C; D; E; F; G] => Some (Sqf.PARAMS_7 d here A B C D E F G)
  | [A; B; C; D; E; F; G; H] => Some (Sqf.PARAMS_8 d here A B C D E F G H)
  | _ => None
  end.

(** The entry a trace of the variables [vars], worth [values], records. *)
Definition trace_record (format : list Sqf.value -> string)
    (d : gmap string string) (here : Sqf.site) (message : string)
    (vars : list string) (values : list Sqf.value) : Sqf.value :=
  Sqf.VArray
    [Sqf.VString (file_name d here);
     Sqf.VScalar (inject_Z (Sqf.site_line here));
     Sqf.VString
       (format (Sqf.VString ("%1: " +:+ trace_fields 2 vars)
                :: Sqf.VString message :: values))].

(** What the error function is handed when an assertion fails, and the
    call of a function of the host. *)
Definition assertion_record (d : gmap string string) (here : Sqf.site)
    (message : string) : Sqf.value :=
  Sqf.VArray
    [Sqf.VString (file_name d here);
     Sqf.VScalar (inject_Z (Sqf.site_line here));
     Sqf.VString "Assertion failed!";
     Sqf.VString message].

Definition host_call
    (host : string -> Sqf.value -> Sqf.world
            -> Sqf.result (Sqf.value * Sqf.world))
    (name : string) (a : Sqf.value) (s : Sqf.state)
    : Sqf.result (Sqf.value * Sqf.state) :=
  match host name a (Sqf.world_of s) with
  | Sqf.Ok (v, w) => Sqf.Ok (v, Sqf.with_world w s)
  | Sqf.Err e => Sqf.Err e
  | Sqf.OutOfFuel => Sqf.OutOfFuel
  end.

(** *** Scopes a call does not see

    Scopes [extra] put under a scope that declares whatever they declare,
    [depth] scopes from the bottom: the scopes of a wrapper between a
    function and its caller. *)
Section Scopes.

Variable extra : list (gmap string Sqf.value).
Variable depth : nat.

Definition covers (F : gmap string Sqf.value) : Prop :=
  forall e x, e ∈ extra -> is_Some (e !! x) -> is_Some (F !! x).

Inductive under
    : list (gmap string Sqf.value) -> list (gmap string Sqf.value) -> Prop :=
  | under_intro up F low :
      length low = depth -> covers F ->
      under (up ++ F :: low) (up ++ F :: extra ++ low).

Definition same_but_scopes (s se : Sqf.state) : Prop :=
  Sqf.globals se = Sqf.globals s /\ Sqf.rpt se = Sqf.rpt s
  /\ under (Sqf.frames s) (Sqf.frames se).

(** Two results, the second from a state with the scopes put under. *)
Definition rel {A} (s : Sqf.state) (r re : Sqf.result (A * Sqf.state))
    : Prop :=
  match r with
  | Sqf.Ok (v, s') =>
      exists se', re = Sqf.Ok (v, se') /\ same_but_scopes s' se'
                  /\ length (Sqf.frames s') = length (Sqf.frames s)
  | Sqf.Err x => re = Sqf.Err x
  | Sqf.OutOfFuel => re = Sqf.OutOfFuel
  end.

Definition simulates
    (run : list Sqf.stmt -> Sqf.state -> Sqf.result (Sqf.value * Sqf.state))
    : Prop :=
  forall c s se, same_but_scopes s se -> rel s (run c s) (run c se).

End Scopes.

End Spec.

(** ** The header as a whole

    Every macro the header defines, and the preprocessor step that
    replaces one invocation. *)

Module Header.

Abbreviation text := string (only parsing).
Abbreviation defs := (gmap string string) (only parsing).

(** The names of lines 42-1086 that [#define] introduces, in the order of
    the file. *)
Inductive macro :=
  | MAINPREFIX | SUBPREFIX | MAINLOGIC | VERSION | VERSION_AR
  | VERSION_CONFIG | DEBUG_MODE_NORMAL | DEBUG_MODE_MINIMAL | THIS_FILE_
  | LOG | WARNING | ERROR | ERROR_WITH_TITLE | RETNIL | TRACE_1 | TRACE_2
  | TRACE_3 | TRACE_4 | TRACE_5 | TRACE_6 | TRACE_7 | TRACE_8 | DOUBLES
  | TRIPLES | QUOTE | COMPONENT_T | COMPONENT_M | COMPONENT_S | COMPONENT_C
  | COMPONENT_F | INC | DEC | ADD | SUB | REM | PUSH | ISNILS | ISNILS2
  | ISNILS3 | ISNIL | ISNILMAIN | CREATELOGICS | CREATELOGICLOCALS
  | CREATELOGICGLOBALS | CREATELOGICGLOBALTESTS | GETVARS | GETVARMAINS
  | PATHTO_SYS | PATHTOF_SYS | PATHTOF2_SYS | PATHTO_R | PATHTO_T
  | PATHTO_M | PATHTO_S | PATHTO_C | PATHTO_F | COMPILE_FILE_SYS | SETVARS
  | SETVARMAINS | GVARS | GVARMAINS | CFGSETTINGSS | PREPMAIN_SYS
  | PREP_SYS | PREP_SYS2 | LSTR | DEBUG_SETTINGS | MSG_INIT | ADDON
  | MAIN_ADDON | CFGSETTINGS | PATHTO | PATHTOF | COMPILE_FILE
  | VERSIONING_SYS | VERSIONING | GVAR | GVARMAIN | SETTINGS | CREATELOGIC
  | CREATELOGICGLOBAL | CREATELOGICGLOBALTEST | CREATELOGICLOCAL
  | CREATELOGICMAIN | GETVAR | SETVAR | SETVARMAIN | IFCOUNT | PREP
  | PREPMAIN | FUNC | FUNCMAIN | FUNC_INNER | ARG_1 | ARG_2 | ARG_3 | ARG_4
  | ARG_5 | ARG_6 | ARG_7 | ARG_8 | DISPLAY | CONTROL | IS_ARRAY | IS_BOOL
  | IS_CODE | IS_CONFIG | IS_CONTROL | IS_DISPLAY | IS_GROUP | IS_OBJECT
  | IS_SCALAR | IS_SCRIPT | IS_SIDE | IS_STRING | IS_TEXT | IS_LOCATION
  | IS_BOOLEAN | IS_FUNCTION | IS_INTEGER | IS_NUMBER | SCRIPT | EXPLODE_2
  | EXPLODE_3 | EXPLODE_4 | EXPLODE_5 | EXPLODE_6 | EXPLODE_7 | EXPLODE_8
  | PARAMS_1 | PARAMS_2 | PARAMS_3 | PARAMS_4 | PARAMS_5 | PARAMS_6
  | PARAMS_7 | PARAMS_8 | DEFAULT_PARAM | ASSERTION_ERROR | ASSERT_TRUE
  | ASSERT_FALSE | ASSERT_OP | ASSERT_DEFINED | DEPRECATE_SYS | DEPRECATE
  | OBSOLETE_SYS | OBSOLETE.

(** An invocation is replaced when it has as many arguments as the macro
    has parameters; an object-like macro has none. *)
Definition on0 (body : text) (args : list text) : option text :=
  match args with [] => Some body | _ => None end.

Definition on1 (body : text -> text) (args : list text) :
  option text :=
  match args with
  | [a1] => Some (body a1)
  | _ => None
  end.

Definition on2 (body : text -> text -> text) (args : list text) :
  option text :=
  match args with
  | [a1; a2] => Some (body a1 a2)
  | _ => None
  end.

Definition on3 (body : text -> text -> text -> text) (args : list text) :
  option text :=
  match args with
  | [a1; a2; a3] => Some (body a1 a2 a3)
  | _ => None
  end.

Definition on4 (body : text -> text -> text -> text -> text) (args : list text) :
  option text :=
  match args with
  | [a1; a2; a3; a4] => Some (body a1 a2 a3 a4)
  | _ => None
  end.

Definition on5 (body : text -> text -> text -> text -> text -> text) (args : list text) :
  option text :=
  match args with
  | [a1; a2; a3; a4; a5] => Some (body a1 a2 a3 a4 a5)
  | _ => None
  end.

Definition on6 (body : text -> text -> text -> text -> text -> text -> text) (args : list text) :
  option text :=
  match args with
  | [a1; a2; a3; a4; a5; a6] => Some (body a1 a2 a3 a4 a5 a6)
  | _ => None
  end.

Definition on7 (body : text -> text -> text -> text -> text -> text -> text -> text) (args : list text) :
  option text :=
  match args with
  | [a1; a2; a3; a4; a5; a6; a7] => Some (body a1 a2 a3 a4 a5 a6 a7)
  | _ => None
  end.

Definition on8 (body : text -> text -> text -> text -> text -> text -> text -> text -> text) (args : list text) :
  option text :=
  match args with
  | [a1; a2; a3; a4; a5; a6; a7; a8] => Some (body a1 a2 a3 a4 a5 a6 a7 a8)
  | _ => None
  end.

Definition on9 (body : text -> text -> text -> text -> text -> text -> text -> text -> text -> text) (args : list text) :
  option text :=
  match args with
  | [a1; a2; a3; a4; a5; a6; a7; a8; a9] => Some (body a1 a2 a3 a4 a5 a6 a7 a8 a9)
  | _ => None
  end.

(** [DEBUG_MODE_NORMAL] and [DEBUG_MODE_MINIMAL] (lines 118-132) are
    macros when the conditional sections have defined them, with the body
    they were given. *)
Definition conditional (name : string) (d : defs) (args : list text) :
  option text :=
  match args with [] => Text.debug_modes d !! name | _ => None end.

Definition invoke_ARG_8 (args : list text) : option text :=
  match args with
  | [A; B; C; D; E; F; G; H; I'] => Text.ARG_8 A B C D E F G H I'
  | _ => None
  end.

(** The replacement text of the invocation of [m] with the argument texts
    [args] under the definitions [d]; [None] when the preprocessor has no
    replacement for it. *)
Definition expand (d : defs) (m : macro) (args : list text) : option text :=
  match m with
  | MAINPREFIX => on0 (Text.MAINPREFIX d) args
  | SUBPREFIX => on0 (Text.SUBPREFIX d) args
  | MAINLOGIC => on0 (Text.MAINLOGIC d) args
  | VERSION => on0 (Text.VERSION d) args
  | VERSION_AR => on0 (Text.VERSION_AR d) args
  | VERSION_CONFIG => on0 (Text.VERSION_CONFIG d) args
  | DEBUG_MODE_NORMAL => conditional "DEBUG_MODE_NORMAL" d args
  | DEBUG_MODE_MINIMAL => conditional "DEBUG_MODE_MINIMAL" d args
  | THIS_FILE_ => on0 (Text.THIS_FILE_ d) args
  | LOG => on1 (Text.LOG d) args
  | WARNING => on1 (Text.WARNING d) args
  | ERROR => on1 (Text.ERROR d) args
  | ERROR_WITH_TITLE => on2 (Text.ERROR_WITH_TITLE d) args
  | RETNIL => on1 (Text.RETNIL) args
  | TRACE_1 => on2 (Text.TRACE_1 d) args
  | TRACE_2 => on3 (Text.TRACE_2 d) args
  | TRACE_3 => on4 (Text.TRACE_3 d) args
  | TRACE_4 => on5 (Text.TRACE_4 d) args
  | TRACE_5 => on6 (Text.TRACE_5 d) args
  | TRACE_6 => on7 (Text.TRACE_6 d) args
  | TRACE_7 => on8 (Text.TRACE_7 d) args
  | TRACE_8 => on9 (Text.TRACE_8 d) args
  | DOUBLES => on2 (Text.DOUBLES) args
  | TRIPLES => on3 (Text.TRIPLES) args
  | QUOTE => on1 (Text.QUOTE) args
  | COMPONENT_T => on0 (Text.COMPONENT_T d) args
  | COMPONENT_M => on0 (Text.COMPONENT_M d) args
  | COMPONENT_S => on0 (Text.COMPONENT_S d) args
  | COMPONENT_C => on0 (Text.COMPONENT_C d) args
  | COMPONENT_F => on0 (Text.COMPONENT_F d) args
  | INC => on1 (Text.INC) args
  | DEC => on1 (Text.DEC) args
  | ADD => on2 (Text.ADD) args
  | SUB => on2 (Text.SUB) args
  | REM => on2 (Text.REM) args
  | PUSH => on2 (Text.PUSH) args
  | ISNILS => on2 (Text.ISNILS) args
  | ISNILS2 => on4 (Text.ISNILS2) args
  | ISNILS3 => on3 (Text.ISNILS3) args
  | ISNIL => on2 (Text.ISNIL d) args
  | ISNILMAIN => on2 (Text.ISNILMAIN d) args
  | CREATELOGICS => on2 (Text.CREATELOGICS) args
  | CREATELOGICLOCALS => on2 (Text.CREATELOGICLOCALS) args
  | CREATELOGICGLOBALS => on2 (Text.CREATELOGICGLOBALS) args
  | CREATELOGICGLOBALTESTS => on2 (Text.CREATELOGICGLOBALTESTS d) args
  | GETVARS => on3 (Text.GETVARS) args
  | GETVARMAINS => on2 (Text.GETVARMAINS d) args
  | PATHTO_SYS => on3 (Text.PATHTO_SYS d) args
  | PATHTOF_SYS => on3 (Text.PATHTOF_SYS d) args
  | PATHTOF2_SYS => on3 (Text.PATHTOF2_SYS d) args
  | PATHTO_R => on1 (Text.PATHTO_R d) args
  | PATHTO_T => on1 (Text.PATHTO_T d) args
  | PATHTO_M => on1 (Text.PATHTO_M d) args
  | PATHTO_S => on1 (Text.PATHTO_S d) args
  | PATHTO_C => on1 (Text.PATHTO_C d) args
  | PATHTO_F => on1 (Text.PATHTO_F d) args
  | COMPILE_FILE_SYS => on3 (Text.COMPILE_FILE_SYS d) args
  | SETVARS => on2 (Text.SETVARS) args
  | SETVARMAINS => on1 (Text.SETVARMAINS d) args
  | GVARS => on3 (Text.GVARS) args
  | GVARMAINS => on2 (Text.GVARMAINS) args
  | CFGSETTINGSS => on2 (Text.CFGSETTINGSS) args
  | PREPMAIN_SYS => on3 (Text.PREPMAIN_SYS d) args
  | PREP_SYS => on3 (Text.PREP_SYS d) args
  | PREP_SYS2 => on4 (Text.PREP_SYS2 d) args
  | LSTR => on1 (Text.LSTR d) args
  | DEBUG_SETTINGS => on0 (Text.DEBUG_SETTINGS d) args
  | MSG_INIT => on0 (Text.MSG_INIT d) args
  | ADDON => on0 (Text.ADDON d) args
  | MAIN_ADDON => on0 (Text.MAIN_ADDON d) args
  | CFGSETTINGS => on0 (Text.CFGSETTINGS d) args
  | PATHTO => on1 (Text.PATHTO d) args
  | PATHTOF => on1 (Text.PATHTOF d) args
  | COMPILE_FILE => on1 (Text.COMPILE_FILE d) args
  | VERSIONING_SYS => on1 (Text.VERSIONING_SYS) args
  | VERSIONING => on0 (Text.VERSIONING d) args
  | GVAR => on1 (Text.GVAR d) args
  | GVARMAIN => on1 (Text.GVARMAIN d) args
  | SETTINGS => on0 (Text.SETTINGS d) args
  | CREATELOGIC => on0 (Text.CREATELOGIC d) args
  | CREATELOGICGLOBAL => on0 (Text.CREATELOGICGLOBAL d) args
  | CREATELOGICGLOBALTEST => on0 (Text.CREATELOGICGLOBALTEST d) args
  | CREATELOGICLOCAL => on0 (Text.CREATELOGICLOCAL d) args
  | CREATELOGICMAIN => on0 (Text.CREATELOGICMAIN d) args
  | GETVAR => on1 (Text.GETVAR d) args
  | SETVAR => on0 (Text.SETVAR d) args
  | SETVARMAIN => on0 (Text.SETVARMAIN d) args
  | IFCOUNT => on3 (Text.IFCOUNT) args
  | PREP => on1 (Text.PREP d) args
  | PREPMAIN => on1 (Text.PREPMAIN d) args
  | FUNC => on1 (Text.FUNC d) args
  | FUNCMAIN => on1 (Text.FUNCMAIN d) args
  | FUNC_INNER => on2 (Text.FUNC_INNER d) args
  | ARG_1 => on2 (Text.ARG_1) args
  | ARG_2 => on3 (Text.ARG_2) args
  | ARG_3 => on4 (Text.ARG_3) args
  | ARG_4 => on5 (Text.ARG_4) args
  | ARG_5 => on6 (Text.ARG_5) args
  | ARG_6 => on7 (Text.ARG_6) args
  | ARG_7 => Text.invoke_ARG_7 args
  | ARG_8 => invoke_ARG_8 args
  | DISPLAY => on1 (Text.DISPLAY) args
  | CONTROL => on1 (Text.CONTROL) args
  | IS_ARRAY => on1 (Text.IS_ARRAY) args
  | IS_BOOL => on1 (Text.IS_BOOL) args
  | IS_CODE => on1 (Text.IS_CODE) args
  | IS_CONFIG => on1 (Text.IS_CONFIG) args
  | IS_CONTROL => on1 (Text.IS_CONTROL) args
  | IS_DISPLAY => on1 (Text.IS_DISPLAY) args
  | IS_GROUP => on1 (Text.IS_GROUP) args
  | IS_OBJECT => on1 (Text.IS_OBJECT) args
  | IS_SCALAR => on1 (Text.IS_SCALAR) args
  | IS_SCRIPT => on1 (Text.IS_SCRIPT) args
  | IS_SIDE => on1 (Text.IS_SIDE) args
  | IS_STRING => on1 (Text.IS_STRING) args
  | IS_TEXT => on1 (Text.IS_TEXT) args
  | IS_LOCATION => on1 (Text.IS_LOCATION) args
  | IS_BOOLEAN => on1 (Text.IS_BOOLEAN) args
  | IS_FUNCTION => on1 (Text.IS_FUNCTION) args
  | IS_INTEGER => on1 (Text.IS_INTEGER) args
  | IS_NUMBER => on1 (Text.IS_NUMBER) args
  | SCRIPT => on1 (Text.SCRIPT d) args
  | EXPLODE_2 => on3 (Text.EXPLODE_2) args
  | EXPLODE_3 => on4 (Text.EXPLODE_3) args
  | EXPLODE_4 => on5 (Text.EXPLODE_4) args
  | EXPLODE_5 => on6 (Text.EXPLODE_5) args
  | EXPLODE_6 => on7 (Text.EXPLODE_6) args
  | EXPLODE_7 => on8 (Text.EXPLODE_7) args
  | EXPLODE_8 => on9 (Text.EXPLODE_8) args
  | PARAMS_1 => on1 (Text.PARAMS_1 d) args
  | PARAMS_2 => on2 (Text.PARAMS_2 d) args
  | PARAMS_3 => on3 (Text.PARAMS_3 d) args
  | PARAMS_4 => on4 (Text.PARAMS_4 d) args
  | PARAMS_5 => on5 (Text.PARAMS_5 d) args
  | PARAMS_6 => on6 (Text.PARAMS_6 d) args
  | PARAMS_7 => on7 (Text.PARAMS_7 d) args
  | PARAMS_8 => on8 (Text.PARAMS_8 d) args
  | DEFAULT_PARAM => on3 (Text.DEFAULT_PARAM d) args
  | ASSERTION_ERROR => on1 (Text.ASSERTION_ERROR d) args
  | ASSERT_TRUE => on2 (Text.ASSERT_TRUE d) args
  | ASSERT_FALSE => on2 (Text.ASSERT_FALSE d) args
  | ASSERT_OP => on4 (Text.ASSERT_OP d) args
  | ASSERT_DEFINED => on2 (Text.ASSERT_DEFINED d) args
  | DEPRECATE_SYS => on2 (Text.DEPRECATE_SYS d) args
  | DEPRECATE => on2 (Text.DEPRECATE d) args
  | OBSOLETE_SYS => on2 (Text.OBSOLETE_SYS d) args
  | OBSOLETE => on2 (Text.OBSOLETE d) args
  end.

(** The names a [#define] outside the header gives and that its macro
    bodies and conditional sections refer to. *)
Definition configuration : list string :=
  ["PREFIX"; "COMPONENT"; "MAINPREFIX"; "SUBPREFIX"; "MAINLOGIC"; "VERSION";
   "VERSION_AR"; "VERSION_CONFIG"; "DEBUG_MODE_FULL"; "DEBUG_MODE_NORMAL";
   "DEBUG_MODE_MINIMAL"; "THIS_FILE"; "MODULAR"; "DEBUG_SETTINGS"].

(** Two tables of definitions that give these names the same meaning. *)
Definition agree (d1 d2 : defs) : Prop :=
  forall name, name ∈ configuration -> d1 !! name = d2 !! name.

(** Two tables with the same [#define]s: they differ at most in the two
    names no [#define] gives, the file and the line the preprocessor is
    at. *)
Definition same_defines (d1 d2 : defs) : Prop :=
  forall name,
    name <> "__FILE__" -> name <> "__LINE__" -> d1 !! name = d2 !! name.

(** Two tables for the same place in the same file. *)
Definition same_place (d1 d2 : defs) : Prop :=
  d1 !! "__FILE__" = d2 !! "__FILE__" /\ d1 !! "__LINE__" = d2 !! "__LINE__".

(** The macros whose replacement text names the place of the invocation,
    through [THIS_FILE_] or [__LINE__]: the logging, tracing, assertion and
    deprecation macros, and [PARAMS_n] and [DEFAULT_PARAM], which trace. *)
Definition reports_place (m : macro) : bool :=
  match m with
  | THIS_FILE_ | LOG | WARNING | ERROR | ERROR_WITH_TITLE
  | TRACE_1 | TRACE_2 | TRACE_3 | TRACE_4 | TRACE_5 | TRACE_6 | TRACE_7
  | TRACE_8
  | PARAMS_1 | PARAMS_2 | PARAMS_3 | PARAMS_4 | PARAMS_5 | PARAMS_6
  | PARAMS_7 | PARAMS_8 | DEFAULT_PARAM
  | ASSERTION_ERROR | ASSERT_TRUE | ASSERT_FALSE | ASSERT_OP
  | ASSERT_DEFINED
  | DEPRECATE_SYS | DEPRECATE | OBSOLETE_SYS | OBSOLETE => true
  | _ => false
  end.

(** The preprocessor while it reads the text that follows the header: the
    definitions in force and the text put out so far. *)
Record preprocessor := Preprocessor {
  definitions : defs;
  output : list text
}.

(** One invocation met in that text; [None] when it has no replacement. *)
Definition invoke (m : macro) (args : list text) (p : preprocessor) :
  option preprocessor :=
  replacement ← expand (definitions p) m args;
  Some (Preprocessor (definitions p) (output p ++ [replacement])).

(** Invocations one after the other. *)
Fixpoint run (invocations : list (macro * list text)) (p : preprocessor) :
  option preprocessor :=
  match invocations with
  | [] => Some p
  | (m, args) :: rest => p' ← invoke m args p; run rest p'
  end.

(** The replacement texts of a list of invocations, each expanded on its
    own under the definitions [d]. *)
Definition expansions (d : defs) (invocations : list (macro * list text)) :
  option (list text) :=
  mapM (fun i => expand d (fst i) (snd i)) invocations.

End Header.

(** * Properties *)

Import Text Spec.

(** ** The table of definitions *)

Lemma defined_define_eq name body (d : gmap string string) :
  defined name (define name body d) = true.
Proof. unfold defined, define. by rewrite lookup_insert_eq. Qed.

Lemma defined_define_ne name name' body (d : gmap string string) :
  name <> name' -> defined name' (define name body d) = defined name' d.
Proof. intros Hne. unfold defined, define. by rewrite lookup_insert_ne. Qed.

(** The three conditional sections never touch [DEBUG_MODE_FULL]. *)
Lemma debug_full_spec (d : gmap string string) :
  DEBUG_MODE_FULL d = defined "DEBUG_MODE_FULL" d.
Proof.
  unfold DEBUG_MODE_FULL, debug_modes, default_debug_mode,
    normal_enables_minimal, full_enables_normal.
  repeat (case_match; rewrite ?defined_define_ne by done); done.
Qed.

Lemma debug_normal_spec (d : gmap string string) :
  DEBUG_MODE_NORMAL d =
  defined "DEBUG_MODE_FULL" d || defined "DEBUG_MODE_NORMAL" d
  || negb (defined "DEBUG_MODE_MINIMAL" d).
Proof.
  unfold DEBUG_MODE_NORMAL, debug_modes, default_debug_mode,
    normal_enables_minimal, full_enables_normal.
  destruct (defined "DEBUG_MODE_FULL" d) eqn:Hf;
    destruct (defined "DEBUG_MODE_NORMAL" d) eqn:Hn;
    destruct (defined "DEBUG_MODE_MINIMAL" d) eqn:Hm;
    rewrite ?defined_define_eq, ?defined_define_ne, ?Hf, ?Hn, ?Hm,
      ?defined_define_eq, ?defined_define_ne, ?Hf, ?Hn, ?Hm,
      ?defined_define_eq, ?defined_define_ne, ?Hf, ?Hn, ?Hm by done;
    done.
Qed.

Lemma debug_minimal_spec (d : gmap string string) :
  DEBUG_MODE_MINIMAL d = true.
Proof.
  unfold DEBUG_MODE_MINIMAL, debug_modes, default_debug_mode.
  case_match; [done |]. by rewrite defined_define_eq.
Qed.

(** ** Text *)

Lemma append_assoc (a b c : string) : (a +:+ b) +:+ c = a +:+ b +:+ c.
Proof.
  induction a as [|x a IH]; [reflexivity |].
  change (String x ((a +:+ b) +:+ c) = String x (a +:+ b +:+ c)).
  by f_equal.
Qed.

Lemma identifier_tail_append (a b : string) :
  identifier_tail a = true -> identifier_tail b = true ->
  identifier_tail (a +:+ b) = true.
Proof.
  induction a as [|x a IH]; [done |].
  change (String x a +:+ b) with (String x (a +:+ b)). simpl.
  intros [Hx Ha]%andb_prop Hb. by rewrite Hx, IH.
Qed.

Lemma identifier_is_tail (a : string) :
  is_identifier a = true -> identifier_tail a = true.
Proof.
  destruct a as [|x a]; simpl; [done |].
  intros [Hx Ha]%andb_prop. rewrite Ha, andb_true_r.
  by rewrite Hx.
Qed.

Lemma identifier_append (a b : string) :
  is_identifier a = true -> identifier_tail b = true ->
  is_identifier (a +:+ b) = true.
Proof.
  destruct a as [|x a]; [done |].
  change (String x a +:+ b) with (String x (a +:+ b)). simpl.
  intros [Hx Ha]%andb_prop Hb. by rewrite Hx, identifier_tail_append.
Qed.

Lemma object_like_defined name body (d : gmap string string) :
  d !! name = Some body -> object_like name d = body.
Proof. intros H. unfold object_like. by rewrite H. Qed.

(** C2. With [PREFIX] defined as [p] and [COMPONENT] as [c], the naming
    macros glue identifiers into one identifier: [FUNC(n)] is
    [p_c_fnc_n], [GVAR(n)] is [p_c_n] and [GVARMAIN(n)] is [p_n]. *)
Theorem naming_macros_paste_one_identifier
    (d : gmap string string) (p c n : string) :
  d !! "PREFIX" = Some p -> d !! "COMPONENT" = Some c ->
  is_identifier p = true -> is_identifier c = true ->
  is_identifier n = true ->
  (FUNC d n = p +:+ "_" +:+ c +:+ "_fnc_" +:+ n
   /\ is_identifier (FUNC d n) = true)
  /\ (GVAR d n = p +:+ "_" +:+ c +:+ "_" +:+ n
      /\ is_identifier (GVAR d n) = true)
  /\ (GVARMAIN d n = p +:+ "_" +:+ n
      /\ is_identifier (GVARMAIN d n) = true).
Proof.
  intros Hp Hc Ip Ic In.
  assert (Tc := identifier_is_tail _ Ic).
  assert (Tn := identifier_is_tail _ In).
  unfold FUNC, GVAR, GVARMAIN, TRIPLES, DOUBLES, GVARS, GVARMAINS, PREFIX,
    COMPONENT.
  rewrite (object_like_defined _ _ _ Hp), (object_like_defined _ _ _ Hc).
  rewrite !append_assoc.
  change ("_" +:+ "fnc" +:+ "_" +:+ n) with ("_fnc_" +:+ n).
  assert (Un : identifier_tail ("_" +:+ n) = true)
    by exact (identifier_tail_append "_" n eq_refl Tn).
  assert (Fn : identifier_tail ("_fnc_" +:+ n) = true)
    by exact (identifier_tail_append "_fnc_" n eq_refl Tn).
  repeat split.
  - apply identifier_append; [exact Ip |].
    apply (identifier_tail_append "_"); [reflexivity |].
    apply identifier_tail_append; assumption.
  - apply identifier_append; [exact Ip |].
    apply (identifier_tail_append "_"); [reflexivity |].
    apply identifier_tail_append; assumption.
  - apply identifier_append; assumption.
Qed.

Lemma naming_macros_paste_one_identifier_witness :
  Text.FUNC {[ "PREFIX" := "cba"; "COMPONENT" := "main" ]} "log"
  = "cba_main_fnc_log".
Proof.
  pose proof
    (naming_macros_paste_one_identifier
       {[ "PREFIX" := "cba"; "COMPONENT" := "main" ]} "cba" "main" "log"
       eq_refl eq_refl eq_refl eq_refl eq_refl) as [[H _] _].
  exact H.
Defined.

(** ** Logging and the debug levels *)

(** Two texts built from the same pieces, grouped differently. *)
Ltac same_text :=
  cbv [trace_fields trace_values position RETNIL];
  rewrite ?append_assoc; reflexivity.

Lemma trace_1_entry d M A :
  TRACE_1 d M A = if DEBUG_MODE_FULL d then log_call d (trace_entry M [A]) else "".
Proof.
  unfold TRACE_1, log_call, trace_entry. case_match; [| done]. same_text.
Qed.

Lemma trace_2_entry d M A B :
  TRACE_2 d M A B
  = if DEBUG_MODE_FULL d then log_call d (trace_entry M [A; B]) else "".
Proof.
  unfold TRACE_2, log_call, trace_entry. case_match; [| done]. same_text.
Qed.

Lemma trace_3_entry d M A B C :
  TRACE_3 d M A B C
  = if DEBUG_MODE_FULL d then log_call d (trace_entry M [A; B; C]) else "".
Proof.
  unfold TRACE_3, log_call, trace_entry. case_match; [| done]. same_text.
Qed.

Lemma trace_4_entry d M A B C D :
  TRACE_4 d M A B C D
  = if DEBUG_MODE_FULL d then log_call d (trace_entry M [A; B; C; D]) else "".
Proof.
  unfold TRACE_4, log_call, trace_entry. case_match; [| done]. same_text.
Qed.

Lemma trace_5_entry d M A B C D E :
  TRACE_5 d M A B C D E
  = if DEBUG_MODE_FULL d
    then log_call d (trace_entry M [A; B; C; D; E]) else "".
Proof.
  unfold TRACE_5, log_call, trace_entry. case_match; [| done]. same_text.
Qed.

Lemma trace_6_entry d M A B C D E F :
  TRACE_6 d M A B C D E F
  = if DEBUG_MODE_FULL d
    then log_call d (trace_entry M [A; B; C; D; E; F]) else "".
Proof.
  unfold TRACE_6, log_call, trace_entry. case_match; [| done]. same_text.
Qed.

Lemma trace_7_entry d M A B C D E F G :
  TRACE_7 d M A B C D E F G
  = if DEBUG_MODE_FULL d
    then log_call d (trace_entry M [A; B; C; D; E; F; G]) else "".
Proof.
  unfold TRACE_7, log_call, trace_entry. case_match; [| done]. same_text.
Qed.

Lemma trace_8_entry d M A B C D E F G H :
  TRACE_8 d M A B C D E F G H
  = if DEBUG_MODE_FULL d
    then log_call d (trace_entry M [A; B; C; D; E; F; G; H]) else "".
Proof.
  unfold TRACE_8, log_call, trace_entry. case_match; [| done]. same_text.
Qed.

(** C8. The debug levels form a hierarchy: [DEBUG_MODE_FULL] brings
    [DEBUG_MODE_NORMAL], [DEBUG_MODE_NORMAL] brings [DEBUG_MODE_MINIMAL],
    and with none of the three defined before the header is read,
    [DEBUG_MODE_NORMAL] and [DEBUG_MODE_MINIMAL] are defined after it.
    [LOG] and [TRACE_1] to [TRACE_8] are logging calls when
    [DEBUG_MODE_FULL] is defined and empty otherwise, [WARNING] is a
    logging call when [DEBUG_MODE_NORMAL] is defined and empty otherwise,
    [ERROR] and [ERROR_WITH_TITLE] are error calls always. *)
Theorem debug_levels_hierarchy
    (d : gmap string string) (M T A B C D E F G H : string) :
  ((defined "DEBUG_MODE_FULL" d = true -> DEBUG_MODE_NORMAL d = true)
   /\ (defined "DEBUG_MODE_NORMAL" d = true -> DEBUG_MODE_MINIMAL d = true)
   /\ (defined "DEBUG_MODE_FULL" d = false
       /\ defined "DEBUG_MODE_NORMAL" d = false
       /\ defined "DEBUG_MODE_MINIMAL" d = false ->
       DEBUG_MODE_NORMAL d = true /\ DEBUG_MODE_MINIMAL d = true)
   /\ DEBUG_MODE_FULL d = defined "DEBUG_MODE_FULL" d)
  /\ (LOG d M = if DEBUG_MODE_FULL d then log_call d M else "")
  /\ (TRACE_1 d M A
      = if DEBUG_MODE_FULL d then log_call d (trace_entry M [A]) else "")
  /\ (TRACE_2 d M A B
      = if DEBUG_MODE_FULL d then log_call d (trace_entry M [A; B]) else "")
  /\ (TRACE_3 d M A B C
      = if DEBUG_MODE_FULL d
        then log_call d (trace_entry M [A; B; C]) else "")
  /\ (TRACE_4 d M A B C D
      = if DEBUG_MODE_FULL d
        then log_call d (trace_entry M [A; B; C; D]) else "")
  /\ (TRACE_5 d M A B C D E
      = if DEBUG_MODE_FULL d
        then log_call d (trace_entry M [A; B; C; D; E]) else "")
  /\ (TRACE_6 d M A B C D E F
      = if DEBUG_MODE_FULL d
        then log_call d (trace_entry M [A; B; C; D; E; F]) else "")
  /\ (TRACE_7 d M A B C D E F G
      = if DEBUG_MODE_FULL d
        then log_call d (trace_entry M [A; B; C; D; E; F; G]) else "")
  /\ (TRACE_8 d M A B C D E F G H
      = if DEBUG_MODE_FULL d
        then log_call d (trace_entry M [A; B; C; D; E; F; G; H]) else "")
  /\ (WARNING d M
      = if DEBUG_MODE_NORMAL d
        then log_call d ("('WARNING: ' + " +:+ M +:+ ")") else "")
  /\ ERROR d M = error_call d (quoted "ERROR") M
  /\ ERROR_WITH_TITLE d T M = error_call d T M.
Proof.
  split; [| repeat split].
  - rewrite debug_normal_spec, debug_minimal_spec, debug_full_spec.
    split; [by intros -> |]. split; [done |]. split; [| done].
    by intros (-> & -> & ->).
  - apply trace_1_entry.
  - apply trace_2_entry.
  - apply trace_3_entry.
  - apply trace_4_entry.
  - apply trace_5_entry.
  - apply trace_6_entry.
  - apply trace_7_entry.
  - apply trace_8_entry.
  - unfold WARNING, log_call. case_match; [| done]. same_text.
Qed.

(** C1, as stated, fails: with no debug level defined before the header is
    read, [LOG("hello")] is empty, not a call of the logging function. *)
Lemma log_disabled_by_default :
  LOG ∅ (quoted "hello") = ""
  /\ LOG ∅ (quoted "hello")
     <> "[" +:+ THIS_FILE_ ∅ +:+ ", " +:+ __LINE__ ∅ +:+ ", "
        +:+ quoted "hello" +:+ "] call CBA_fnc_log".
Proof. split; [reflexivity | discriminate]. Qed.

(** C1, amended. [ERROR(M)] and [ERROR_WITH_TITLE(T,M)] expand to the call
    of the error function, closed by a semicolon, whatever the debug
    level.  [LOG(M)] expands to the call of the logging function when
    [DEBUG_MODE_FULL] is defined before the header is read, [WARNING(M)]
    when [DEBUG_MODE_FULL] or [DEBUG_MODE_NORMAL] is, or when
    [DEBUG_MODE_MINIMAL] is not; otherwise they expand to nothing. *)
Theorem logging_macros_expansion (d : gmap string string) (M T : string) :
  ERROR d M
  = "[" +:+ THIS_FILE_ d +:+ ", " +:+ __LINE__ d +:+ ", " +:+ quoted "ERROR"
    +:+ ", " +:+ M +:+ "] call CBA_fnc_error;"
  /\ ERROR_WITH_TITLE d T M
     = "[" +:+ THIS_FILE_ d +:+ ", " +:+ __LINE__ d +:+ ", " +:+ T +:+ ", "
       +:+ M +:+ "] call CBA_fnc_error;"
  /\ LOG d M
     = (if defined "DEBUG_MODE_FULL" d
        then "[" +:+ THIS_FILE_ d +:+ ", " +:+ __LINE__ d +:+ ", " +:+ M
             +:+ "] call CBA_fnc_log"
        else "")
  /\ WARNING d M
     = (if defined "DEBUG_MODE_FULL" d || defined "DEBUG_MODE_NORMAL" d
           || negb (defined "DEBUG_MODE_MINIMAL" d)
        then "[" +:+ THIS_FILE_ d +:+ ", " +:+ __LINE__ d
             +:+ ", ('WARNING: ' + " +:+ M +:+ ")] call CBA_fnc_log"
        else "").
Proof.
  unfold LOG, WARNING.
  by rewrite debug_full_spec, debug_normal_spec.
Qed.

(** ** File paths *)

(** C3, as stated, fails: with [MODULAR] defined, [PATHTO] puts [c_]
    before the component. *)
Lemma modular_path_has_prefixed_component :
  let d : gmap string string :=
    {[ "PREFIX" := "six"; "COMPONENT" := "sys_menu"; "MODULAR" := "" ]} in
  PATHTO d "fDate" = "x\six\addons\c_sys_menu\fDate.sqf"
  /\ PATHTO d "fDate"
     <> MAINPREFIX d +:+ "\" +:+ "six" +:+ "\" +:+ SUBPREFIX d +:+ "\"
        +:+ "sys_menu" +:+ "\" +:+ "fDate" +:+ ".sqf".
Proof. split; [reflexivity | discriminate]. Qed.

(** C3, amended. With [PREFIX] defined as [p] and [COMPONENT] as [c],
    [PATHTOF(s)] expands to [\MAINPREFIX\p\SUBPREFIX\c\s]; [PATHTO(s)]
    expands to [MAINPREFIX\p\SUBPREFIX\c\s.sqf] when [MODULAR] is not
    defined and to [MAINPREFIX\p\SUBPREFIX\c_c\s.sqf], the component
    after [c_], when it is; [MAINPREFIX] is [x] and [SUBPREFIX] is
    [addons] unless defined before the header is read. *)
Theorem path_macros_convention (d : gmap string string) (p c s : string) :
  d !! "PREFIX" = Some p -> d !! "COMPONENT" = Some c ->
  PATHTOF d s
  = "\" +:+ MAINPREFIX d +:+ "\" +:+ p +:+ "\" +:+ SUBPREFIX d +:+ "\" +:+ c
    +:+ "\" +:+ s
  /\ PATHTO d s
     = MAINPREFIX d +:+ "\" +:+ p +:+ "\" +:+ SUBPREFIX d +:+ "\"
       +:+ (if defined "MODULAR" d then "c_" +:+ c else c)
       +:+ "\" +:+ s +:+ ".sqf"
  /\ (d !! "MAINPREFIX" = None -> MAINPREFIX d = "x")
  /\ (d !! "SUBPREFIX" = None -> SUBPREFIX d = "addons").
Proof.
  intros Hp Hc.
  unfold PATHTOF, PATHTO, PATHTOF_SYS, PATHTO_SYS, COMPONENT_F, COMPONENT_C,
    MODULAR, DOUBLES, PREFIX, COMPONENT, MAINPREFIX, SUBPREFIX, ifndef_define.
  rewrite (object_like_defined _ _ _ Hp), (object_like_defined _ _ _ Hc).
  repeat split.
  - destruct (defined "MODULAR" d); reflexivity.
  - by intros ->.
  - by intros ->.
Qed.

Lemma path_macros_convention_witness :
  PATHTOF {[ "PREFIX" := "six"; "COMPONENT" := "sys_menu" ]} "data\icon.paa"
  = "\x\six\addons\sys_menu\data\icon.paa"
  /\ PATHTO {[ "PREFIX" := "six"; "COMPONENT" := "sys_menu" ]} "fDate"
     = "x\six\addons\sys_menu\fDate.sqf".
Proof.
  pose proof
    (path_macros_convention
       {[ "PREFIX" := "six"; "COMPONENT" := "sys_menu" ]} "six" "sys_menu")
    as H.
  split.
  - exact (proj1 (H "data\icon.paa" eq_refl eq_refl)).
  - exact (proj1 (proj2 (H "fDate" eq_refl eq_refl))).
Defined.

(** ** Names and paths of a component *)

Lemma append_cancel (a x y : string) : a +:+ x = a +:+ y -> x = y.
Proof.
  induction a as [|c a IH]; [done |].
  change (String c (a +:+ x) = String c (a +:+ y) -> x = y).
  intros [= H]. by apply IH.
Qed.

(** X13. The names a component makes all start with [ADDON], itself an
    addon-level name: [GVAR(n)] is [ADDON_n] and is [GVARMAIN(COMPONENT_n)],
    [FUNC(n)] is [GVAR(fnc_n)], [LSTR(n)] is [GVAR(STR_n)], [FUNCMAIN(n)] is
    [GVARMAIN(fnc_n)]; [ISNIL] and [ISNILMAIN] are [ISNILS] on the variable
    [GVAR] and [GVARMAIN] name. *)
Theorem component_names_share_one_name_space
    (d : gmap string string) (n x : string) :
  GVAR d n = ADDON d +:+ "_" +:+ n
  /\ GVAR d n = GVARMAIN d (COMPONENT d +:+ "_" +:+ n)
  /\ FUNC d n = GVAR d ("fnc_" +:+ n)
  /\ FUNC_INNER d (COMPONENT d) n = FUNC d n
  /\ LSTR d n = GVAR d ("STR_" +:+ n)
  /\ FUNCMAIN d n = GVARMAIN d ("fnc_" +:+ n)
  /\ ADDON d = GVARMAIN d (COMPONENT d)
  /\ MAIN_ADDON d = GVARMAIN d "main"
  /\ SETTINGS d = GVARMAIN d "settings"
  /\ ISNIL d n x = ISNILS (GVAR d n) x
  /\ ISNILMAIN d n x = ISNILS (GVARMAIN d n) x.
Proof.
  unfold GVAR, GVARS, GVARMAIN, GVARMAINS, FUNC, FUNC_INNER, FUNCMAIN, LSTR,
    ADDON, MAIN_ADDON, SETTINGS, ISNIL, ISNILMAIN, ISNILS2, ISNILS3, TRIPLES,
    DOUBLES.
  rewrite !append_assoc. repeat split.
Qed.

(** X14. Under given definitions each naming macro gives different names
    for different arguments. *)
Theorem component_names_do_not_collide
    (d : gmap string string) (n m : string) :
  GVAR d n = GVAR d m \/ FUNC d n = FUNC d m \/ GVARMAIN d n = GVARMAIN d m
  \/ FUNCMAIN d n = FUNCMAIN d m \/ LSTR d n = LSTR d m ->
  n = m.
Proof.
  unfold GVAR, GVARS, GVARMAIN, GVARMAINS, FUNC, FUNCMAIN, LSTR, ADDON,
    TRIPLES, DOUBLES.
  rewrite !append_assoc.
  intros [H | [H | [H | [H | H]]]];
    repeat (apply append_cancel in H); exact H.
Qed.

(** X15. With [PREFIX] and [COMPONENT] defined as identifiers, [ADDON],
    [MAIN_ADDON], [SETTINGS], [FUNCMAIN(n)], [FUNC_INNER(c,n)], [LSTR(n)]
    and the five [COMPONENT_x], with [MODULAR] defined or not, are
    identifiers. *)
Theorem more_names_are_identifiers
    (d : gmap string string) (p c n : string) :
  d !! "PREFIX" = Some p -> d !! "COMPONENT" = Some c ->
  is_identifier p = true -> is_identifier c = true ->
  is_identifier n = true ->
  is_identifier (ADDON d) = true
  /\ is_identifier (MAIN_ADDON d) = true
  /\ is_identifier (SETTINGS d) = true
  /\ is_identifier (FUNCMAIN d n) = true
  /\ is_identifier (FUNC_INNER d c n) = true
  /\ is_identifier (LSTR d n) = true
  /\ is_identifier (COMPONENT_T d) = true
  /\ is_identifier (COMPONENT_M d) = true
  /\ is_identifier (COMPONENT_S d) = true
  /\ is_identifier (COMPONENT_C d) = true
  /\ is_identifier (COMPONENT_F d) = true.
Proof.
  intros Hp Hc Ip Ic In.
  assert (Tc := identifier_is_tail _ Ic).
  assert (Tn := identifier_is_tail _ In).
  assert (Glue : forall a b, identifier_tail a = true ->
            identifier_tail b = true ->
            identifier_tail (a +:+ "_" +:+ b) = true).
  { intros a b Ha Hb. apply identifier_tail_append; [done |].
    by apply (identifier_tail_append "_"). }
  assert (Paste : forall a b, is_identifier a = true ->
            identifier_tail b = true ->
            is_identifier (a +:+ "_" +:+ b) = true).
  { intros a b Ha Hb. apply identifier_append; [done |].
    by apply (identifier_tail_append "_"). }
  unfold LSTR, FUNC_INNER, FUNCMAIN, SETTINGS, MAIN_ADDON, ADDON,
    COMPONENT_F, COMPONENT_T, COMPONENT_M, COMPONENT_S, COMPONENT_C,
    TRIPLES, DOUBLES, PREFIX, COMPONENT.
  rewrite (object_like_defined _ _ _ Hp), (object_like_defined _ _ _ Hc).
  rewrite !append_assoc.
  repeat split; try (destruct (MODULAR d)); try done;
    repeat first [ apply Paste | apply Glue ]; done.
Qed.

(** X16. [PATHTO(s)] is [PATHTO_F(s)], the path [PATHTO_R(s)] with
    [.sqf]; [COMPILE_FILE(s)] compiles the file at [PATHTO(s)]; [PREP(f)]
    assigns to [FUNC(f)], and [PREPMAIN(f)] to [FUNCMAIN(f)], what
    [COMPILE_FILE(fnc_f)] compiles, with [MODULAR] defined or not; when it
    is not, the four typed paths are [PATHTOF(s)]. *)
Theorem compiled_files_follow_the_paths
    (d : gmap string string) (s f : string) :
  PATHTO_F d s = PATHTO d s
  /\ PATHTO d s = PATHTO_R d s +:+ ".sqf"
  /\ PATHTO_C d s = "\" +:+ PATHTO_R d s
  /\ COMPILE_FILE d s
     = "compile preProcessFileLineNumbers '" +:+ PATHTO d s +:+ "'"
  /\ PREP d f = FUNC d f +:+ " = " +:+ COMPILE_FILE d ("fnc_" +:+ f)
  /\ PREPMAIN d f
     = FUNCMAIN d f +:+ " = { " +:+ FUNCMAIN d f +:+ " = "
       +:+ COMPILE_FILE d ("fnc_" +:+ f) +:+ "; if (isNil " +:+ quoted "_this"
       +:+ ") then { call " +:+ FUNCMAIN d f +:+ " } else { _this call "
       +:+ FUNCMAIN d f +:+ " } }"
  /\ (MODULAR d = false ->
      PATHTO_T d s = PATHTOF d s /\ PATHTO_M d s = PATHTOF d s
      /\ PATHTO_S d s = PATHTOF d s /\ PATHTO_C d s = PATHTOF d s).
Proof.
  unfold PATHTO_F, PATHTO, PATHTO_R, PATHTO_C, PATHTO_T, PATHTO_M, PATHTO_S,
    PATHTOF, COMPILE_FILE, PREP, PREPMAIN, PREP_SYS2, PREPMAIN_SYS,
    COMPILE_FILE_SYS, PATHTO_SYS, PATHTOF_SYS, PATHTOF2_SYS, FUNC, FUNCMAIN,
    COMPONENT_T, COMPONENT_M, COMPONENT_S, COMPONENT_F, COMPONENT_C, TRIPLES,
    DOUBLES.
  repeat split;
    try match goal with H : MODULAR d = false |- _ => rewrite H end;
    rewrite ?append_assoc; try reflexivity.
  all: destruct (MODULAR d); rewrite ?append_assoc; reflexivity.
Qed.

(** X17. The game logic of a component is the variable [ADDON]:
    [CREATELOGIC] and [CREATELOGICLOCAL] assign it, [CREATELOGICGLOBAL] is
    [CREATELOGIC] followed by the publication of that variable, [GETVAR]
    and [SETVAR] address it; the main logic is [PREFIX_MAINLOGIC] for
    [CREATELOGICMAIN], [SETVARMAIN] and [GETVARMAINS] alike. *)
Theorem game_logic_is_the_addon_variable (d : gmap string string) (v : string) :
  CREATELOGIC d
  = ADDON d +:+ " = ([sideLogic] call CBA_fnc_getSharedGroup) createUnit ["
    +:+ quoted "LOGIC" +:+ ", " +:+ logic_position +:+ "]"
  /\ CREATELOGICLOCAL d
     = ADDON d +:+ " = " +:+ quoted "LOGIC" +:+ " createVehicleLocal [0, 0, 0]"
  /\ CREATELOGICGLOBAL d
     = CREATELOGIC d +:+ "; publicVariable " +:+ quoted (ADDON d)
  /\ GETVAR d v = "(" +:+ ADDON d +:+ " getVariable " +:+ quoted v +:+ ")"
  /\ SETVAR d = ADDON d +:+ " setVariable"
  /\ CREATELOGICMAIN d
     = GVARMAIN d (MAINLOGIC d)
       +:+ " = ([sideLogic] call CBA_fnc_getSharedGroup) createUnit ["
       +:+ quoted "LOGIC" +:+ ", " +:+ logic_position +:+ "]"
  /\ SETVARMAIN d = GVARMAIN d (MAINLOGIC d) +:+ " setVariable"
  /\ GETVARMAINS d (PREFIX d) v
     = "(" +:+ GVARMAIN d (MAINLOGIC d) +:+ " getVariable " +:+ quoted v
       +:+ ")".
Proof.
  unfold CREATELOGIC, CREATELOGICLOCAL, CREATELOGICGLOBAL, CREATELOGICMAIN,
    GETVAR, SETVAR, SETVARMAIN, SETVARMAINS, GETVARMAINS, CREATELOGICS,
    CREATELOGICLOCALS, CREATELOGICGLOBALS, GETVARS, SETVARS, GVARMAIN,
    GVARMAINS, ADDON, QUOTE, DOUBLES.
  rewrite !append_assoc. repeat split.
Qed.

Lemma debug_modes_cases (d : gmap string string) :
  debug_modes d
  = if defined "DEBUG_MODE_FULL" d
    then <["DEBUG_MODE_MINIMAL" := ""]> (<["DEBUG_MODE_NORMAL" := ""]> d)
    else if defined "DEBUG_MODE_NORMAL" d
         then <["DEBUG_MODE_MINIMAL" := ""]> d
         else if defined "DEBUG_MODE_MINIMAL" d then d
              else <["DEBUG_MODE_MINIMAL" := ""]>
                     (<["DEBUG_MODE_NORMAL" := ""]> d).
Proof.
  unfold debug_modes, default_debug_mode, normal_enables_minimal,
    full_enables_normal.
  destruct (defined "DEBUG_MODE_FULL" d) eqn:Hf.
  - rewrite defined_define_eq, defined_define_eq. reflexivity.
  - destruct (defined "DEBUG_MODE_NORMAL" d) eqn:Hn.
    + by rewrite defined_define_eq.
    + by destruct (defined "DEBUG_MODE_MINIMAL" d).
Qed.

(** X18. The conditional sections of lines 118-132 define nothing but
    [DEBUG_MODE_NORMAL] and [DEBUG_MODE_MINIMAL], leave every name that is
    defined defined, and change nothing when read a second time. *)
Theorem debug_levels_are_only_added (d : gmap string string) :
  (forall name, name <> "DEBUG_MODE_NORMAL" -> name <> "DEBUG_MODE_MINIMAL" ->
     debug_modes d !! name = d !! name)
  /\ (forall name, defined name d = true ->
        defined name (debug_modes d) = true)
  /\ debug_modes (debug_modes d) = debug_modes d.
Proof.
  rewrite debug_modes_cases.
  split; [| split].
  - intros name Hn Hm.
    repeat case_match; rewrite ?lookup_insert_ne by done; done.
  - intros name. unfold defined. intros H.
    repeat case_match; try done;
      repeat match goal with
      | H : <[?k := _]> _ !! name = None |- _ =>
          apply lookup_insert_None in H as [H _]
      end; congruence.
  - rewrite debug_modes_cases. unfold defined.
    destruct (d !! "DEBUG_MODE_FULL") eqn:Hf;
      [| destruct (d !! "DEBUG_MODE_NORMAL") eqn:Hn;
         [| destruct (d !! "DEBUG_MODE_MINIMAL") eqn:Hm]];
      rewrite ?lookup_insert_eq, ?lookup_insert_ne, ?Hf, ?Hn, ?Hm by done;
      rewrite ?lookup_insert_eq, ?lookup_insert_ne, ?Hf, ?Hn, ?Hm by done;
      try reflexivity.
    + rewrite (insert_insert_ne _ "DEBUG_MODE_NORMAL" "DEBUG_MODE_MINIMAL")
        by done.
      by rewrite !insert_insert_eq.
    + by rewrite insert_insert_eq.
    + by rewrite insert_insert_eq.
Qed.

(** ** Expansion as a function of the definitions and the arguments *)

Section Purity.

Variables d1 d2 : gmap string string.
Hypothesis same : Header.agree d1 d2.


Lemma same_object_like name :
  name ∈ Header.configuration -> object_like name d1 = object_like name d2.
Proof. intros H. unfold object_like. by rewrite (same name H). Qed.

Lemma same_defined name :
  name ∈ Header.configuration -> defined name d1 = defined name d2.
Proof. intros H. unfold defined. by rewrite (same name H). Qed.

Lemma same_ifndef_define name body1 body2 :
  name ∈ Header.configuration -> body1 = body2 ->
  ifndef_define name body1 d1 = ifndef_define name body2 d2.
Proof. intros H ->. unfold ifndef_define. by rewrite (same name H). Qed.

Lemma same_debug_modes name :
  name ∈ Header.configuration ->
  debug_modes d1 !! name = debug_modes d2 !! name.
Proof.
  intros H.
  unfold debug_modes, default_debug_mode, normal_enables_minimal,
    full_enables_normal, define.
  rewrite <- (same_defined "DEBUG_MODE_FULL") by (unfold Header.configuration; repeat constructor).
  destruct (defined "DEBUG_MODE_FULL" d1).
  - unfold defined. rewrite !lookup_insert_eq.
    destruct (decide (name = "DEBUG_MODE_MINIMAL")) as [-> | Hm];
      [by rewrite !lookup_insert_eq |].
    rewrite !(lookup_insert_ne _ "DEBUG_MODE_MINIMAL") by done.
    destruct (decide (name = "DEBUG_MODE_NORMAL")) as [-> | Hn];
      [by rewrite !lookup_insert_eq |].
    rewrite !(lookup_insert_ne _ "DEBUG_MODE_NORMAL") by done.
    exact (same name H).
  - rewrite <- (same_defined "DEBUG_MODE_NORMAL") by (unfold Header.configuration; repeat constructor).
    destruct (defined "DEBUG_MODE_NORMAL" d1).
    + unfold defined. rewrite !lookup_insert_eq.
      destruct (decide (name = "DEBUG_MODE_MINIMAL")) as [-> | Hm];
        [by rewrite !lookup_insert_eq |].
      rewrite !(lookup_insert_ne _ "DEBUG_MODE_MINIMAL") by done.
      exact (same name H).
    + rewrite <- (same_defined "DEBUG_MODE_MINIMAL") by (unfold Header.configuration; repeat constructor).
      destruct (defined "DEBUG_MODE_MINIMAL" d1); [exact (same name H) |].
      destruct (decide (name = "DEBUG_MODE_MINIMAL")) as [-> | Hm];
        [by rewrite !lookup_insert_eq |].
      rewrite !(lookup_insert_ne _ "DEBUG_MODE_MINIMAL") by done.
      destruct (decide (name = "DEBUG_MODE_NORMAL")) as [-> | Hn];
        [by rewrite !lookup_insert_eq |].
      rewrite !(lookup_insert_ne _ "DEBUG_MODE_NORMAL") by done.
      exact (same name H).
Qed.

Ltac configured := unfold Header.configuration; repeat constructor.

Lemma same_PREFIX : PREFIX d1 = PREFIX d2.
Proof. apply same_object_like. configured. Qed.

Lemma same_COMPONENT : COMPONENT d1 = COMPONENT d2.
Proof. apply same_object_like. configured. Qed.

Lemma same_MAINPREFIX : MAINPREFIX d1 = MAINPREFIX d2.
Proof. apply same_ifndef_define; [configured | done]. Qed.

Lemma same_SUBPREFIX : SUBPREFIX d1 = SUBPREFIX d2.
Proof. apply same_ifndef_define; [configured | done]. Qed.

Lemma same_MAINLOGIC : MAINLOGIC d1 = MAINLOGIC d2.
Proof. apply same_ifndef_define; [configured | done]. Qed.

Lemma same_VERSION : VERSION d1 = VERSION d2.
Proof. apply same_ifndef_define; [configured | done]. Qed.

Lemma same_VERSION_AR : VERSION_AR d1 = VERSION_AR d2.
Proof. apply same_ifndef_define; [configured | apply same_VERSION]. Qed.

Lemma same_VERSION_CONFIG : VERSION_CONFIG d1 = VERSION_CONFIG d2.
Proof.
  apply same_ifndef_define; [configured |].
  by rewrite same_VERSION, same_VERSION_AR.
Qed.

Lemma same_DEBUG_SETTINGS : DEBUG_SETTINGS d1 = DEBUG_SETTINGS d2.
Proof. apply same_ifndef_define; [configured | done]. Qed.

Lemma same_DEBUG_MODE_FULL : DEBUG_MODE_FULL d1 = DEBUG_MODE_FULL d2.
Proof.
  unfold DEBUG_MODE_FULL, defined. rewrite same_debug_modes; [done |].
  configured.
Qed.

Lemma same_DEBUG_MODE_NORMAL : DEBUG_MODE_NORMAL d1 = DEBUG_MODE_NORMAL d2.
Proof.
  unfold DEBUG_MODE_NORMAL, defined. rewrite same_debug_modes; [done |].
  configured.
Qed.

Lemma same_MODULAR : MODULAR d1 = MODULAR d2.
Proof. apply same_defined. configured. Qed.

Lemma same_LINE : Header.same_place d1 d2 -> __LINE__ d1 = __LINE__ d2.
Proof. intros [_ Hl]. unfold __LINE__, object_like. by rewrite Hl. Qed.

Lemma same_THIS_FILE_ :
  Header.same_place d1 d2 -> THIS_FILE_ d1 = THIS_FILE_ d2.
Proof.
  intros [Hf _]. unfold THIS_FILE_, THIS_FILE, __FILE__.
  rewrite (same_defined "THIS_FILE") by configured.
  rewrite (same_object_like "THIS_FILE") by configured.
  unfold object_like. by rewrite Hf.
Qed.

(** Every macro of the header reads the definitions through the names
    above only, and the place only where it reports it. *)
Lemma same_expansion m args :
  (Header.reports_place m = true -> Header.same_place d1 d2) ->
  Header.expand d1 m args = Header.expand d2 m args.
Proof.
  intros Hplace.
  destruct m; cbn [Header.expand Header.reports_place] in *;
    unfold Header.conditional;
    try (destruct args; [apply same_debug_modes; configured | done]; fail);
    cbv beta delta
     [Text.LOG Text.WARNING Text.ERROR Text.ERROR_WITH_TITLE Text.TRACE_1
      Text.TRACE_2 Text.TRACE_3 Text.TRACE_4 Text.TRACE_5 Text.TRACE_6
      Text.TRACE_7 Text.TRACE_8 Text.COMPONENT_T Text.COMPONENT_M
      Text.COMPONENT_S Text.COMPONENT_C Text.COMPONENT_F Text.ISNIL
      Text.ISNILMAIN Text.CREATELOGICGLOBALTESTS Text.GETVARMAINS
      Text.PATHTO_SYS Text.PATHTOF_SYS Text.PATHTOF2_SYS Text.PATHTO_R
      Text.PATHTO_T Text.PATHTO_M Text.PATHTO_S Text.PATHTO_C Text.PATHTO_F
      Text.COMPILE_FILE_SYS Text.SETVARMAINS Text.PREPMAIN_SYS
      Text.PREP_SYS Text.PREP_SYS2 Text.ADDON Text.MAIN_ADDON Text.LSTR
      Text.MSG_INIT Text.CFGSETTINGS Text.PATHTO Text.PATHTOF
      Text.COMPILE_FILE Text.VERSIONING Text.GVAR Text.GVARMAIN
      Text.SETTINGS Text.CREATELOGIC Text.CREATELOGICGLOBAL
      Text.CREATELOGICGLOBALTEST Text.CREATELOGICLOCAL Text.CREATELOGICMAIN
      Text.GETVAR Text.SETVAR Text.SETVARMAIN Text.PREP Text.PREPMAIN
      Text.FUNC Text.FUNCMAIN Text.FUNC_INNER Text.SCRIPT Text.PARAMS_1
      Text.PARAMS_2 Text.PARAMS_3 Text.PARAMS_4 Text.PARAMS_5 Text.PARAMS_6
      Text.PARAMS_7 Text.PARAMS_8 Text.DEFAULT_PARAM Text.ASSERTION_ERROR
      Text.ASSERT_TRUE Text.ASSERT_FALSE Text.ASSERT_OP Text.ASSERT_DEFINED
      Text.DEPRECATE_SYS Text.DEPRECATE Text.OBSOLETE_SYS Text.OBSOLETE];
    try (specialize (Hplace eq_refl);
         rewrite ?(same_LINE Hplace), ?(same_THIS_FILE_ Hplace));
    rewrite ?same_PREFIX, ?same_COMPONENT, ?same_MAINPREFIX,
      ?same_SUBPREFIX, ?same_MAINLOGIC, ?same_VERSION, ?same_VERSION_AR,
      ?same_VERSION_CONFIG, ?same_DEBUG_SETTINGS, ?same_DEBUG_MODE_FULL,
      ?same_DEBUG_MODE_NORMAL, ?same_MODULAR;
    reflexivity.
Qed.

End Purity.

(** An invocation leaves the definitions as they are and adds its
    replacement text to the output. *)
Lemma invoke_adds_replacement m args p :
  Header.invoke m args p
  = (fun replacement =>
       Header.Preprocessor (Header.definitions p)
         (Header.output p ++ [replacement]))
    <$> Header.expand (Header.definitions p) m args.
Proof. unfold Header.invoke. by destruct (Header.expand _ m args). Qed.

Lemma run_keeps_definitions invocations p p' :
  Header.run invocations p = Some p' ->
  Header.definitions p' = Header.definitions p.
Proof.
  revert p. induction invocations as [|[m args] rest IH]; intros p H.
  - by injection H as <-.
  - cbn [Header.run] in H. rewrite invoke_adds_replacement in H.
    destruct (Header.expand (Header.definitions p) m args); [| done].
    apply IH in H. exact H.
Qed.

Ltac with_parameters n :=
  exists n; intros args Hl;
  repeat (destruct args as [|? args]; try discriminate Hl);
  cbn [Header.expand Header.on0 Header.on1 Header.on2 Header.on3
       Header.on4 Header.on5 Header.on6 Header.on7 Header.on8 Header.on9
       Header.conditional];
  solve [eauto].

(** With as many arguments as the macro has parameters there is a
    replacement text, [ARG_7] and [ARG_8] (see C9) and the conditionally
    defined [DEBUG_MODE_NORMAL] apart. *)
Lemma expansion_exists d m :
  m <> Header.ARG_7 -> m <> Header.ARG_8 -> m <> Header.DEBUG_MODE_NORMAL ->
  exists n, forall args,
    length args = n -> is_Some (Header.expand d m args).
Proof.
  intros H7 H8 Hn.
  assert (is_Some (debug_modes d !! "DEBUG_MODE_MINIMAL")) as Hm.
  { pose proof (debug_minimal_spec d) as H.
    unfold DEBUG_MODE_MINIMAL, defined in H.
    by destruct (debug_modes d !! "DEBUG_MODE_MINIMAL"). }
  destruct m; try done;
    first [with_parameters 0 | with_parameters 1 | with_parameters 2
          | with_parameters 3 | with_parameters 4 | with_parameters 5
          | with_parameters 6 | with_parameters 7 | with_parameters 8
          | with_parameters 9].
Qed.

(** A run of invocations leaves the definitions as they are and puts out
    the text each invocation has on its own under them. *)
Lemma run_puts_out_expansions d invocations out :
  Header.run invocations (Header.Preprocessor d out)
  = (fun texts => Header.Preprocessor d (out ++ texts))
    <$> Header.expansions d invocations.
Proof.
  revert out. induction invocations as [|[m args] rest IH]; intros out.
  - cbn. by rewrite app_nil_r.
  - cbn [Header.run]. rewrite invoke_adds_replacement.
    unfold Header.expansions in *. cbn [mapM fst snd Header.definitions].
    destruct (Header.expand d m args) as [t|]; [| done].
    cbn. rewrite IH.
    destruct (mapM _ rest) as [ts|]; [| done].
    cbn. by rewrite <- app_assoc.
Qed.



(** ** Scopes a call does not see *)

Section ScopeFacts.

Variable engine_format : list Sqf.value -> string.
Variable host :
  string -> Sqf.value -> Sqf.world -> Sqf.result (Sqf.value * Sqf.world).
Variable extra : list (gmap string Sqf.value).
Variable depth : nat.

Import Sqf.

#[local] Abbreviation eval := (Sqf.eval engine_format host).
#[local] Abbreviation exec := (Sqf.exec engine_format host).
#[local] Abbreviation unary := (Sqf.unary engine_format host).
#[local] Abbreviation binary := (Sqf.binary host).
#[local] Abbreviation apply := (Sqf.apply host).
#[local] Abbreviation covers := (Spec.covers extra).
#[local] Abbreviation under := (Spec.under extra depth).
#[local] Abbreviation under_intro := (Spec.under_intro extra depth).
#[local] Abbreviation same_but_scopes := (Spec.same_but_scopes extra depth).
#[local] Abbreviation rel := (Spec.rel extra depth).
#[local] Abbreviation simulates := (Spec.simulates extra depth).

Lemma not_declared_in_extra F x :
  covers F -> F !! x = None -> forall e, e ∈ extra -> e !! x = None.
Proof.
  intros HF Hx e He. destruct (e !! x) eqn:Hex; [| done].
  destruct (HF e x He) as [w Hw]; [eauto | congruence].
Qed.

Lemma read_local_skip (Es : list (gmap string value)) x low :
  (forall e, e ∈ Es -> e !! x = None) ->
  read_local x (Es ++ low) = read_local x low.
Proof.
  induction Es as [|e Es IH]; [done |]. intros H. simpl.
  rewrite (H e) by by left. apply IH. intros e' He'. apply H. by right.
Qed.

Lemma declared_skip (Es : list (gmap string value)) x low :
  (forall e, e ∈ Es -> e !! x = None) ->
  declared x (Es ++ low) = declared x low.
Proof.
  induction Es as [|e Es IH]; [done |]. intros H. unfold declared in *. simpl.
  rewrite (H e) by by left. rewrite bool_decide_eq_false_2 by by intros [? ?].
  apply IH. intros e' He'. apply H. by right.
Qed.

Lemma write_declared_skip (Es : list (gmap string value)) x v low :
  (forall e, e ∈ Es -> e !! x = None) ->
  write_declared x v (Es ++ low) = Es ++ write_declared x v low.
Proof.
  induction Es as [|e Es IH]; [done |]. intros H. simpl.
  rewrite (H e) by by left. f_equal. apply IH. intros e' He'. apply H. by right.
Qed.

Lemma write_declared_length x v fr :
  length (write_declared x v fr) = length fr.
Proof.
  induction fr as [|f fr IH]; [done |]. simpl.
  destruct (f !! x); simpl; by rewrite ?IH.
Qed.

Lemma covers_insert F x v : covers F -> covers (<[x := v]> F).
Proof.
  intros H e y He Hy. destruct (decide (x = y)) as [-> |Hne].
  - rewrite lookup_insert_eq. eauto.
  - rewrite lookup_insert_ne by done. eauto.
Qed.

Lemma read_local_under fr fre x :
  under fr fre -> read_local x fre = read_local x fr.
Proof.
  intros [up F low Hm HF]. induction up as [|u up IH]; simpl.
  - destruct (F !! x) eqn:HFx; [done |].
    apply read_local_skip. by apply not_declared_in_extra with F.
  - by rewrite IH.
Qed.

Lemma declared_under fr fre x :
  under fr fre -> declared x fre = declared x fr.
Proof.
  intros [up F low Hm HF]. unfold declared.
  induction up as [|u up IH]; simpl.
  - destruct (F !! x) eqn:HFx.
    + by rewrite !bool_decide_eq_true_2 by eauto.
    + rewrite bool_decide_eq_false_2 by by intros [? ?]. simpl.
      apply (declared_skip extra x low). by apply not_declared_in_extra with F.
  - by rewrite IH.
Qed.

Lemma write_declared_under fr fre x v :
  under fr fre -> under (write_declared x v fr) (write_declared x v fre).
Proof.
  intros [up F low Hm HF]. induction up as [|u up IH]; simpl.
  - destruct (F !! x) eqn:HFx.
    + apply (under_intro [] (<[x := v]> F) low); [done |].
      by apply covers_insert.
    + rewrite write_declared_skip by by apply not_declared_in_extra with F.
      apply (under_intro [] F (write_declared x v low)); [| done].
      by rewrite write_declared_length.
  - destruct (u !! x).
    + apply (under_intro (<[x := v]> u :: up) F low); done.
    + inversion IH as [up' F' low' Hm' HF' Heq1 Heq2].
      rewrite !app_comm_cons.
      apply (under_intro (u :: up') F' low'); done.
Qed.

Lemma under_length fr fre : under fr fre -> depth < length fr.
Proof. intros [up F low Hm HF]. rewrite length_app. simpl. lia. Qed.

Lemma under_head_insert fr fre x v f0 fe0 :
  under (f0 :: fr) (fe0 :: fre) ->
  under (<[x := v]> f0 :: fr) (<[x := v]> fe0 :: fre).
Proof.
  intros H. inversion H as [up F low Hm HF Heq1 Heq2].
  destruct up as [|u up]; simpl in *;
    injection Heq1 as ? ?; injection Heq2 as ? ?; subst f0 fr fe0 fre.
  - apply (under_intro [] _ _); [done | by apply covers_insert].
  - apply (under_intro (<[x := v]> _ :: _) _ _); done.
Qed.

Lemma under_cons fr fre : under fr fre -> exists f0 fr' fe0 fre',
  fr = f0 :: fr' /\ fre = fe0 :: fre'.
Proof. intros [[|u up] F low Hm HF]; simpl; eauto 10. Qed.

Lemma write_local_under fr fre x v :
  under fr fre -> under (write_local x v fr) (write_local x v fre).
Proof.
  intros H. unfold write_local. rewrite (declared_under _ _ _ H).
  destruct (declared x fr); [by apply write_declared_under |].
  destruct (under_cons _ _ H) as (f0 & fr' & fe0 & fre' & -> & ->).
  by apply under_head_insert.
Qed.

Lemma write_local_length fr x v :
  fr <> [] -> length (write_local x v fr) = length fr.
Proof.
  intros H. unfold write_local. destruct (declared x fr).
  - apply write_declared_length.
  - by destruct fr.
Qed.

Lemma under_push f fr fre : under fr fre -> under (f :: fr) (f :: fre).
Proof.
  intros [up F low Hm HF]. rewrite !app_comm_cons.
  by apply (under_intro (f :: up) F low).
Qed.

Lemma under_tail fr fre :
  under fr fre -> depth + 2 <= length fr -> under (tail fr) (tail fre).
Proof.
  intros [[|u up] F low Hm HF]; simpl; [lia |]. intros _.
  by apply under_intro.
Qed.

(** The same for states. *)
Lemma read_same s se x : same_but_scopes s se -> read x se = read x s.
Proof.
  intros (Hg & Hr & Hf). unfold read. rewrite Hg.
  destruct (is_local x); [| done]. by apply read_local_under.
Qed.

Lemma write_same s se x v :
  same_but_scopes s se -> same_but_scopes (write x v s) (write x v se).
Proof.
  intros (Hg & Hr & Hf). unfold write. destruct (is_local x); simpl.
  - repeat split; try done. by apply write_local_under.
  - repeat split; try done. by rewrite Hg.
Qed.

Lemma write_frames_length s se x v :
  same_but_scopes s se -> length (frames (write x v s)) = length (frames s).
Proof.
  intros (Hg & Hr & Hf). unfold write. destruct (is_local x); simpl; [| done].
  apply write_local_length. apply under_length in Hf.
  destruct (frames s); simpl in *; [lia | done].
Qed.

Lemma declare_same s se x :
  same_but_scopes s se -> same_but_scopes (declare x s) (declare x se)
  /\ length (frames (declare x s)) = length (frames s).
Proof.
  intros (Hg & Hr & Hf). unfold declare.
  destruct (under_cons _ _ Hf) as (f0 & fr' & fe0 & fre' & H1 & H2).
  rewrite H1, H2 in *. simpl. repeat split; try done.
  by apply under_head_insert.
Qed.

Lemma push_same s se f :
  same_but_scopes s se -> same_but_scopes (push f s) (push f se).
Proof.
  intros (Hg & Hr & Hf). repeat split; try done. simpl. by apply under_push.
Qed.

Lemma pop_same s se :
  same_but_scopes s se -> depth + 2 <= length (frames s) ->
  same_but_scopes (pop s) (pop se).
Proof.
  intros (Hg & Hr & Hf) Hl. repeat split; try done. simpl. by apply under_tail.
Qed.

Lemma with_world_same s se w :
  same_but_scopes s se -> same_but_scopes (with_world w s) (with_world w se).
Proof. intros (Hg & Hr & Hf). done. Qed.

Lemma world_same s se : same_but_scopes s se -> world_of se = world_of s.
Proof. intros (Hg & Hr & Hf). unfold world_of. by rewrite Hg, Hr. Qed.

Lemma bind_ok {A B} (a : A) (f : A -> result B) : Ok a ≫= f = f a.
Proof. reflexivity. Qed.
Lemma bind_err {A B} x (f : A -> result B) : Err x ≫= f = Err x.
Proof. reflexivity. Qed.
Lemma bind_out {A B} (f : A -> result B) : OutOfFuel ≫= f = OutOfFuel.
Proof. reflexivity. Qed.

Lemma rel_ok {A} s se (v : A) :
  same_but_scopes s se -> rel s (Ok (v, s)) (Ok (v, se)).
Proof. intros H. exists se. done. Qed.

Lemma rel_err {A} s x : rel s (Err x : result (A * state)) (Err x).
Proof. done. Qed.

Lemma rel_bind {A B} s (r re : result (A * state))
    (k : A * state -> result (B * state)) :
  rel s r re ->
  (forall v s' se', same_but_scopes s' se' ->
     length (frames s') = length (frames s) ->
     rel s' (k (v, s')) (k (v, se'))) ->
  rel s (r ≫= k) (re ≫= k).
Proof.
  intros Hr Hk. destruct r as [[v s']| |]; simpl in Hr.
  - destruct Hr as (se' & -> & Hs & Hl). rewrite !bind_ok.
    specialize (Hk v s' se' Hs Hl).
    destruct (k (v, s')) as [[w s'']| |]; simpl in *; try done.
    destruct Hk as (se'' & -> & Hs' & Hl'). exists se''.
    split; [done |]. split; [done |]. by rewrite Hl'.
  - by rewrite Hr.
  - by rewrite Hr.
Qed.

Lemma in_scope_sim run f body s se :
  simulates run -> same_but_scopes s se ->
  rel s (in_scope run f body s) (in_scope run f body se).
Proof.
  intros Hrun Hs. unfold in_scope.
  pose proof (Hrun body _ _ (push_same _ _ f Hs)) as H.
  destruct (run body (push f s)) as [[v s']| |]; simpl in H.
  - destruct H as (se' & -> & Hs' & Hl). rewrite !bind_ok.
    assert (depth < length (frames s)) by (destruct Hs as (_ & _ & Hu); by apply under_length in Hu).
    simpl in Hl.
    exists (pop se'). split; [done |]. split.
    + apply pop_same; [done | lia].
    + simpl. destruct (frames s'); simpl in *; lia.
  - by rewrite H.
  - by rewrite H.
Qed.

Lemma apply_sim run callee arg s se :
  simulates run -> same_but_scopes s se ->
  rel s (apply run callee arg s) (apply run callee arg se).
Proof.
  intros Hrun Hs. destruct callee; try done; simpl.
  - by apply in_scope_sim.
  - rewrite (world_same _ _ Hs).
    destruct (host f arg (world_of s)) as [[v w]| |]; try done.
    rewrite !bind_ok. exists (with_world w se).
    repeat split; try done. by destruct Hs as (_ & _ & ?).
Qed.

Lemma declare_all_same xs s se :
  same_but_scopes s se ->
  same_but_scopes (foldl (fun s x => declare x s) s xs)
    (foldl (fun s x => declare x s) se xs)
  /\ length (frames (foldl (fun s x => declare x s) s xs))
     = length (frames s).
Proof.
  revert s se. induction xs as [|x xs IH]; intros s se Hs; [done |]. simpl.
  destruct (declare_same _ _ x Hs) as [Hd Hl].
  destruct (IH _ _ Hd) as [Hd' Hl']. split; [done | congruence].
Qed.

Lemma rel_value {A} s se (r : result A) :
  same_but_scopes s se ->
  rel s (v ← r; Ok (v, s)) (v ← r; Ok (v, se)).
Proof. intros Hs. destruct r; try done. by apply rel_ok. Qed.

#[local] Arguments Sqf.apply : simpl never.
#[local] Arguments Sqf.in_scope : simpl never.
#[local] Arguments Spec.rel : simpl never.

Lemma unary_sim run op v s se :
  simulates run -> same_but_scopes s se ->
  rel s (unary run op v s) (unary run op v se).
Proof.
  intros Hrun Hs.
  destruct op, v; simpl; try done; try (by apply rel_ok);
    try (by apply apply_sim).
  - rewrite (read_same _ _ _ Hs). by apply rel_ok.
  - apply rel_bind; [by apply in_scope_sim |].
    intros r s' se' Hs' _. by apply rel_ok.
  - match goal with |- context [declare ?x s] =>
      destruct (declare_same _ _ x Hs) as [Hd Hl]; by exists (declare x se) end.
  - destruct (names_of l) as [xs|]; [| done].
    destruct (declare_all_same xs _ _ Hs) as [Hd Hl]. eexists. eauto.
Qed.

Lemma binary_sim run op a b s se :
  simulates run -> same_but_scopes s se ->
  rel s (binary run op a b s) (binary run op a b se).
Proof.
  intros Hrun Hs.
  destruct op, a, b; simpl; try done; try (by apply rel_ok);
    try (by apply apply_sim); try (by apply rel_value);
    try (by apply in_scope_sim).
  - repeat (case_match; try done); by apply in_scope_sim.
  - destruct b0; [by apply in_scope_sim | by apply rel_ok].
Qed.

Lemma eval_all_sim (ev : expr -> state -> result (value * state)) es s se :
  (forall e s se, same_but_scopes s se -> rel s (ev e s) (ev e se)) ->
  same_but_scopes s se ->
  rel s (eval_all ev es s) (eval_all ev es se).
Proof.
  intros Hev. revert s se. induction es as [|e es IH]; intros s se Hs.
  - by apply rel_ok.
  - simpl. apply rel_bind; [by apply Hev |].
    intros v s1 se1 Hs1 _. apply rel_bind; [by apply IH |].
    intros vs s2 se2 Hs2 _. by apply rel_ok.
Qed.

(** Evaluation does not see the scopes put under. *)
Lemma eval_exec_sim n :
  (forall e s se, same_but_scopes s se -> rel s (eval n e s) (eval n e se))
  /\ simulates (exec n).
Proof.
  induction n as [|n [IHe IHc]]; [by split |]. split.
  - intros e s se Hs. destruct e; simpl; try (by apply rel_ok).
    + rewrite (read_same _ _ _ Hs). by apply rel_ok.
    + apply rel_bind; [by apply eval_all_sim |].
      intros vs s' se' Hs' _. by apply rel_ok.
    + by apply IHe.
    + apply rel_bind; [by apply IHe |].
      intros v s' se' Hs' _. by apply unary_sim.
    + apply rel_bind; [by apply IHe |].
      intros a s1 se1 Hs1 _. apply rel_bind; [by apply IHe |].
      intros b s2 se2 Hs2 _. by apply binary_sim.
  - intros c s se Hs. destruct c as [|[x e|e] c]; simpl.
    + by apply rel_ok.
    + apply rel_bind; [by apply IHe |].
      intros v s' se' Hs' _.
      pose proof (IHc c _ _ (write_same _ _ x v Hs')) as H.
      pose proof (write_frames_length _ _ x v Hs') as Hl.
      unfold rel in *. destruct (exec n c (write x v s')) as [[w s'']| |]; try done.
      destruct H as (se'' & -> & ? & Hl'). exists se''.
      split; [done |]. split; [done |]. by rewrite Hl'.
    + destruct c as [|c0 c]; [by apply IHe |].
      apply rel_bind; [by apply IHe |].
      intros v s' se' Hs' _. by apply IHc.
Qed.
End ScopeFacts.

(** ** Scripts *)

Lemma index_of_nat (i : nat) :
  Sqf.index_of (inject_Z (Z.of_nat i)) = Z.of_nat i.
Proof.
  unfold Sqf.index_of, Qfloor, Qplus, inject_Z. simpl.
  change (Z.pos (1 * 2)) with 2%Z. change (1 * 1)%Z with 1%Z.
  symmetry. apply (Z.div_unique _ _ _ 1); lia.
Qed.

Lemma select_in_bounds (l : list Sqf.value) (i : nat) (v : Sqf.value) :
  l !! i = Some v -> Sqf.select l (inject_Z (Z.of_nat i)) = Sqf.Ok v.
Proof.
  intros H. unfold Sqf.select. rewrite index_of_nat.
  destruct (Z.ltb_spec (Z.of_nat i) 0); [lia |].
  by rewrite Nat2Z.id, H.
Qed.

Lemma select_first (l : list Sqf.value) :
  Sqf.select l 0 = Sqf.Ok (default Sqf.VNil (l !! 0%nat)).
Proof. by destruct l. Qed.

Lemma pop_push f s : Sqf.pop (Sqf.push f s) = s.
Proof. by destruct s. Qed.

Lemma read_push_empty x s : Sqf.read x (Sqf.push ∅ s) = Sqf.read x s.
Proof.
  unfold Sqf.read. destruct (Sqf.is_local x); [| done].
  simpl. by rewrite lookup_empty.
Qed.

Lemma nested_select_cons_inv v i path r :
  nested_select v (i :: path) = Some r ->
  exists l v',
    v = Sqf.VArray l /\ l !! i = Some v' /\ nested_select v' path = Some r.
Proof.
  simpl. destruct v as [| | | |l| | | |]; try done.
  destruct (l !! i) as [v'|] eqn:Hl; [| done]. simpl. eauto.
Qed.

Section Scripts.

Variable engine_format : list Sqf.value -> string.
Variable others :
  string -> Sqf.value -> Sqf.world -> Sqf.result (Sqf.value * Sqf.world).

Import Sqf.

#[local] Abbreviation host := (host_with_log others).
#[local] Abbreviation eval := (Sqf.eval engine_format host).
#[local] Abbreviation exec := (Sqf.exec engine_format host).
#[local] Abbreviation unary := (Sqf.unary engine_format host).
#[local] Abbreviation binary := (Sqf.binary host).
#[local] Abbreviation apply := (Sqf.apply host).

(** *** The equations of the evaluator *)

Lemma eval_num n q s : eval (S n) (ENum q) s = Ok (VScalar q, s).
Proof. reflexivity. Qed.
Lemma eval_str n t s : eval (S n) (EStr t) s = Ok (VString t, s).
Proof. reflexivity. Qed.
Lemma eval_val n v s : eval (S n) (EVal v) s = Ok (v, s).
Proof. reflexivity. Qed.
Lemma eval_var n x s : eval (S n) (EVar x) s = Ok (read x s, s).
Proof. reflexivity. Qed.
Lemma eval_nular n c s : eval (S n) (ENular c) s = Ok (nular_value c, s).
Proof. reflexivity. Qed.
Lemma eval_arr n es s :
  eval (S n) (EArr es) s
  = '(vs, s') ← eval_all (eval n) es s; Ok (VArray vs, s').
Proof. reflexivity. Qed.
Lemma eval_code n body s : eval (S n) (ECode body) s = Ok (VCode body, s).
Proof. reflexivity. Qed.
Lemma eval_paren n e s : eval (S n) (EParen e) s = eval n e s.
Proof. reflexivity. Qed.
Lemma eval_un n op e s :
  eval (S n) (EUn op e) s = '(v, s') ← eval n e s; unary (exec n) op v s'.
Proof. reflexivity. Qed.
Lemma eval_bin n op l r s :
  eval (S n) (EBin op l r) s
  = '(a, s1) ← eval n l s; '(b, s2) ← eval n r s1; binary (exec n) op a b s2.
Proof. reflexivity. Qed.
Lemma exec_nil n s : exec (S n) [] s = Ok (VNil, s).
Proof. reflexivity. Qed.
Lemma exec_last n e s : exec (S n) [SExpr e] s = eval n e s.
Proof. reflexivity. Qed.
Lemma exec_expr n e c cs s :
  exec (S n) (SExpr e :: c :: cs) s
  = '(_, s') ← eval n e s; exec n (c :: cs) s'.
Proof. reflexivity. Qed.
Lemma exec_assign n x e c s :
  exec (S n) (SAssign x e :: c) s
  = '(v, s') ← eval n e s; exec n c (write x v s').
Proof. reflexivity. Qed.
Lemma eval_all_nil ev s : eval_all ev [] s = Ok ([], s).
Proof. reflexivity. Qed.
Lemma eval_all_cons ev e es s :
  eval_all ev (e :: es) s
  = '(v, s1) ← ev e s; '(vs, s2) ← eval_all ev es s1; Ok (v :: vs, s2).
Proof. reflexivity. Qed.
Lemma then_ok {A B} (a : A) (f : A -> result B) : Ok a ≫= f = f a.
Proof. reflexivity. Qed.

(** Evaluate what is written out: leaves first, then what waits on them. *)
Ltac ev :=
  repeat (progress
    (rewrite ?eval_paren, ?eval_num, ?eval_str, ?eval_val, ?eval_var,
       ?eval_nular, ?eval_code, ?eval_arr, ?eval_un, ?eval_bin,
       ?exec_expr, ?exec_assign, ?exec_last, ?exec_nil,
       ?eval_all_cons, ?eval_all_nil;
     rewrite ?then_ok; cbn beta iota)).

(** *** Type checks *)

Lemma eval_is_type n T e x s s' :
  eval n e s = Ok (x, s') -> x <> VNil ->
  eval (S (S (S (S (S n))))) (IS_type T e) s
  = Ok (VBool (string_eq (default "" (type_name x)) T), s').
Proof.
  intros He Hx. unfold IS_type. ev. rewrite He. ev.
  destruct x; try done.
Qed.

Lemma type_name_decided T x :
  T ∈ engine_types -> x <> VNil ->
  string_eq (default "" (type_name x)) T
  = bool_decide (type_name x = Some T).
Proof.
  intros HT Hx.
  destruct x as [| | | | | | | |h id]; try done; try destruct h;
    repeat (apply elem_of_cons in HT as [-> | HT]; [reflexivity |]);
    by apply elem_of_nil in HT.
Qed.

(** The type checks of lines 680-693 decide the type name, for every value
    there is. *)
Lemma type_checks_decide_type_name T x s k :
  T ∈ engine_types -> x <> VNil ->
  eval (6 + k) (IS_type T (EVal x)) s
  = Ok (VBool (bool_decide (type_name x = Some T)), s).
Proof.
  intros HT Hx. change (6 + k) with (S (S (S (S (S (S k)))))).
  erewrite eval_is_type; [| apply eval_val | done].
  by rewrite type_name_decided.
Qed.

(** C5: the operand of [if] in [IS_INTEGER] is a block, not a condition;
    [IS_INTEGER(x)] is a type error whatever [x] is, in particular for the
    whole number 3, for which the claim has [true]. *)
Theorem is_integer_hands_if_a_block x s k :
  eval (3 + k) (IS_INTEGER (EVal x)) s = Err (BadType "if")
  /\ eval (3 + k) (IS_INTEGER (ENum 3)) s = Err (BadType "if").
Proof. split; reflexivity. Qed.

(** *** Nested selection *)

(** One more selection on top of an expression that is worth an array. *)
Lemma eval_select_step n e s l i v :
  eval n e s = Ok (VArray l, s) -> l !! i = Some v ->
  eval (3 + n) (EParen (EBin Select (EParen e) (EParen (index i)))) s
  = Ok (v, s).
Proof.
  intros He Hl.
  destruct n as [|n]; [done |].
  change (3 + S n) with (S (S (S (S n)))).
  rewrite eval_paren, eval_bin, eval_paren, He. unfold index. ev.
  cbn [Sqf.binary]. by rewrite (select_in_bounds _ _ _ Hl).
Qed.

Ltac chain H :=
  repeat (let l := fresh "l" in let v := fresh "v" in let Hl := fresh "Hl" in
          apply nested_select_cons_inv in H as (l & v & -> & Hl & H));
  injection H as ->.

Ltac selections :=
  repeat (rewrite ?eval_paren; eapply eval_select_step; [| eassumption]);
  reflexivity.

(** [ARG_1] to [ARG_6] index step by step, whatever becomes of arguments
    in excess. *)
Lemma arg_1_to_6_select_in_turn p X i1 i2 i3 i4 i5 i6 r s k :
  (nested_select X [i1] = Some r ->
   exists e, ARG_1 p [EVal X; index i1] = Some e
             /\ eval (4 + k) e s = Ok (r, s))
  /\ (nested_select X [i1; i2] = Some r ->
      exists e, ARG_2 p [EVal X; index i1; index i2] = Some e
                /\ eval (8 + k) e s = Ok (r, s))
  /\ (nested_select X [i1; i2; i3] = Some r ->
      exists e, ARG_3 p [EVal X; index i1; index i2; index i3] = Some e
                /\ eval (12 + k) e s = Ok (r, s))
  /\ (nested_select X [i1; i2; i3; i4] = Some r ->
      exists e,
        ARG_4 p [EVal X; index i1; index i2; index i3; index i4] = Some e
        /\ eval (16 + k) e s = Ok (r, s))
  /\ (nested_select X [i1; i2; i3; i4; i5] = Some r ->
      exists e,
        ARG_5 p [EVal X; index i1; index i2; index i3; index i4; index i5]
        = Some e
        /\ eval (20 + k) e s = Ok (r, s))
  /\ (nested_select X [i1; i2; i3; i4; i5; i6] = Some r ->
      exists e,
        ARG_6 p
          [EVal X; index i1; index i2; index i3; index i4; index i5; index i6]
        = Some e
        /\ eval (24 + k) e s = Ok (r, s)).
Proof.
  repeat split; intros H; (eexists; split; [by destruct p |]); chain H.
  - change (4 + k) with (3 + S k). selections.
  - change (8 + k) with (S (3 + (3 + S k))). selections.
  - change (12 + k) with (S (3 + S (3 + (3 + S k)))). selections.
  - change (16 + k) with (S (3 + S (3 + S (3 + (3 + S k))))). selections.
  - change (20 + k) with (S (3 + S (3 + S (3 + S (3 + (3 + S k)))))).
    selections.
  - change (24 + k)
      with (S (3 + S (3 + S (3 + S (3 + S (3 + (3 + S k))))))).
    selections.
Qed.

(** C9: line 644 hands [ARG_6] eight arguments, [E] twice.  On an array
    where the seven steps are all in bounds and lead to "documented",
    [ARG_7] has no expansion when the invocation of [ARG_6] is refused,
    and leads to "other" when the argument in excess is dropped. *)
Theorem arg_7_hands_arg_6_eight_arguments s k :
  let args := EVal seven_deep :: map index seven_steps in
  nested_select seven_deep seven_steps = Some (VString "documented")
  /\ ARG_7 Refuse args = None
  /\ exists e, ARG_7 DropLast args = Some e
               /\ eval (28 + k) e s = Ok (VString "other", s).
Proof.
  split; [reflexivity |]. split; [reflexivity |].
  eexists. split; [reflexivity |].
  assert (H : nested_select seven_deep [0; 0; 0; 1; 1; 0; 0]%nat
              = Some (VString "other")) by reflexivity.
  unfold seven_deep in *. chain H.
  change (28 + k)
    with (S (3 + S (3 + S (3 + S (3 + S (3 + S (3 + (3 + S k)))))))).
  selections.
Qed.

(** *** Splitting an array, taking a parameter *)

(** The statement [A = (ARRAY) select i], then the rest. *)
Lemma exec_assign_select n (xs : list value) (A : string) (i : nat) x c s :
  xs !! i = Some x ->
  exec (S (S (S (S n))))
    (SAssign A (EBin Select (EParen (EVal (VArray xs))) (index i)) :: c) s
  = exec (S (S (S n))) c (write A x s).
Proof.
  intros H. unfold index. ev. cbn [Sqf.binary].
  by rewrite (select_in_bounds _ _ _ H).
Qed.

Lemma explode_assigns_by_position targets xs s k :
  2 <= length targets <= 8 -> length targets <= length xs ->
  exists c, EXPLODE (EVal (VArray xs)) targets = Some c
            /\ exec (12 + k) c s = Ok (VNil, assign_all targets xs s).
Proof.
  intros Hn Hx.
  destruct targets as [|A [|B [|C [|D [|E [|F [|G [|H [|I targets]]]]]]]]];
    simpl in Hn; try lia;
    (eexists; split; [reflexivity |]);
    repeat match goal with
    | Hx : context [length ?l] |- _ =>
        is_var l; destruct l; simpl in Hx; [lia |]
    end.
  all: unfold EXPLODE_8, EXPLODE_7, EXPLODE_6, EXPLODE_5, EXPLODE_4,
         EXPLODE_3, EXPLODE_2; simpl app.
  all: change (ENum 0) with (index 0); change (ENum 1) with (index 1);
    change (ENum 2) with (index 2); change (ENum 3) with (index 3);
    change (ENum 4) with (index 4); change (ENum 5) with (index 5);
    change (ENum 6) with (index 6); change (ENum 7) with (index 7).
  all: change (12 + k)
         with (S (S (S (S (S (S (S (S (S (S (S (S k)))))))))))).
  all: repeat (erewrite exec_assign_select by reflexivity).
  all: reflexivity.
Qed.

Lemma eval_retnil_var n x s :
  eval (S (S (S (S (S (S n)))))) (RETNIL (EVar x)) s = Ok (read x s, s).
Proof.
  unfold RETNIL. ev.
  cbn [Sqf.unary]. unfold in_scope. ev.
  rewrite read_push_empty, pop_push. ev.
  cbn [Sqf.unary Sqf.binary].
  destruct (read x s) eqn:Hx; cbn [is_nil]; unfold in_scope; ev;
    rewrite ?read_push_empty, ?pop_push, ?Hx; done.
Qed.

Lemma this_file_expr d here : THIS_FILE_ d here = EStr (file_name d here).
Proof.
  unfold THIS_FILE_, file_name. by destruct (Text.defined "THIS_FILE" d).
Qed.

Lemma host_log : host "CBA_fnc_log" = CBA_fnc_log.
Proof. unfold host_with_log. by rewrite bool_decide_eq_true_2. Qed.

Lemma call_log run (a : value) s :
  read "CBA_fnc_log" s = VNative "CBA_fnc_log" -> a <> VNil ->
  binary run Call a (read "CBA_fnc_log" s) s = Ok (VNil, logged a s).
Proof.
  intros -> Ha. destruct a; try done; cbn [Sqf.binary Sqf.apply];
    by rewrite host_log.
Qed.

Lemma exec_trace_1_enabled n d here message A s :
  Text.DEBUG_MODE_FULL d = true ->
  read "CBA_fnc_log" s = VNative "CBA_fnc_log" ->
  exec (S (S (S (S (S (S (S (S (S (S (S n)))))))))))
    (TRACE_1 d here (EStr message) A) s
  = Ok (VNil,
        logged (trace_1_record engine_format d here message A (read A s)) s).
Proof.
  intros Hd Hlog. unfold TRACE_1. rewrite Hd, this_file_expr. unfold __LINE__.
  ev. rewrite eval_retnil_var. ev.
  cbn [Sqf.unary]. ev. by rewrite call_log.
Qed.

Lemma exec_trace_1_disabled n d here message A s :
  Text.DEBUG_MODE_FULL d = false ->
  exec (S n) (TRACE_1 d here message A) s = Ok (VNil, s).
Proof. intros Hd. unfold TRACE_1. by rewrite Hd. Qed.

Lemma read_declare_ne x y s : y <> x -> read x (declare y s) = read x s.
Proof.
  intros H. unfold read, declare.
  destruct (is_local x); [| by destruct (frames s)].
  destruct s as [g [|f fs] r]; simpl.
  - by rewrite lookup_singleton_ne.
  - by rewrite lookup_insert_ne.
Qed.

Lemma write_declared_state x v g f fs r :
  is_local x = true ->
  write x v (declare x (State g (f :: fs) r))
  = State g (<[x := v]> f :: fs) r.
Proof.
  intros H. unfold write, declare, write_local, declared. rewrite H. simpl.
  rewrite lookup_insert_eq. rewrite bool_decide_eq_true_2 by eauto.
  simpl. by rewrite insert_insert_eq.
Qed.

Lemma read_written_local x v g f fs r :
  is_local x = true -> read x (State g (<[x := v]> f :: fs) r) = v.
Proof. intros H. unfold read. rewrite H. simpl. by rewrite lookup_insert_eq. Qed.

Lemma type_test_array x :
  x <> VNil ->
  string_eq (default "" (type_name x)) "ARRAY"
  = match x with VArray _ => true | _ => false end.
Proof.
  intros H. destruct x as [| | | | | | | |h ?]; try done. by destruct h.
Qed.

Lemma params_1_takes_first_or_self d here A this g f fs r k :
  is_local A = true -> A <> "_this" -> this <> VNil ->
  read_local "_this" (f :: fs) = this ->
  (Text.DEBUG_MODE_FULL d = true ->
   g !! "CBA_fnc_log" = Some (VNative "CBA_fnc_log")) ->
  exec (20 + k) (PARAMS_1 d here A) (State g (f :: fs) r)
  = Ok (VNil,
        State g (<[A := first_or_self this]> f :: fs)
          (r ++ if Text.DEBUG_MODE_FULL d
                then [trace_1_record engine_format d here "PARAMS_1" A
                        (first_or_self this)]
                else [])).
Proof.
  intros HA HAthis Hthis Hread Hlog.
  set (s0 := State g (f :: fs) r).
  assert (Rthis : read "_this" (declare A s0) = this)
    by (by rewrite read_declare_ne).
  unfold PARAMS_1, IS_ARRAY.
  change (20 + k)
    with (S (S (S (S (S (S (S (S (S (S (S (S (S (S (S (S (S (S
            (S (S k)))))))))))))))))))).
  cbn [app].
  rewrite exec_expr, eval_un, eval_str, then_ok. cbn beta iota.
  cbn [Sqf.unary]. rewrite then_ok. cbn beta iota.
  rewrite exec_assign, eval_bin, eval_un, eval_paren.
  erewrite eval_is_type; [| by rewrite eval_var | by rewrite Rthis].
  rewrite then_ok. cbn beta iota. rewrite Rthis, type_test_array by done.
  cbn [Sqf.unary]. rewrite then_ok. cbn beta iota.
  ev. cbn [Sqf.binary]. rewrite then_ok; cbn beta iota.
  assert (Hbranch : forall n,
    in_scope (exec (S (S (S n)))) ∅
      (if match this with VArray _ => true | _ => false end
       then [SExpr (EBin Select (EVar "_this") (ENum 0))]
       else [SExpr (EVar "_this")]) (declare A s0)
    = Ok (first_or_self this, declare A s0)).
  { intros n. unfold in_scope.
    destruct this as [| | | |l| | | |]; try done; ev;
      rewrite ?read_push_empty, ?Rthis; cbn [Sqf.binary];
      rewrite ?select_first, ?then_ok; cbn beta iota;
      rewrite ?then_ok; cbn beta iota; by rewrite pop_push. }
  rewrite Hbranch, then_ok. cbn beta iota.
  unfold s0. rewrite write_declared_state by done.
  destruct (Text.DEBUG_MODE_FULL d) eqn:Hd.
  - rewrite exec_trace_1_enabled; [| done |].
    + rewrite read_written_local by done. unfold logged, with_rpt. done.
    + unfold read. simpl. by rewrite Hlog.
  - rewrite exec_trace_1_disabled by done. by rewrite app_nil_r.
Qed.

(** *** A default for an undefined variable *)

Lemma write_global_scope x v f s :
  is_local x = false -> pop (write x v (push f s)) = write x v s.
Proof. intros H. unfold write. rewrite H. by destruct s. Qed.

Lemma read_write_global x v s :
  is_local x = false -> v <> VNil -> read x (write x v s) = v.
Proof.
  intros H Hv. unfold read, write, write_global. rewrite H. simpl.
  destruct v; try done; simpl; by rewrite lookup_insert_eq.
Qed.

Lemma eval_isnils n V D s :
  is_local V = false ->
  eval (S (S (S (S (S n))))) (ISNILS V (EVal D)) s
  = Ok (VNil, if is_nil (read V s) then write V D s else s).
Proof.
  intros HV. unfold ISNILS. ev. cbn [Sqf.unary]. ev. cbn [Sqf.unary]. ev.
  cbn [Sqf.binary]. destruct (is_nil (read V s)); [| done].
  unfold in_scope. ev. by rewrite write_global_scope.
Qed.

(** C10. For a global variable [V] and a default [D] that is not nil,
    [ISNILS(V,D)] leaves the state as it is when [V] is defined and sets
    [V] to [D] when it is not; [V] is defined afterwards, and a second
    [ISNILS(V,D)] changes nothing. *)
Theorem isnils_sets_default_once V D s k :
  is_local V = false -> D <> VNil ->
  let s' := if is_nil (read V s) then write V D s else s in
  eval (5 + k) (ISNILS V (EVal D)) s = Ok (VNil, s')
  /\ (read V s <> VNil -> s' = s)
  /\ (read V s = VNil -> read V s' = D)
  /\ read V s' <> VNil
  /\ eval (5 + k) (ISNILS V (EVal D)) s' = Ok (VNil, s').
Proof.
  intros HV HD s'.
  assert (Hdef : read V s' <> VNil).
  { unfold s'. destruct (read V s) eqn:Hr; simpl; rewrite ?Hr; try done.
    by rewrite read_write_global. }
  change (5 + k) with (S (S (S (S (S k))))).
  rewrite !eval_isnils by done. fold s'.
  repeat split; try done.
  - unfold s'. by destruct (read V s).
  - unfold s'. intros ->. simpl. by apply read_write_global.
  - by destruct (read V s').
Qed.

(** *** Deprecated and obsolete functions *)

(** A call does not see scopes that declare no more than its argument
    scope does. *)
Lemma apply_skips_scopes n fn a extra g fs r :
  Spec.covers extra (argument_scope a) ->
  apply (exec n) fn a (State g (extra ++ fs) r)
  = on_top extra (apply (exec n) fn a (State g fs r)).
Proof.
  intros Hcov. destruct fn; try done.
  - cbn [Sqf.apply]. unfold in_scope. fold (argument_scope a).
    set (F := argument_scope a) in *.
    pose proof (proj2 (eval_exec_sim engine_format host extra (length fs) n))
      as Hsim.
    specialize (Hsim body (push F (State g fs r))
                  (push F (State g (extra ++ fs) r))).
    unfold Spec.rel in Hsim.
    destruct (exec n body (push F (State g fs r))) as [[v s']| |].
    + destruct Hsim as (se' & -> & (Hg & Hr & Hu) & Hl).
      { repeat split; try done. simpl.
        by apply (Spec.under_intro extra (length fs) [] F fs). }
      rewrite !then_ok. cbn beta iota. simpl in Hl.
      destruct s' as [g' fr' r'], se' as [ge' fre' re']. simpl in *.
      subst ge' re'. inversion Hu as [up F2 low Hm HF Heq1 Heq2].
      subst fr' fre'. rewrite length_app in Hl. simpl in Hl.
      destruct up as [|u up]; [| simpl in Hl; lia]. done.
    + rewrite Hsim; [done |].
      repeat split; try done. simpl.
      by apply (Spec.under_intro extra (length fs) [] F fs).
    + rewrite Hsim; [done |].
      repeat split; try done. simpl.
      by apply (Spec.under_intro extra (length fs) [] F fs).
  - cbn [Sqf.apply]. unfold world_of. simpl.
    by destruct (host_with_log others f a (g, r)) as [[v w]| |].
Qed.

Lemma covers_this a : a <> VNil -> Spec.covers [∅; {[ "_this" := a ]}] (argument_scope a).
Proof.
  intros Ha e x He Hx. unfold argument_scope.
  destruct a; try done; simpl;
    repeat (apply elem_of_cons in He as [-> | He]; [| try by apply elem_of_nil in He]);
    try (rewrite lookup_empty in Hx; by destruct Hx); done.
Qed.

Lemma covers_nothing : Spec.covers [∅; ∅] (argument_scope VNil).
Proof.
  intros e x He Hx.
  repeat (apply elem_of_cons in He as [-> | He]; [| try by apply elem_of_nil in He]);
    rewrite lookup_empty in Hx; by destruct Hx.
Qed.

Lemma binary_call_skips_scopes n fn a g fs r :
  a <> VNil ->
  binary (exec n) Call a fn (State g ([∅; {[ "_this" := a ]}] ++ fs) r)
  = on_top [∅; {[ "_this" := a ]}] (binary (exec n) Call a fn (State g fs r)).
Proof.
  intros Ha.
  assert (H : forall s, binary (exec n) Call a fn s
                        = if is_nil fn then Err Undefined else apply (exec n) fn a s)
    by (intros; destruct a, fn; done).
  rewrite !H. destruct (is_nil fn); [done |].
  by apply apply_skips_scopes, covers_this.
Qed.

Lemma unary_call_skips_scopes n fn g fs r :
  unary (exec n) CallU fn (State g ([∅; ∅] ++ fs) r)
  = on_top [∅; ∅] (unary (exec n) CallU fn (State g fs r)).
Proof.
  assert (H : forall s, unary (exec n) CallU fn s
                        = if is_nil fn then Err Undefined else apply (exec n) fn VNil s)
    by (intros; destruct fn; done).
  rewrite !H. destruct (is_nil fn); [done |].
  by apply apply_skips_scopes, covers_nothing.
Qed.

(** The forwarding statement, in the scope of a wrapper called with the
    argument [a]: the call of the target, as made from the caller. *)
Lemma exec_forward_argument m t fn a g fs r :
  a <> VNil ->
  (forall n fr, eval (S n) t (State g fr r) = Ok (fn, State g fr r)) ->
  exec (S (S (S (S (S (S m)))))) [forward t]
    (State g ({[ "_this" := a ]} :: fs) r)
  = on_top [ {[ "_this" := a ]} ]
      (binary (exec (S (S m))) Call a fn (State g fs r)).
Proof.
  intros Ha Ht.
  set (direct := binary (exec (S (S m))) Call a fn (State g fs r)).
  unfold forward. ev. cbn [Sqf.unary]. ev.
  assert (R1 : read "_this" (State g ({[ "_this" := a ]} :: fs) r) = a).
  { unfold read. simpl. by rewrite lookup_singleton_eq. }
  rewrite R1. cbn [Sqf.unary].
  assert (Hn : is_nil a = false) by (by destruct a).
  rewrite Hn. ev. cbn [Sqf.binary]. unfold in_scope. ev.
  rewrite read_push_empty, R1.
  change (push ∅ (State g ({[ "_this" := a ]} :: fs) r))
    with (State g ([∅; {[ "_this" := a ]}] ++ fs) r).
  rewrite Ht, then_ok. cbn beta iota.
  rewrite binary_call_skips_scopes by done. fold direct.
  by destruct direct as [[v s']| |].
Qed.

(** The same in the scope of a wrapper called without argument, from a
    caller that has none either. *)
Lemma exec_forward_no_argument m t fn g fs r :
  read_local "_this" fs = VNil ->
  (forall n fr, eval (S n) t (State g fr r) = Ok (fn, State g fr r)) ->
  exec (S (S (S (S (S (S m)))))) [forward t] (State g (∅ :: fs) r)
  = on_top [∅] (unary (exec (S (S m))) CallU fn (State g fs r)).
Proof.
  intros Hthis Ht.
  set (direct := unary (exec (S (S m))) CallU fn (State g fs r)).
  unfold forward. ev. cbn [Sqf.unary]. ev.
  assert (R1 : read "_this" (State g (∅ :: fs) r) = VNil).
  { unfold read. simpl. by rewrite lookup_empty. }
  rewrite R1. cbn [Sqf.unary is_nil]. ev. cbn [Sqf.binary]. unfold in_scope. ev.
  change (push ∅ (State g (∅ :: fs) r))
    with (State g ([∅; ∅] ++ fs) r).
  rewrite Ht, then_ok. cbn beta iota.
  rewrite unary_call_skips_scopes. fold direct.
  by destruct direct as [[v s']| |].
Qed.

Lemma binary_plus_strings run a b s :
  binary run Plus (VString a) (VString b) s = Ok (VString (a +:+ b), s).
Proof. reflexivity. Qed.

Lemma exec_warning_enabled n d here message c s :
  Text.DEBUG_MODE_NORMAL d = true ->
  read "CBA_fnc_log" s = VNative "CBA_fnc_log" ->
  exec (S (S (S (S (S (S n)))))) (WARNING d here (EStr message) ++ [c]) s
  = exec (S (S (S (S (S n))))) [c] (logged (warning_record d here message) s).
Proof.
  intros Hd Hlog. unfold WARNING. rewrite Hd, this_file_expr.
  unfold __LINE__. cbn [app]. ev. rewrite binary_plus_strings. ev.
  by rewrite call_log.
Qed.

Lemma exec_warning_disabled n d here message c s :
  Text.DEBUG_MODE_NORMAL d = false ->
  exec n (WARNING d here message ++ [c]) s = exec n [c] s.
Proof. intros Hd. unfold WARNING. by rewrite Hd. Qed.

Lemma binary_call_apply run a fn s :
  a <> VNil -> fn <> VNil -> binary run Call a fn s = apply run fn a s.
Proof. intros Ha Hfn. by destruct a, fn. Qed.

Lemma unary_call_apply run fn s :
  fn <> VNil -> unary run CallU fn s = apply run fn VNil s.
Proof. intros Hfn. by destruct fn. Qed.

Lemma leave_scope f (r : result (value * state)) :
  (on_top [f] r ≫= λ '(v, s'), Ok (v, pop s')) = r.
Proof. destruct r as [[v [g fs l]]| |]; done. Qed.

(** A wrapper: the warning, then the forwarding statement.  Called with
    an argument, or without one from a caller that has none, it does what
    the call of the target does once the warning is recorded. *)
Lemma wrapper_forwards d here message t fn (a : value) g fs r m :
  g !! "CBA_fnc_log" = Some (VNative "CBA_fnc_log") ->
  (forall n fr l, eval (S n) t (State g fr l) = Ok (fn, State g fr l)) ->
  let budget := if Text.DEBUG_MODE_NORMAL d then 7 else 6 in
  let body := VCode (WARNING d here (EStr message) ++ [forward t]) in
  let after := warned d here message (State g fs r) in
  (a <> VNil ->
   apply (exec (budget + m)) body a (State g fs r)
   = binary (exec (S (S m))) Call a fn after)
  /\ (read_local "_this" fs = VNil ->
      apply (exec (budget + m)) body VNil (State g fs r)
      = unary (exec (S (S m))) CallU fn after).
Proof.
  intros Hlog Ht budget body after.
  assert (Rlog : forall fr l,
            read "CBA_fnc_log" (State g fr l) = VNative "CBA_fnc_log").
  { intros. unfold read. simpl. by rewrite Hlog. }
  unfold budget, body, after, warned, logged, with_rpt.
  cbn [globals frames rpt].
  destruct (Text.DEBUG_MODE_NORMAL d) eqn:Hd.
  - change (7 + m) with (S (S (S (S (S (S (S m))))))). split.
    + intros Ha. cbn [Sqf.apply]. unfold in_scope.
      assert (is_nil a = false) as -> by (by destruct a).
      change (push ?f (State g fs r)) with (State g (f :: fs) r).
      rewrite exec_warning_enabled by (done || apply Rlog).
      unfold logged, with_rpt. cbn [globals frames rpt].
      erewrite exec_forward_argument by (try done; intros; apply Ht).
      apply leave_scope.
    + intros Hthis. cbn [Sqf.apply is_nil]. unfold in_scope.
      change (push ?f (State g fs r)) with (State g (f :: fs) r).
      rewrite exec_warning_enabled by (done || apply Rlog).
      unfold logged, with_rpt. cbn [globals frames rpt].
      erewrite exec_forward_no_argument by (try done; intros; apply Ht).
      apply leave_scope.
  - change (6 + m) with (S (S (S (S (S (S m)))))). split.
    + intros Ha. cbn [Sqf.apply]. unfold in_scope.
      assert (is_nil a = false) as -> by (by destruct a).
      change (push ?f (State g fs r)) with (State g (f :: fs) r).
      rewrite exec_warning_disabled by done.
      erewrite exec_forward_argument by (try done; intros; apply Ht).
      apply leave_scope.
    + intros Hthis. cbn [Sqf.apply is_nil]. unfold in_scope.
      change (push ?f (State g fs r)) with (State g (f :: fs) r).
      rewrite exec_warning_disabled by done.
      erewrite exec_forward_no_argument by (try done; intros; apply Ht).
      apply leave_scope.
Qed.

Lemma write_global_state x v g fs r :
  is_local x = false ->
  write x v (State g fs r) = State (write_global x v g) fs r.
Proof. intros H. unfold write. by rewrite H. Qed.

(** Calling a global variable that holds a wrapper. *)
Lemma call_of_wrapper d here message t fn OLD (a : value) g fs r m :
  is_local OLD = false ->
  g !! "CBA_fnc_log" = Some (VNative "CBA_fnc_log") ->
  g !! OLD = Some (VCode (WARNING d here (EStr message) ++ [forward t])) ->
  (forall n fr l, eval (S n) t (State g fr l) = Ok (fn, State g fr l)) ->
  a <> VNil ->
  let budget := if Text.DEBUG_MODE_NORMAL d then 8 else 7 in
  let s1 := State g fs r in
  let after := warned d here message s1 in
  eval (budget + m) (EBin Call (EVal a) (EVar OLD)) s1
  = eval (3 + m) (EBin Call (EVal a) t) after
  /\ (read "_this" s1 = VNil ->
      eval (budget + m) (EUn CallU (EVar OLD)) s1
      = eval (3 + m) (EUn CallU t) after).
Proof.
  intros HOLD Hlog Hdef Ht Ha budget s1 after.
  destruct (wrapper_forwards d here message t fn a g fs r m Hlog Ht)
    as [Hb Hu].
  assert (Rold : read OLD s1
                 = VCode (WARNING d here (EStr message) ++ [forward t])).
  { unfold read, s1. rewrite HOLD. simpl. by rewrite Hdef. }
  assert (Hafter : exists l, after = State g fs l).
  { unfold after, warned, logged, with_rpt, s1.
    destruct (Text.DEBUG_MODE_NORMAL d); eauto. }
  destruct Hafter as [l Hafter].
  change (3 + m) with (S (S (S m))).
  assert (Hright : eval (S (S (S m))) (EBin Call (EVal a) t) after
                   = binary (exec (S (S m))) Call a fn after).
  { rewrite Hafter. ev. by rewrite Ht, then_ok. }
  assert (Hright' : eval (S (S (S m))) (EUn CallU t) after
                    = unary (exec (S (S m))) CallU fn after).
  { rewrite Hafter. ev. by rewrite Ht, then_ok. }
  rewrite Hright, Hright'. fold s1 after in Hb, Hu.
  unfold budget. destruct (Text.DEBUG_MODE_NORMAL d).
  - change (8 + m) with (S (S (6 + m))). split.
    + ev. rewrite Rold, binary_call_apply by done. by apply Hb.
    + intros Hthis. ev. rewrite Rold, unary_call_apply by done.
      apply Hu. unfold read, s1 in Hthis. by simpl in Hthis.
  - change (7 + m) with (S (S (5 + m))). split.
    + ev. rewrite Rold, binary_call_apply by done. by apply Hb.
    + intros Hthis. ev. rewrite Rold, unary_call_apply by done.
      apply Hu. unfold read, s1 in Hthis. by simpl in Hthis.
Qed.

(** C6, amended.  After [DEPRECATE_SYS(OLD,NEW)], and after
    [OBSOLETE_SYS(OLD,CODE)] for a block [CODE], calling [OLD] with an
    argument does what calling [NEW] (or [CODE]) with that argument does,
    and calling it without argument, from a caller without argument, what
    calling [NEW] (or [CODE]) without argument does, in the state where
    the warning is recorded: one more entry in the log when
    [DEBUG_MODE_NORMAL] is in force, none when it is not.
    [DEPRECATE(o,n)] is [DEPRECATE_SYS] with [PREFIX_] before both
    names. *)
Theorem deprecated_call_forwards
    d here p OLD NEW o n' (code : list stmt) (a : value) g fs r m :
  is_local OLD = false -> is_local NEW = false -> OLD <> "CBA_fnc_log" ->
  g !! "CBA_fnc_log" = Some (VNative "CBA_fnc_log") -> a <> VNil ->
  d !! "PREFIX" = Some p ->
  let budget := if Text.DEBUG_MODE_NORMAL d then 8 else 7 in
  (exists s1,
     exec (3 + m) [DEPRECATE_SYS d here OLD NEW] (State g fs r)
     = Ok (VNil, s1)
     /\ let after := warned d here (deprecation_message d OLD NEW) s1 in
        eval (budget + m) (EBin Call (EVal a) (EVar OLD)) s1
        = eval (3 + m) (EBin Call (EVal a) (EVar NEW)) after
        /\ (read "_this" s1 = VNil ->
            eval (budget + m) (EUn CallU (EVar OLD)) s1
            = eval (3 + m) (EUn CallU (EVar NEW)) after))
  /\ (exists s1,
        exec (3 + m) [OBSOLETE_SYS d here OLD (ECode code)] (State g fs r)
        = Ok (VNil, s1)
        /\ let after := warned d here (obsolete_message d OLD) s1 in
           eval (budget + m) (EBin Call (EVal a) (EVar OLD)) s1
           = eval (3 + m) (EBin Call (EVal a) (ECode code)) after
           /\ (read "_this" s1 = VNil ->
               eval (budget + m) (EUn CallU (EVar OLD)) s1
               = eval (3 + m) (EUn CallU (ECode code)) after))
  /\ DEPRECATE d here o n'
     = DEPRECATE_SYS d here (p +:+ "_" +:+ o) (p +:+ "_" +:+ n').
Proof.
  intros HOLD HNEW Hne Hlog Ha Hp budget.
  change (3 + m) with (S (S (S m))).
  split; [| split].
  - eexists. split.
    + unfold DEPRECATE_SYS. ev.
      rewrite write_global_state by done. reflexivity.
    + cbn [write_global is_nil].
      apply (call_of_wrapper d here (deprecation_message d OLD NEW)
               (EVar NEW)
               (default VNil (<[OLD := VCode
                   (WARNING d here (EStr (deprecation_message d OLD NEW))
                    ++ [forward (EVar NEW)])]> g !! NEW))); try done.
      * by rewrite lookup_insert_ne.
      * by rewrite lookup_insert_eq.
      * intros. rewrite eval_var. unfold read. rewrite HNEW. done.
  - eexists. split.
    + unfold OBSOLETE_SYS. ev.
      rewrite write_global_state by done. reflexivity.
    + cbn [write_global is_nil].
      apply (call_of_wrapper d here (obsolete_message d OLD) (ECode code)
               (VCode code)); try done.
      * by rewrite lookup_insert_ne.
      * by rewrite lookup_insert_eq.
  - unfold DEPRECATE, Text.DOUBLES, Text.PREFIX.
    by rewrite (object_like_defined _ _ _ Hp).
Qed.

(** *** More fuel

    A result reached with some fuel is the result with more. *)

Lemma bind_settled {A B} (r : result A) (f : A -> result B) :
  r ≫= f <> OutOfFuel -> r <> OutOfFuel.
Proof. by destruct r. Qed.

Lemma in_scope_more run run' f body s :
  (forall c s, run c s <> OutOfFuel -> run' c s = run c s) ->
  in_scope run f body s <> OutOfFuel ->
  in_scope run' f body s = in_scope run f body s.
Proof.
  intros H Hr. unfold in_scope in *. rewrite H; [done |].
  by apply bind_settled in Hr.
Qed.

Lemma apply_more run run' callee arg s :
  (forall c s, run c s <> OutOfFuel -> run' c s = run c s) ->
  apply run callee arg s <> OutOfFuel ->
  apply run' callee arg s = apply run callee arg s.
Proof.
  intros H. destruct callee; try done. simpl. by apply in_scope_more.
Qed.

Lemma unary_more run run' op v s :
  (forall c s, run c s <> OutOfFuel -> run' c s = run c s) ->
  unary run op v s <> OutOfFuel -> unary run' op v s = unary run op v s.
Proof.
  intros H. destruct op, v; try done; simpl;
    try (by apply in_scope_more).
  intros Hr. rewrite (in_scope_more run run'); [done | done |].
  by apply bind_settled in Hr.
Qed.

Lemma binary_more run run' op a b s :
  (forall c s, run c s <> OutOfFuel -> run' c s = run c s) ->
  binary run op a b s <> OutOfFuel ->
  binary run' op a b s = binary run op a b s.
Proof.
  intros H. destruct op, a, b; try done; simpl;
    try (by apply in_scope_more);
    repeat (case_match; try done); by apply in_scope_more.
Qed.

Lemma eval_all_more (ev ev' : expr -> state -> result (value * state)) es s :
  (forall e s, ev e s <> OutOfFuel -> ev' e s = ev e s) ->
  eval_all ev es s <> OutOfFuel -> eval_all ev' es s = eval_all ev es s.
Proof.
  intros H. revert s. induction es as [|e es IH]; intros s; [done |].
  simpl. intros Hr. rewrite H by (by apply bind_settled in Hr).
  destruct (ev e s) as [[v s1]| |]; try done. simpl in *.
  rewrite IH; [done |]. by apply bind_settled in Hr.
Qed.

Lemma one_more n :
  (forall e s, eval n e s <> OutOfFuel -> eval (S n) e s = eval n e s)
  /\ (forall c s, exec n c s <> OutOfFuel -> exec (S n) c s = exec n c s).
Proof.
  induction n as [|n [IHe IHc]]; [by split |]. split.
  - intros e s Hr. destruct e; try done.
    + rewrite !eval_arr in *. rewrite (eval_all_more (eval n) (eval (S n)));
        [done | done | by apply bind_settled in Hr].
    + rewrite !eval_paren in *. by apply IHe.
    + rewrite !eval_un in *. rewrite IHe by (by apply bind_settled in Hr).
      destruct (eval n e s) as [[v s1]| |]; try done.
      repeat rewrite then_ok; repeat rewrite then_ok in Hr;
        cbn beta iota in Hr |- *.
      by apply unary_more.
    + rewrite !eval_bin in *. rewrite IHe by (by apply bind_settled in Hr).
      destruct (eval n e1 s) as [[a s1]| |]; try done.
      repeat rewrite then_ok; repeat rewrite then_ok in Hr;
        cbn beta iota in Hr |- *.
      rewrite IHe by (by apply bind_settled in Hr).
      destruct (eval n e2 s1) as [[b s2]| |]; try done.
      repeat rewrite then_ok; repeat rewrite then_ok in Hr;
        cbn beta iota in Hr |- *.
      by apply binary_more.
  - intros c s Hr. destruct c as [|[x e|e] c]; [done | |].
    + rewrite !exec_assign in *. rewrite IHe by (by apply bind_settled in Hr).
      destruct (eval n e s) as [[v s1]| |]; try done.
      repeat rewrite then_ok; repeat rewrite then_ok in Hr;
        cbn beta iota in Hr |- *.
      by apply IHc.
    + destruct c as [|c0 c].
      * rewrite !exec_last in *. by apply IHe.
      * rewrite !exec_expr in *. rewrite IHe by (by apply bind_settled in Hr).
        destruct (eval n e s) as [[v s1]| |]; try done.
      repeat rewrite then_ok; repeat rewrite then_ok in Hr;
        cbn beta iota in Hr |- *.
        by apply IHc.
Qed.

Lemma eval_more m n e s :
  eval n e s <> OutOfFuel -> eval (m + n) e s = eval n e s.
Proof.
  intros H. induction m as [|m IH]; [done |].
  change (S m + n) with (S (m + n)).
  rewrite (proj1 (one_more (m + n))); [done | by rewrite IH].
Qed.

Lemma exec_more m n c s :
  exec n c s <> OutOfFuel -> exec (m + n) c s = exec n c s.
Proof.
  intros H. induction m as [|m IH]; [done |].
  change (S m + n) with (S (m + n)).
  rewrite (proj2 (one_more (m + n))); [done | by rewrite IH].
Qed.
(** *** Reading what was written *)

Lemma read_local_write_declared x v fs :
  declared x fs = true -> read_local x (write_declared x v fs) = v.
Proof.
  induction fs as [|f fs IH]; [done |]. simpl. intros H.
  destruct (f !! x) eqn:Hf; simpl.
  - by rewrite lookup_insert_eq.
  - rewrite Hf. apply IH.
    rewrite bool_decide_eq_false_2 in H by (by intros [? ?]). exact H.
Qed.

Lemma read_write x v s : read x (write x v s) = v.
Proof.
  unfold read, write. destruct (is_local x) eqn:Hx; simpl.
  - unfold write_local. destruct (declared x (frames s)) eqn:Hd.
    + by apply read_local_write_declared.
    + destruct (frames s); simpl; by rewrite ?lookup_singleton_eq, ?lookup_insert_eq.
  - unfold write_global. destruct v; simpl;
      by rewrite ?lookup_delete_eq, ?lookup_insert_eq.
Qed.

Lemma read_local_write_declared_ne x y v fs :
  x <> y -> read_local x (write_declared y v fs) = read_local x fs.
Proof.
  intros H. induction fs as [|f fs IH]; [done |]. simpl.
  destruct (f !! y); simpl; [by rewrite lookup_insert_ne | by rewrite IH].
Qed.

Lemma read_write_ne x y v s : x <> y -> read x (write y v s) = read x s.
Proof.
  intros H. unfold read, write.
  destruct (is_local x) eqn:Hx, (is_local y) eqn:Hy; simpl; try done.
  - unfold write_local. destruct (declared y (frames s)).
    + by apply read_local_write_declared_ne.
    + destruct (frames s); simpl;
        by rewrite ?lookup_singleton_ne, ?lookup_insert_ne.
  - unfold write_global. destruct (is_nil v);
      by rewrite ?lookup_delete_ne, ?lookup_insert_ne.
Qed.

(** *** A value, or nil *)

(** X1. [RETNIL(E)] evaluates [E] in a scope of its own to see whether it
    is nil; when it is, the result is nil and [E] has been evaluated once;
    when it is not, [E] is evaluated a second time, in the state the first
    evaluation left, and the second value is the result. *)
Theorem retnil_evaluates_its_argument_twice E s n v1 s1 :
  eval n E (push ∅ s) = Ok (v1, s1) ->
  eval (5 + n) (RETNIL E) s
  = if is_nil v1 then Ok (VNil, pop s1)
    else '(v2, s2) ← eval (3 + n) E (push ∅ (pop s1)); Ok (v2, pop s2).
Proof.
  intros H. destruct n as [|n]; [done |].
  change (5 + S n) with (S (S (S (S (S (S n)))))).
  change (3 + S n) with (S (S (S (S n)))).
  unfold RETNIL.
  rewrite eval_bin, eval_un, eval_paren, eval_un, eval_code, then_ok.
  cbn beta iota. cbn [Sqf.unary]. unfold in_scope at 1.
  rewrite exec_last, H, ?then_ok. cbn beta iota. rewrite ?then_ok.
  cbn beta iota. cbn [Sqf.unary]. rewrite ?then_ok. cbn beta iota.
  rewrite eval_bin, !eval_code, ?then_ok. cbn beta iota.
  rewrite eval_code, ?then_ok. cbn beta iota.
  cbn [Sqf.binary]. rewrite ?then_ok. cbn beta iota. cbn [Sqf.binary].
  destruct v1; cbn [is_nil]; unfold in_scope;
    rewrite exec_last; reflexivity.
Qed.

(** *** Counting and adding *)

(** X2. [INC(var)] on a variable that is defined does what [ADD(var,1)]
    does: it assigns to the variable what the engine's [+] makes of its
    value and 1, and the variable reads as that afterwards.  Only a number
    can be counted up: on a variable that holds a value of another type it
    is a type error of [+]. *)
Theorem inc_adds_one var s k :
  read var s <> VNil ->
  exec (4 + k) [INC var] s
  = (c ← plus (read var s) (VScalar 1); Ok (VNil, write var c s))
  /\ exec (4 + k) [INC var] s = exec (4 + k) [ADD var (ENum 1)] s
  /\ (forall c s',
        exec (4 + k) [INC var] s = Ok (VNil, s') ->
        plus (read var s) (VScalar 1) = Ok c ->
        read var s' = c /\ exists q, read var s = VScalar q)
  /\ ((forall q, read var s <> VScalar q) ->
      exec (4 + k) [INC var] s = Err (BadType "+")).
Proof.
  intros Hnil. change (4 + k) with (S (S (S (S k)))).
  assert (Hrun : exec (S (S (S (S k)))) [INC var] s
                 = (c ← plus (read var s) (VScalar 1);
                    Ok (VNil, write var c s))).
  { unfold INC. ev.
    destruct (read var s) as [|q| | | | | | |]; try done;
      cbn [Sqf.binary plus]; ev; reflexivity. }
  split; [exact Hrun |]. split; [| split].
  - rewrite Hrun. unfold ADD. ev.
    destruct (read var s) as [|q| | | | | | |]; try done;
      cbn [Sqf.binary plus]; ev; reflexivity.
  - intros c s' Hok Hc. rewrite Hrun, Hc in Hok. cbn in Hok.
    injection Hok as <-. split; [apply read_write |].
    destruct (read var s) as [|q| | | | | | |]; try done. by exists q.
  - intros Hq. rewrite Hrun.
    destruct (read var s) as [|q| | | | | | |]; try done.
    by destruct (Hq q).
Qed.

(** X3. [ADD(var,VALUE)] reads the variable first, then evaluates [VALUE],
    and assigns their sum (of numbers, strings or arrays) to the variable
    in the state [VALUE] left; operands of different types are a type
    error. *)
Theorem add_adds_to_the_variable var VALUE s n b s1 :
  eval n VALUE s = Ok (b, s1) -> read var s <> VNil -> b <> VNil ->
  exec (3 + n) [ADD var VALUE] s
  = (c ← plus (read var s) b; Ok (VNil, write var c s1)).
Proof.
  intros H Ha Hb. destruct n as [|n]; [done |].
  change (3 + S n) with (S (S (S (S n)))). unfold ADD.
  rewrite exec_assign, eval_bin, eval_paren, eval_var, then_ok.
  cbn beta iota. rewrite eval_paren, H, then_ok. cbn beta iota.
  destruct (read var s) eqn:Hr; try done; destruct b; try done;
    cbn [Sqf.binary plus]; ev; reflexivity.
Qed.

(** X4. Two [ADD]s of strings to a variable that holds a string leave it
    holding the three strings in a row, as one [ADD] of the two strings
    joined would. *)
Theorem add_twice_appends_both var a b c s k :
  read var s = VString a ->
  exists s',
    exec (6 + k) [ADD var (EStr b); ADD var (EStr c)] s = Ok (VNil, s')
    /\ read var s' = VString (a +:+ b +:+ c).
Proof.
  intros Ha. eexists. split.
  - change (6 + k) with (S (S (S (S (S (S k)))))). unfold ADD. ev.
    rewrite Ha. cbn [Sqf.binary plus]. ev. rewrite read_write.
    cbn [Sqf.binary plus]. ev. reflexivity.
  - rewrite read_write. by rewrite append_assoc.
Qed.

(** *** A default for a local variable *)

Lemma pop_write_local x v s :
  is_local x = true ->
  pop (write x v (push ∅ s))
  = if declared x (frames s) then write x v s else s.
Proof.
  intros Hx. destruct s as [g fs r].
  unfold write, push, pop, with_frames, write_local. rewrite Hx. simpl.
  destruct (∅ !! x) eqn:E; [by rewrite lookup_empty in E |].
  rewrite bool_decide_eq_false_2 by (by intros [? ?]).
  simpl. by destruct (declared x fs).
Qed.

Lemma read_undeclared x s :
  is_local x = true -> declared x (frames s) = false -> read x s = VNil.
Proof.
  intros Hx. unfold read. rewrite Hx.
  induction (frames s) as [|f fs IH]; [done |]. simpl.
  intros [Hf Hd]%orb_false_elim.
  destruct (f !! x) eqn:E; [| by apply IH].
  by rewrite bool_decide_eq_true_2 in Hf by eauto.
Qed.

(** X5. [ISNILS(V,D)] for a local variable [V]: when no scope declares
    [V] the assignment is made in the scope of the [then] block and lost
    with it, so the state is unchanged and [V] is still nil; when a scope
    declares [V] and it is nil, [V] is set to [D] there; when [V] is
    defined nothing changes. *)
Theorem isnils_needs_a_declared_local V D s k :
  is_local V = true ->
  (declared V (frames s) = false ->
   eval (5 + k) (ISNILS V (EVal D)) s = Ok (VNil, s) /\ read V s = VNil)
  /\ (declared V (frames s) = true -> read V s = VNil ->
      eval (5 + k) (ISNILS V (EVal D)) s = Ok (VNil, write V D s)
      /\ read V (write V D s) = D)
  /\ (read V s <> VNil ->
      eval (5 + k) (ISNILS V (EVal D)) s = Ok (VNil, s)).
Proof.
  intros HV.
  assert (Heval : eval (5 + k) (ISNILS V (EVal D)) s
                  = Ok (VNil,
                        if is_nil (read V s) && declared V (frames s)
                        then write V D s else s)).
  { change (5 + k) with (S (S (S (S (S k))))). unfold ISNILS. ev.
    cbn [Sqf.unary]. ev. cbn [Sqf.unary]. ev. cbn [Sqf.binary].
    destruct (is_nil (read V s)); [| done].
    unfold in_scope. ev. by rewrite pop_write_local. }
  rewrite Heval. split; [| split].
  - intros Hd. rewrite Hd, andb_false_r. split; [done |].
    by apply read_undeclared.
  - intros Hd Hr. rewrite Hd, Hr. split; [done | apply read_write].
  - intros Hr. by destruct (read V s).
Qed.

(** *** One type, one check *)

Lemma type_check_is_type T check :
  (T, check) ∈ type_checks -> T ∈ engine_types /\ check = IS_type T.
Proof.
  intros H. unfold type_checks in H.
  repeat (apply elem_of_cons in H as [[= -> ->] | H];
          [split; [unfold engine_types; repeat constructor | reflexivity] |]).
  by apply elem_of_nil in H.
Qed.

(** X6. On a value that is not nil each of the fourteen type checks of
    lines 680-693 is true exactly when the value has the type the check
    names, so no value passes two different checks. *)
Theorem type_checks_exclude_each_other x s k :
  x <> VNil ->
  (forall T check, (T, check) ∈ type_checks ->
     eval (6 + k) (check (EVal x)) s
     = Ok (VBool (bool_decide (type_name x = Some T)), s))
  /\ (forall T1 check1 T2 check2,
        (T1, check1) ∈ type_checks -> (T2, check2) ∈ type_checks ->
        eval (6 + k) (check1 (EVal x)) s = Ok (VBool true, s) ->
        eval (6 + k) (check2 (EVal x)) s = Ok (VBool true, s) ->
        T1 = T2).
Proof.
  intros Hx.
  assert (Hall : forall T check, (T, check) ∈ type_checks ->
    eval (6 + k) (check (EVal x)) s
    = Ok (VBool (bool_decide (type_name x = Some T)), s)).
  { intros T check [HT ->]%type_check_is_type.
    by apply type_checks_decide_type_name. }
  split; [exact Hall |].
  intros T1 check1 T2 check2 H1 H2.
  rewrite (Hall _ _ H1), (Hall _ _ H2).
  intros [= E1%bool_decide_eq_true] [= E2%bool_decide_eq_true]. congruence.
Qed.

(** *** Assertions *)

Lemma host_call_scope f name a s :
  ('(v, s') ← host_call host name a (push f s); Ok (v, pop s'))
  = host_call host name a s.
Proof.
  unfold host_call. change (world_of (push f s)) with (world_of s).
  destruct (host name a (world_of s)) as [[v w]| |]; try done.
Qed.

(** The block of a failed assertion. *)
Lemma assertion_error_block n d here text m s :
  read "CBA_fnc_error" s = VNative "CBA_fnc_error" ->
  in_scope (exec (S (S (S (S (S (S n))))))) ∅
    [ASSERTION_ERROR d here (EBin Plus (EStr text) (EParen (EStr m)))] s
  = host_call host "CBA_fnc_error" (assertion_record d here (text +:+ m)) s.
Proof.
  intros He. unfold in_scope, ASSERTION_ERROR, ERROR_WITH_TITLE.
  rewrite this_file_expr. unfold __LINE__. ev.
  cbn [Sqf.binary plus]. ev. rewrite read_push_empty, He.
  cbn [Sqf.apply]. apply host_call_scope.
Qed.



(** *** Splitting an array that is too short *)

Lemma select_past_the_end (l : list value) :
  select l (inject_Z (Z.of_nat (length l))) = Ok VNil.
Proof.
  unfold select. rewrite index_of_nat.
  destruct (Z.ltb_spec (Z.of_nat (length l)) 0); [lia |].
  rewrite Nat2Z.id, (lookup_ge_None_2 l) by lia.
  by rewrite Z.eqb_refl.
Qed.

Lemma select_out_of_bounds (l : list value) (i : nat) :
  length l < i -> select l (inject_Z (Z.of_nat i)) = Err ZeroDivisor.
Proof.
  intros H. unfold select. rewrite index_of_nat.
  destruct (Z.ltb_spec (Z.of_nat i) 0); [lia |].
  rewrite Nat2Z.id, (lookup_ge_None_2 l) by lia.
  destruct (Z.eqb_spec (Z.of_nat i) (Z.of_nat (length l))); [lia | done].
Qed.

Lemma explode_is_explode_from X targets c :
  EXPLODE X targets = Some c ->
  c = explode_from X 0 targets /\ 2 <= length targets <= 8.
Proof.
  destruct targets as [|A [|B [|C [|D [|E [|F [|G [|H [|I targets]]]]]]]]];
    try done; intros [= <-]; (split; [reflexivity | simpl; lia]).
Qed.

(** The assignments one after the other, for an array expression that is
    worth [xs] in every state [P] holds of. *)
Lemma exec_explode_from X xs (P : state -> Prop) targets :
  (forall n s, P s -> eval (S n) X s = Ok (VArray xs, s)) ->
  (forall A v s, A ∈ targets -> P s -> P (write A v s)) ->
  forall k n rest s, P s ->
  exec (S (S (S (length targets + n)))) (explode_from X k targets ++ rest) s
  = match split_into k targets xs s with
    | Ok s' => exec (S (S (S n))) rest s'
    | Err e => Err e
    | OutOfFuel => OutOfFuel
    end.
Proof.
  intros HX. induction targets as [|A targets IH]; intros HP k n rest s Hs;
    [done |].
  cbn [explode_from app length split_into Nat.add].
  rewrite exec_assign, eval_bin, eval_paren, (HX _ _ Hs), then_ok.
  cbn beta iota. unfold index at 1. rewrite eval_num, then_ok.
  cbn beta iota. cbn [Sqf.binary].
  destruct (select xs (inject_Z (Z.of_nat k))) as [v| |]; try done.
  rewrite !then_ok. cbn beta iota.
  apply IH.
  - intros B w s' HB. apply HP. by right.
  - apply HP; [by left | done].
Qed.

Lemma split_into_enough targets : forall k xs s,
  k + length targets <= length xs ->
  split_into k targets xs s = Ok (assign_all targets (drop k xs) s).
Proof.
  induction targets as [|A targets IH]; intros k xs s H; [done |].
  simpl in H. destruct (lookup_lt_is_Some_2 xs k) as [x Hx]; [lia |].
  cbn [split_into]. rewrite (select_in_bounds _ _ _ Hx).
  rewrite IH by lia. by rewrite (drop_S _ _ _ Hx).
Qed.

Lemma split_into_one_short targets : forall k xs s,
  k + length targets = length xs + 1 ->
  split_into k targets xs s
  = Ok (assign_all targets (drop k xs ++ [VNil]) s).
Proof.
  induction targets as [|A targets IH]; intros k xs s H; [done |].
  simpl in H. cbn [split_into].
  destruct (decide (k = length xs)) as [-> | Hk].
  - rewrite select_past_the_end. destruct targets; [| simpl in H; lia].
    by rewrite drop_all.
  - destruct (lookup_lt_is_Some_2 xs k) as [x Hx]; [lia |].
    rewrite (select_in_bounds _ _ _ Hx), IH by lia.
    by rewrite (drop_S _ _ _ Hx).
Qed.

Lemma split_into_too_short targets : forall k xs s,
  0 < length targets -> length xs + 2 <= k + length targets ->
  split_into k targets xs s = Err ZeroDivisor.
Proof.
  induction targets as [|A targets IH]; intros k xs s H0 H;
    [simpl in H0; lia |].
  simpl in H. cbn [split_into].
  destruct (decide (length xs < k)) as [Hk | Hk].
  - by rewrite select_out_of_bounds.
  - destruct (decide (k = length xs)) as [-> | Hk'].
    + rewrite select_past_the_end. apply IH; lia.
    + destruct (lookup_lt_is_Some_2 xs k) as [x Hx]; [lia |].
      rewrite (select_in_bounds _ _ _ Hx). apply IH; lia.
Qed.


(** *** Traces of several variables *)

Lemma eval_all_retnil n vars s :
  eval_all (eval (S (S (S (S (S (S n)))))))
    (((fun A => RETNIL (EVar A)) <$> vars)) s
  = Ok (((fun A => read A s) <$> vars), s).
Proof.
  induction vars as [|A vars IH]; [done |].
  cbn [fmap list_fmap]. rewrite eval_all_cons, eval_retnil_var, then_ok. cbn beta iota.
  fold (@fmap list _ _ _ (fun A => RETNIL (EVar A)) vars).
  by rewrite IH.
Qed.

Lemma exec_trace_call n d here fields message vars s :
  Text.DEBUG_MODE_FULL d = true ->
  read "CBA_fnc_log" s = VNative "CBA_fnc_log" ->
  exec (S (S (S (S (S (S (S (S (S (S (S n)))))))))))
    (trace_call d here fields (EStr message)
       (((fun A => RETNIL (EVar A)) <$> vars))) s
  = Ok (VNil,
        logged
          (VArray
             [VString (file_name d here);
              VScalar (inject_Z (site_line here));
              VString
                (engine_format
                   (VString fields :: VString message
                    :: ((fun A => read A s) <$> vars)))]) s).
Proof.
  intros Hd Hlog. unfold trace_call. rewrite Hd, this_file_expr.
  unfold __LINE__.
  ev. rewrite eval_all_retnil. ev. cbn [Sqf.unary]. ev.
  by rewrite call_log.
Qed.

(** X11. [TRACE_n], for one to eight variables: under [DEBUG_MODE_FULL]
    it adds one entry to the log, the message formatted with the name and
    the value of each variable in order (nil for an undefined one), and
    changes nothing else; otherwise it does nothing. *)
Theorem trace_records_each_variable d here message vars s k c :
  TRACE d here (EStr message) vars = Some c ->
  read "CBA_fnc_log" s = VNative "CBA_fnc_log" ->
  exec (11 + k) c s
  = Ok (VNil,
        if Text.DEBUG_MODE_FULL d
        then logged
               (trace_record engine_format d here message vars
                  (((fun A => read A s) <$> vars))) s
        else s).
Proof.
  intros Hc Hlog.
  change (11 + k) with (S (S (S (S (S (S (S (S (S (S (S k))))))))))).
  assert (Hshape : exists fields,
    c = trace_call d here fields (EStr message)
          (((fun A => RETNIL (EVar A)) <$> vars))
    /\ fields = "%1: " +:+ trace_fields 2 vars).
  { destruct vars as [|A [|B [|C [|D [|E [|F [|G [|H [|I vars]]]]]]]]];
      try done; injection Hc as <-; eexists; split; reflexivity. }
  destruct Hshape as (fields & -> & ->).
  destruct (Text.DEBUG_MODE_FULL d) eqn:Hd.
  - by rewrite exec_trace_call.
  - unfold trace_call. by rewrite Hd.
Qed.

(** *** Where the targets are declared *)

Lemma declared_app x up fs :
  declared x (up ++ fs) = declared x up || declared x fs.
Proof. apply existsb_app. Qed.

Lemma undeclared_above x up :
  Forall (fun u : gmap string value => u !! x = None) up ->
  declared x up = false.
Proof.
  induction 1 as [|u up Hu _ IH]; [done |]. simpl.
  rewrite IH, orb_false_r. apply bool_decide_eq_false_2.
  rewrite Hu. by intros [? ?].
Qed.

Lemma write_declared_below x v up F low :
  Forall (fun u : gmap string value => u !! x = None) up ->
  is_Some (F !! x) ->
  write_declared x v (up ++ F :: low) = up ++ <[x := v]> F :: low.
Proof.
  intros Hup [w HF]. induction Hup as [|u up Hu _ IH]; simpl.
  - by rewrite HF.
  - by rewrite Hu, IH.
Qed.

Lemma write_where_declared x v g up F low r :
  is_local x = true ->
  Forall (fun u : gmap string value => u !! x = None) up ->
  is_Some (F !! x) ->
  write x v (State g (up ++ F :: low) r)
  = State g (up ++ <[x := v]> F :: low) r.
Proof.
  intros Hx Hup HF. unfold write, write_local, with_frames. rewrite Hx.
  simpl. rewrite declared_app, (undeclared_above _ _ Hup). simpl.
  rewrite bool_decide_eq_true_2 by done. simpl.
  by rewrite write_declared_below.
Qed.

Lemma assign_all_where_declared targets : forall xs g up F low r,
  Forall (fun A => is_local A = true /\ is_Some (F !! A)
                   /\ Forall (fun u : gmap string value => u !! A = None) up)
    targets ->
  assign_all targets xs (State g (up ++ F :: low) r)
  = State g (up ++ bind_all F (zip targets xs) :: low) r.
Proof.
  induction targets as [|A targets IH]; intros xs g up F low r H; [done |].
  destruct xs as [|x xs]; [done |].
  apply Forall_cons in H as [(HA & HF & Hup) H].
  unfold assign_all, bind_all. cbn [zip zip_with foldl fst snd].
  rewrite write_where_declared by done.
  apply IH. eapply Forall_impl; [exact H |].
  intros B (HB & HFB & HupB). split; [done |]. split; [| done].
  apply lookup_insert_is_Some. destruct (decide (A = B)); eauto.
Qed.

Lemma bind_all_other F l y :
  y ∉ l.*1 -> bind_all F l !! y = F !! y.
Proof.
  revert F. induction l as [|[a x] l IH]; intros F H; [done |].
  unfold bind_all. cbn [foldl fst snd].
  apply not_elem_of_cons in H as [Hy H].
  fold (bind_all (<[a := x]> F) l). rewrite IH by done.
  by rewrite lookup_insert_ne.
Qed.

Lemma zipped_target (targets : list string) (xs : list value) y :
  y ∉ targets -> y ∉ (zip targets xs).*1.
Proof.
  intros H [[a x] [-> Hin]]%list_elem_of_fmap. apply H.
  by apply elem_of_zip_l in Hin.
Qed.

Lemma bind_all_lookup targets : forall F xs i A x,
  NoDup targets -> targets !! i = Some A -> xs !! i = Some x ->
  bind_all F (zip targets xs) !! A = Some x.
Proof.
  induction targets as [|B targets IH]; intros F xs i A x Hnd HA Hx; [done |].
  destruct xs as [|z xs]; [done |].
  apply NoDup_cons in Hnd as [HB Hnd].
  unfold bind_all. cbn [zip zip_with foldl fst snd].
  fold (bind_all (<[B := z]> F) (zip targets xs)).
  destruct i as [|i]; simpl in HA, Hx.
  - injection HA as ->. injection Hx as ->.
    rewrite bind_all_other by (by apply zipped_target).
    by rewrite lookup_insert_eq.
  - by eapply IH.
Qed.

(** *** Parameters of a function *)

Lemma declare_all_top targets : forall g f fs r,
  foldl (fun s x => declare x s) (State g (f :: fs) r) targets
  = State g (foldl (fun f A => <[A := VNil]> f) f targets :: fs) r.
Proof.
  induction targets as [|A targets IH]; intros g f fs r; [done |].
  simpl. unfold declare at 2. simpl. unfold with_frames. simpl. apply IH.
Qed.

Lemma declared_all_lookup targets : forall (f : gmap string value),
  (forall A, A ∈ targets ->
     is_Some (foldl (fun f A => <[A := VNil]> f) f targets !! A))
  /\ (forall y, y ∉ targets ->
        foldl (fun f A => <[A := VNil]> f) f targets !! y = f !! y).
Proof.
  induction targets as [|B targets IH]; intros f.
  - split; [by intros A ?%elem_of_nil | done].
  - simpl. destruct (IH (<[B := VNil]> f)) as [IH1 IH2]. split.
    + intros A HA. destruct (decide (A ∈ targets)) as [Hin | Hin].
      * by apply IH1.
      * apply elem_of_cons in HA as [-> | ?]; [| done].
        rewrite IH2 by done. rewrite lookup_insert_eq. eauto.
    + intros y [Hy Hin]%not_elem_of_cons. rewrite IH2 by done.
      by rewrite lookup_insert_ne.
Qed.

Lemma names_of_strings targets : names_of (VString <$> targets) = Some targets.
Proof.
  induction targets as [|A targets IH]; [done |].
  cbn [fmap list_fmap names_of].
  fold (@fmap list _ _ _ VString targets). by rewrite IH.
Qed.

Lemma eval_all_strings n targets s :
  eval_all (eval (S n)) (EStr <$> targets) s = Ok (VString <$> targets, s).
Proof.
  induction targets as [|A targets IH]; [done |].
  cbn [fmap list_fmap]. rewrite eval_all_cons, eval_str, then_ok.
  cbn beta iota. fold (@fmap list _ _ _ EStr targets). by rewrite IH.
Qed.

Lemma eval_private n targets s :
  eval (S (S (S n))) (EUn Private (EArr (EStr <$> targets))) s
  = Ok (VNil, foldl (fun s x => declare x s) s targets).
Proof.
  rewrite eval_un, eval_arr, eval_all_strings, !then_ok.
  cbn beta iota. rewrite ?then_ok. cbn beta iota.
  cbn [Sqf.unary]. by rewrite names_of_strings.
Qed.

Lemma read_bound (targets : list string) (xs : list value) g F fs r :
  length targets <= length xs ->
  (forall i A x, targets !! i = Some A -> xs !! i = Some x ->
     F !! A = Some x) ->
  Forall (fun A => is_local A = true) targets ->
  (fun A => read A (State g (F :: fs) r)) <$> targets
  = take (length targets) xs.
Proof.
  intros Hl HF Hloc. apply list_eq. intros i. rewrite list_lookup_fmap.
  destruct (targets !! i) as [A|] eqn:HA; simpl.
  - pose proof (lookup_lt_Some _ _ _ HA) as Hi.
    destruct (lookup_lt_is_Some_2 xs i) as [x Hx]; [lia |].
    rewrite lookup_take_lt, Hx by done. f_equal.
    rewrite Forall_forall in Hloc.
    unfold read. rewrite Hloc by (by eapply list_elem_of_lookup_2).
    simpl. by rewrite (HF _ _ _ HA Hx).
  - apply lookup_ge_None_1 in HA. by rewrite lookup_take_ge.
Qed.

Lemma exec_then n e c s :
  c <> [] ->
  exec (S n) (SExpr e :: c) s = '(_, s') ← eval n e s; exec n c s'.
Proof. by destruct c. Qed.

(** [private], the assignments and the trace, for whatever number of
    parameters. *)
Lemma exec_params n d here fields message targets xs g f fs r :
  targets <> [] -> length targets <= length xs -> NoDup targets ->
  Forall (fun A => is_local A = true /\ A <> "_this") targets ->
  read_local "_this" (f :: fs) = VArray xs ->
  g !! "CBA_fnc_log" = Some (VNative "CBA_fnc_log") ->
  exec (S (S (S (S (length targets + (8 + n))))))
    (SExpr (EUn Private (EArr (EStr <$> targets)))
     :: explode_from (EVar "_this") 0 targets
     ++ trace_call d here fields (EStr message)
          ((fun A => RETNIL (EVar A)) <$> targets))
    (State g (f :: fs) r)
  = Ok (VNil,
        State g
          (bind_all (foldl (fun f A => <[A := VNil]> f) f targets)
             (zip targets xs) :: fs)
          (r ++ if Text.DEBUG_MODE_FULL d
                then [VArray
                        [VString (file_name d here);
                         VScalar (inject_Z (site_line here));
                         VString
                           (engine_format
                              (VString fields :: VString message
                               :: take (length targets) xs))]]
                else [])).
Proof.
  intros Hne Hl Hnd Hloc Hthis Hlog.
  set (Fd := foldl (fun f A => <[A := VNil]> f) f targets).
  destruct (declared_all_lookup targets f) as [Hin Hout]. fold Fd in Hin, Hout.
  assert (Hnot : "_this" ∉ targets).
  { intros H. rewrite Forall_forall in Hloc. by destruct (Hloc _ H). }
  assert (Hs1 : read "_this" (State g (Fd :: fs) r) = VArray xs).
  { unfold read. simpl. rewrite (Hout _ Hnot). exact Hthis. }
  rewrite exec_then by (by destruct targets).
  rewrite eval_private, then_ok. cbn beta iota.
  rewrite declare_all_top. fold Fd.
  rewrite (exec_explode_from _ xs
             (fun s => read "_this" s = VArray xs)); [| | | done].
  - rewrite split_into_enough by (simpl; lia). rewrite drop_0.
    pose proof (assign_all_where_declared targets xs g [] Fd fs r) as Ha.
    cbn [app] in Ha. rewrite Ha; clear Ha.
    + assert (Hvals :
        (fun A => read A
           (State g (bind_all Fd (zip targets xs) :: fs) r)) <$> targets
        = take (length targets) xs).
      { apply read_bound; [done | |].
        - intros i A x HA Hx. by eapply bind_all_lookup.
        - eapply Forall_impl; [exact Hloc |]. by intros ? [? ?]. }
      destruct (Text.DEBUG_MODE_FULL d) eqn:Hd.
      * change (8 + n) with (S (S (S (S (S (S (S (S n)))))))).
        rewrite exec_trace_call; [| done |].
        -- rewrite Hvals. reflexivity.
        -- unfold read. simpl. by rewrite Hlog.
      * unfold trace_call. rewrite Hd. by rewrite exec_nil, app_nil_r.
    + rewrite Forall_forall in Hloc |- *. intros A HA.
      destruct (Hloc _ HA) as [? ?]. split; [done |]. split; [| done].
      by apply Hin.
  - intros k s Hs. by rewrite eval_var, Hs.
  - intros A v s HA Hs. rewrite read_write_ne; [done |].
    intros <-. by apply Hnot.
Qed.

Lemma params_shape d here targets c :
  PARAMS d here targets = Some c ->
  2 <= length targets <= 8
  /\ c = SExpr (EUn Private (EArr (EStr <$> targets)))
         :: explode_from (EVar "_this") 0 targets
         ++ trace_call d here ("%1: " +:+ trace_fields 2 targets)
              (EStr ("PARAMS_" +:+ position (length targets)))
              ((fun A => RETNIL (EVar A)) <$> targets).
Proof.
  destruct targets as [|A [|B [|C [|D [|E [|F [|G [|H [|I targets]]]]]]]]];
    try done; intros [= <-]; (split; [simpl; lia | reflexivity]).
Qed.

(** X12. [PARAMS_n], for two to eight distinct local names and an
    argument [_this] with at least as many elements: the names are bound
    in the scope of the function, each to the element at its position;
    the other variables of that scope and the scopes of the callers are
    unchanged; under [DEBUG_MODE_FULL] one trace of the parameters is
    logged. *)
Theorem params_bind_in_the_scope_of_the_function
    d here targets xs g f fs r k c :
  PARAMS d here targets = Some c ->
  length targets <= length xs -> NoDup targets ->
  Forall (fun A => is_local A = true /\ A <> "_this") targets ->
  read_local "_this" (f :: fs) = VArray xs ->
  g !! "CBA_fnc_log" = Some (VNative "CBA_fnc_log") ->
  exists F,
    exec (24 + k) c (State g (f :: fs) r)
    = Ok (VNil,
          State g (F :: fs)
            (r ++ if Text.DEBUG_MODE_FULL d
                  then [trace_record engine_format d here
                          ("PARAMS_" +:+ position (length targets)) targets
                          (take (length targets) xs)]
                  else []))
    /\ (forall i A x,
          targets !! i = Some A -> xs !! i = Some x -> F !! A = Some x)
    /\ (forall y, y ∉ targets -> F !! y = f !! y).
Proof.
  intros [Hn ->]%params_shape Hl Hnd Hloc Hthis Hlog.
  exists (bind_all (foldl (fun f A => <[A := VNil]> f) f targets)
            (zip targets xs)).
  split; [| split].
  - replace (24 + k)
      with ((12 - length targets + k)
            + S (S (S (S (length targets + (8 + 0)))))) by lia.
    assert (Hne : targets <> []) by (destruct targets; [simpl in Hn; lia | done]).
    pose proof (exec_params 0 d here ("%1: " +:+ trace_fields 2 targets)
                  ("PARAMS_" +:+ position (length targets)) targets xs g f fs
                  r Hne Hl Hnd Hloc Hthis Hlog) as Hrun.
    rewrite exec_more by (by rewrite Hrun). exact Hrun.
  - intros i A x HA Hx. by eapply bind_all_lookup.
  - intros y Hy. rewrite bind_all_other by (by apply zipped_target).
    by apply declared_all_lookup.
Qed.


(** *** Destructuring, for an array expression the targets leave alone *)

(** The assignments one after the other, for an array expression that the
    fuel [j] shows to be worth [xs] in every state [P] holds of. *)
Lemma exec_explode_stable X xs (P : state -> Prop) j targets :
  (forall s, P s -> eval j X s = Ok (VArray xs, s)) ->
  (forall A v s, A ∈ targets -> P s -> P (write A v s)) ->
  forall k n rest s, P s ->
  exec (S (S (S (length targets + (n + j)))))
    (explode_from X k targets ++ rest) s
  = match split_into k targets xs s with
    | Ok s' => exec (S (S (S (n + j)))) rest s'
    | Err e => Err e
    | OutOfFuel => OutOfFuel
    end.
Proof.
  intros HX. induction targets as [|A targets IH]; intros HP k n rest s Hs;
    [done |].
  cbn [explode_from app length split_into Nat.add].
  assert (Hev : eval (S (length targets + (n + j))) X s = Ok (VArray xs, s)).
  { replace (S (length targets + (n + j)))
      with (S (length targets + n) + j) by lia.
    rewrite eval_more by (by rewrite (HX _ Hs)). by apply HX. }
  rewrite exec_assign, eval_bin, eval_paren, Hev, then_ok.
  cbn beta iota. unfold index at 1. rewrite eval_num, then_ok.
  cbn beta iota. cbn [Sqf.binary].
  destruct (select xs (inject_Z (Z.of_nat k))) as [v| |]; try done.
  rewrite !then_ok. cbn beta iota.
  apply IH.
  - intros B w s' HB. apply HP. by right.
  - apply HP; [by left | done].
Qed.

Lemma read_assign_all_other B targets : forall xs s,
  B ∉ targets -> read B (assign_all targets xs s) = read B s.
Proof.
  induction targets as [|T targets IH]; intros xs s HB; [done |].
  destruct xs as [|x xs]; [done |].
  apply not_elem_of_cons in HB as [HT HB].
  change (assign_all (T :: targets) (x :: xs) s)
    with (assign_all targets xs (write T x s)).
  rewrite IH by done. by apply read_write_ne.
Qed.

(** After the assignments a target reads as the element at the last
    position it is named at. *)
Lemma read_assign_all targets : forall xs s i B x,
  targets !! i = Some B -> xs !! i = Some x ->
  (forall i', i < i' -> targets !! i' <> Some B) ->
  read B (assign_all targets xs s) = x.
Proof.
  induction targets as [|T targets IH]; intros xs s i B x HB Hx Hlast;
    [done |].
  destruct xs as [|z xs]; [done |].
  change (assign_all (T :: targets) (z :: xs) s)
    with (assign_all targets xs (write T z s)).
  destruct i as [|i].
  - injection HB as ->. injection Hx as ->.
    rewrite read_assign_all_other; [apply read_write |].
    intros [i' Hi']%list_elem_of_lookup_1.
    apply (Hlast (S i')); [lia | exact Hi'].
  - apply (IH _ _ i); [exact HB | exact Hx |].
    intros i' Hi'. apply (Hlast (S i')). lia.
Qed.

(** C4 (amended).  For two to eight targets and an array expression that
    has no effect and is worth one array [xs], with at least as many
    elements, in the state it starts from and in every state that assigning
    the targets leads to, [EXPLODE_n] sets each target to the element at
    its position, in order: afterwards a target reads as the element at the
    last position it is named at.  [PARAMS_1(A)], for a local name [A] other than [_this] in a
    function whose argument [_this] is [this] and not nil, declares [A] in
    the scope of the function and sets it to the first element of [this]
    when [this] is an array, to [this] otherwise (and then traces it,
    under [DEBUG_MODE_FULL]). *)
Theorem destructuring_assigns_by_position
    d here (X : expr) (unchanged : state -> Prop) (j : nat)
    (targets : list string) (xs : list value) (A : string)
    (this : value) g f fs r s k :
  2 <= length targets <= 8 -> length targets <= length xs ->
  unchanged s ->
  (forall s', unchanged s' -> eval j X s' = Ok (VArray xs, s')) ->
  (forall B v s', B ∈ targets -> unchanged s' -> unchanged (write B v s')) ->
  is_local A = true -> A <> "_this" -> this <> VNil ->
  read_local "_this" (f :: fs) = this ->
  (Text.DEBUG_MODE_FULL d = true ->
   g !! "CBA_fnc_log" = Some (VNative "CBA_fnc_log")) ->
  (exists c s',
     EXPLODE X targets = Some c
     /\ exec (12 + j + k) c s = Ok (VNil, s')
     /\ s' = assign_all targets xs s
     /\ forall i B x,
          targets !! i = Some B -> xs !! i = Some x ->
          (forall i', i < i' -> targets !! i' <> Some B) ->
          read B s' = x)
  /\ (exists s',
        exec (20 + k) (PARAMS_1 d here A) (State g (f :: fs) r)
        = Ok (VNil, s')
        /\ s' = State g (<[A := first_or_self this]> f :: fs)
                  (r ++ if Text.DEBUG_MODE_FULL d
                        then [trace_1_record engine_format d here "PARAMS_1"
                                A (first_or_self this)]
                        else [])
        /\ read A s' = first_or_self this).
Proof.
  intros Hn Hl Hs HX Hkeep HA HAthis Hthis Hread Hlog. split.
  - assert (exists c, EXPLODE X targets = Some c) as [c Hc].
    { destruct targets as [|? [|? [|? [|? [|? [|? [|? [|? [|? ?]]]]]]]]];
        simpl in Hn; try lia; eexists; reflexivity. }
    exists c, (assign_all targets xs s).
    split; [exact Hc |]. split; [| split; [reflexivity |]].
    + apply explode_is_explode_from in Hc as [-> _].
      replace (12 + j + k)
        with (S (S (S (length targets + ((9 - length targets + k) + j)))))
        by lia.
      rewrite <- (app_nil_r (explode_from X 0 targets)).
      rewrite (exec_explode_stable X xs unchanged j targets HX Hkeep) by done.
      rewrite split_into_enough by (simpl; lia). by rewrite drop_0.
    + intros i B x. apply read_assign_all.
  - eexists. split; [by apply params_1_takes_first_or_self |].
    split; [reflexivity |]. by apply read_written_local.
Qed.

(** *** Reports *)

Lemma binary_plus_to_string run a v s :
  binary run Plus (VString a) v s
  = match v with
    | VString m => Ok (VString (a +:+ m), s)
    | VNil => Err Undefined
    | _ => Err (BadType "+")
    end.
Proof. by destruct v. Qed.

(** X19. A report evaluates its message once and carries the file and the
    line of the invocation: [LOG] adds the message to the log under
    [DEBUG_MODE_FULL] and does not evaluate it otherwise; [WARNING] of a
    message in parentheses, under [DEBUG_MODE_NORMAL], adds the message
    after "WARNING: " when it is a string and is a type error of [+] when
    it is a value of another type; [ERROR] and [ERROR_WITH_TITLE] call
    [CBA_fnc_error] under every debug level. *)
Theorem reports_carry_the_site d here MESSAGE t s n v s1 :
  eval n MESSAGE s = Ok (v, s1) ->
  read "CBA_fnc_log" s1 = VNative "CBA_fnc_log" ->
  read "CBA_fnc_error" s1 = VNative "CBA_fnc_error" ->
  let file := VString (file_name d here) in
  let line := VScalar (inject_Z (site_line here)) in
  exec (3 + n) (LOG d here MESSAGE) s
  = (if Text.DEBUG_MODE_FULL d
     then Ok (VNil, logged (VArray [file; line; v]) s1)
     else Ok (VNil, s))
  /\ (forall m, v = VString m ->
      exec (6 + n) (WARNING d here (EParen MESSAGE)) s
      = if Text.DEBUG_MODE_NORMAL d
        then Ok (VNil,
                 logged (VArray [file; line; VString ("WARNING: " +:+ m)]) s1)
        else Ok (VNil, s))
  /\ (v <> VNil -> (forall m, v <> VString m) ->
      exec (6 + n) (WARNING d here (EParen MESSAGE)) s
      = if Text.DEBUG_MODE_NORMAL d then Err (BadType "+") else Ok (VNil, s))
  /\ exec (3 + n) [ERROR d here MESSAGE] s
     = host_call host "CBA_fnc_error"
         (VArray [file; line; VString "ERROR"; v]) s1
  /\ exec (3 + n) [ERROR_WITH_TITLE d here (EStr t) MESSAGE] s
     = host_call host "CBA_fnc_error" (VArray [file; line; VString t; v]) s1.
Proof.
  intros H Hlog Herr file line. destruct n as [|n]; [done |].
  change (3 + S n) with (S (S (S (S n)))).
  change (6 + S n) with (S (S (S (S (S (S (S n))))))).
  unfold LOG, WARNING, ERROR, ERROR_WITH_TITLE.
  rewrite this_file_expr. unfold __LINE__.
  split; [| split; [| split; [| split]]].
  - destruct (Text.DEBUG_MODE_FULL d); [| done].
    ev. rewrite H. ev. by rewrite call_log.
  - intros m ->. destruct (Text.DEBUG_MODE_NORMAL d); [| done].
    ev. rewrite H. ev. rewrite binary_plus_to_string. ev.
    by rewrite call_log.
  - intros Hnil Hstr. destruct (Text.DEBUG_MODE_NORMAL d); [| done].
    ev. rewrite H. ev. rewrite binary_plus_to_string.
    destruct v as [| | |m| | | | |]; try done. by destruct (Hstr m).
  - ev. rewrite H. ev. rewrite Herr. reflexivity.
  - ev. rewrite H. ev. rewrite Herr. reflexivity.
Qed.

End Scripts.

(** ** The theorems at work *)

(** C4 (as worded).  [PARAMS_1] in a function called without an argument
    ends in an error instead of handing over [_this] itself, and so does
    [PARAMS_1(_this)], whose declaration hides the argument; and
    [EXPLODE_2(_a,_a,_b)] on [_a = [[10,20],30]] leaves 20 in [_b], the
    second element of what the first assignment put in [_a], while the
    second element of the array was 30. *)
Lemma destructuring_rereads_and_needs_this :
  let here := Sqf.Site "fnc_frog.sqf" 3 in
  let g : gmap string Sqf.value :=
    {[ "CBA_fnc_log" := Sqf.VNative "CBA_fnc_log" ]} in
  let pair := Sqf.VArray [Sqf.VScalar (inject_Z 10);
                          Sqf.VScalar (inject_Z 20)] in
  let s := Sqf.State ∅
             [{[ "_a" := Sqf.VArray [pair; Sqf.VScalar (inject_Z 30)] ]}]
             [] in
  run_bare 20 (Sqf.PARAMS_1 ∅ here "_name") (Sqf.State g [∅] [])
  = Sqf.Err Sqf.Undefined
  /\ run_bare 20 (Sqf.PARAMS_1 ∅ here "_this")
       (Sqf.State g [{[ "_this" := pair ]}] [])
     = Sqf.Err Sqf.Undefined
  /\ nested_select (Sqf.read "_a" s) [1%nat]
     = Some (Sqf.VScalar (inject_Z 30))
  /\ exists s',
       run_bare 12 (Sqf.EXPLODE_2 (Sqf.EVar "_a") "_a" "_b") s
       = Sqf.Ok (Sqf.VNil, s')
       /\ Sqf.read "_a" s' = pair
       /\ Sqf.read "_b" s' = Sqf.VScalar (inject_Z 20).
Proof.
  intros here g pair s. split; [reflexivity |]. split; [reflexivity |].
  split; [reflexivity |]. eexists. split; [reflexivity |]. split; reflexivity.
Qed.

Lemma destructuring_assigns_by_position_witness :
  let here := Sqf.Site "fnc_frog.sqf" 3 in
  let one := Sqf.VScalar (inject_Z 1) in
  let two := Sqf.VScalar (inject_Z 2) in
  let this := Sqf.VArray [Sqf.VScalar (inject_Z 7); Sqf.VScalar (inject_Z 8)] in
  let g : gmap string Sqf.value :=
    {[ "CBA_fnc_log" := Sqf.VNative "CBA_fnc_log" ]} in
  let f : gmap string Sqf.value := {[ "_this" := this ]} in
  let s := Sqf.State ∅ [{[ "_array" := Sqf.VArray [one; two] ]}] [] in
  (exists c s',
     EXPLODE (Sqf.EVar "_array") ["_a"; "_b"] = Some c
     /\ run_bare 13 c s = Sqf.Ok (Sqf.VNil, s')
     /\ s' = assign_all ["_a"; "_b"] [one; two] s
     /\ forall i B x,
          ["_a"; "_b"] !! i = Some B -> [one; two] !! i = Some x ->
          (forall i', i < i' -> ["_a"; "_b"] !! i' <> Some B) ->
          Sqf.read B s' = x)
  /\ (exists s',
        run_bare 20 (Sqf.PARAMS_1 ∅ here "_name") (Sqf.State g [f] [])
        = Sqf.Ok (Sqf.VNil, s')
        /\ s' = Sqf.State g [<["_name" := first_or_self this]> f] ([] ++ [])
        /\ Sqf.read "_name" s' = first_or_self this).
Proof.
  intros here one two this g f s.
  refine (destructuring_assigns_by_position bare_format nothing_else
            ∅ here (Sqf.EVar "_array")
            (fun s' => Sqf.read "_array" s' = Sqf.VArray [one; two]) 1
            ["_a"; "_b"] [one; two] "_name" this g f [] [] s 0
            _ _ _ _ _ _ _ _ _ _).
  - simpl. lia.
  - simpl. lia.
  - reflexivity.
  - intros s' H. cbn. by rewrite H.
  - intros B v s' HB H. rewrite read_write_ne; [exact H |].
    intros <-. apply elem_of_cons in HB as [HB | HB]; [discriminate |].
    apply elem_of_cons in HB as [HB | HB]; [discriminate |].
    by apply elem_of_nil in HB.
  - reflexivity.
  - discriminate.
  - discriminate.
  - reflexivity.
  - discriminate.
Defined.

Lemma isnils_sets_default_once_witness :
  Sqf.eval bare_format (Sqf.host_with_log nothing_else) 5
    (Sqf.ISNILS "CBA_frog" (Sqf.EVal (Sqf.VScalar 12))) fish_installed
  = Sqf.Ok (Sqf.VNil,
            Sqf.write "CBA_frog" (Sqf.VScalar 12) fish_installed).
Proof.
  refine (proj1
    (isnils_sets_default_once bare_format nothing_else "CBA_frog"
       (Sqf.VScalar 12) fish_installed 0 _ _)).
  - reflexivity.
  - discriminate.
Defined.

(** C6, as stated, fails: with [DEBUG_MODE_MINIMAL] the only level defined,
    the deprecated function hands back what the new one does and no
    warning is recorded. *)
Lemma minimal_debugging_records_no_warning :
  let d : gmap string string := {[ "DEBUG_MODE_MINIMAL" := "" ]} in
  exists s',
    run_bare 20
      [Sqf.DEPRECATE_SYS d (Sqf.Site "fnc_frog.sqf" 3) "CBA_fnc_frog"
         "CBA_fnc_fish";
       Sqf.SExpr (Sqf.EBin Sqf.Call (Sqf.EVal (Sqf.VScalar 5))
                    (Sqf.EVar "CBA_fnc_frog"))]
      fish_installed
    = Sqf.Ok (Sqf.VScalar 5, s')
    /\ Sqf.rpt s' = [].
Proof. vm_compute. eexists. split; reflexivity. Qed.

Lemma deprecated_call_forwards_witness :
  let d : gmap string string := {[ "PREFIX" := "CBA" ]} in
  let here := Sqf.Site "fnc_frog.sqf" 3 in
  exists s1,
    run_bare 3 [Sqf.DEPRECATE_SYS d here "CBA_fnc_frog" "CBA_fnc_fish"]
      fish_installed
    = Sqf.Ok (Sqf.VNil, s1)
    /\ Sqf.eval bare_format (Sqf.host_with_log nothing_else) 8
         (Sqf.EBin Sqf.Call (Sqf.EVal (Sqf.VScalar 5))
            (Sqf.EVar "CBA_fnc_frog")) s1
       = Sqf.eval bare_format (Sqf.host_with_log nothing_else) 3
           (Sqf.EBin Sqf.Call (Sqf.EVal (Sqf.VScalar 5))
              (Sqf.EVar "CBA_fnc_fish"))
           (warned d here
              (deprecation_message d "CBA_fnc_frog" "CBA_fnc_fish") s1).
Proof.
  intros d here.
  destruct (deprecated_call_forwards bare_format nothing_else d here "CBA"
              "CBA_fnc_frog" "CBA_fnc_fish" "fnc_frog" "fnc_fish" []
              (Sqf.VScalar 5) (Sqf.globals fish_installed) [] [] 0)
    as [(s1 & Hdef & Hcall & _) _].
  - reflexivity.
  - reflexivity.
  - discriminate.
  - reflexivity.
  - discriminate.
  - reflexivity.
  - exists s1. split; [exact Hdef | exact Hcall].
Defined.


Lemma retnil_evaluates_its_argument_twice_witness :
  let counted :=
    Sqf.EBin Sqf.Call (Sqf.EStr "x")
      (Sqf.EVal
         (Sqf.VCode
            [Sqf.SExpr (Sqf.EBin Sqf.Call (Sqf.EStr "asked")
                          (Sqf.EVar "CBA_fnc_log"));
             Sqf.SExpr (Sqf.ENum 1)])) in
  exists s',
    Sqf.eval bare_format (Sqf.host_with_log nothing_else) 11
      (Sqf.RETNIL counted) fish_installed
    = Sqf.Ok (Sqf.VScalar 1, s')
    /\ Sqf.rpt s' = [Sqf.VString "asked"; Sqf.VString "asked"].
Proof.
  intros counted.
  eassert (Hfirst :
    Sqf.eval bare_format (Sqf.host_with_log nothing_else) 6 counted
      (Sqf.push ∅ fish_installed)
    = Sqf.Ok (_, _)) by (vm_compute; reflexivity).
  pose proof (retnil_evaluates_its_argument_twice bare_format nothing_else
                counted fish_installed 6 _ _ Hfirst) as H.
  change (5 + 6) with 11 in H. rewrite H.
  vm_compute. eexists. split; reflexivity.
Defined.

Lemma inc_adds_one_witness :
  let s := Sqf.State ∅ [{[ "_count" := Sqf.VScalar 0 ]}] [] in
  run_bare 4 [Sqf.INC "_count"] s
  = Sqf.Ok (Sqf.VNil, Sqf.write "_count" (Sqf.VScalar (0 + 1)) s).
Proof.
  intros s.
  refine (proj1 (inc_adds_one bare_format nothing_else "_count" s 0 _)).
  discriminate.
Defined.

Lemma add_adds_to_the_variable_witness :
  let s := Sqf.State {[ "counter" := Sqf.VScalar 2 ]} [] [] in
  exists s',
    run_bare 4 [Sqf.ADD "counter" (Sqf.ENum 3)] s = Sqf.Ok (Sqf.VNil, s')
    /\ Sqf.read "counter" s' = Sqf.VScalar 5.
Proof.
  intros s.
  assert (Hread : Sqf.read "counter" s <> Sqf.VNil) by (vm_compute; discriminate).
  assert (Hval : Sqf.VScalar 3 <> Sqf.VNil) by discriminate.
  pose proof (add_adds_to_the_variable bare_format nothing_else "counter"
                (Sqf.ENum 3) s 1 (Sqf.VScalar 3) s eq_refl Hread Hval) as H.
  change (3 + 1) with 4 in H. unfold run_bare. rewrite H.
  vm_compute. eexists. split; reflexivity.
Defined.

Lemma add_twice_appends_both_witness :
  let s := Sqf.State ∅ [ {[ "_str" := Sqf.VString "hello" ]} ] [] in
  exists s',
    run_bare 6 [Sqf.ADD "_str" (Sqf.EStr " "); Sqf.ADD "_str" (Sqf.EStr "Fred")]
      s
    = Sqf.Ok (Sqf.VNil, s')
    /\ Sqf.read "_str" s' = Sqf.VString "hello Fred".
Proof.
  intros s.
  exact (add_twice_appends_both bare_format nothing_else "_str" "hello" " "
           "Fred" s 0 eq_refl).
Defined.

Lemma isnils_needs_a_declared_local_witness :
  let s := Sqf.State ∅ [∅] [] in
  Sqf.eval bare_format (Sqf.host_with_log nothing_else) 5
    (Sqf.ISNILS "_fish" (Sqf.EVal (Sqf.VScalar 0))) s
  = Sqf.Ok (Sqf.VNil, s)
  /\ Sqf.read "_fish" s = Sqf.VNil.
Proof.
  intros s.
  apply (proj1 (isnils_needs_a_declared_local bare_format nothing_else
                  "_fish" (Sqf.VScalar 0) s 0 eq_refl)).
  vm_compute. reflexivity.
Defined.

Lemma type_checks_exclude_each_other_witness :
  Sqf.eval bare_format (Sqf.host_with_log nothing_else) 6
    (Sqf.IS_SCALAR (Sqf.EVal (Sqf.VScalar 3))) fish_installed
  = Sqf.Ok (Sqf.VBool true, fish_installed).
Proof.
  assert (Hx : Sqf.VScalar 3 <> Sqf.VNil) by discriminate.
  refine (proj1 (type_checks_exclude_each_other bare_format nothing_else
                   (Sqf.VScalar 3) fish_installed 0 Hx)
            "SCALAR" Sqf.IS_SCALAR _).
  unfold type_checks. repeat constructor.
Defined.





Lemma trace_records_each_variable_witness :
  let here := Sqf.Site "fnc_frog.sqf" 7 in
  let d : gmap string string := {[ "DEBUG_MODE_FULL" := "" ]} in
  run_bare 11 (Sqf.TRACE_2 d here (Sqf.EStr "After takeoff") "_x" "_y")
    fish_installed
  = Sqf.Ok (Sqf.VNil,
            logged
              (trace_record bare_format d here "After takeoff" ["_x"; "_y"]
                 [Sqf.VNil; Sqf.VNil]) fish_installed).
Proof.
  intros here d.
  exact (trace_records_each_variable bare_format nothing_else d here
           "After takeoff" ["_x"; "_y"] fish_installed 0 _ eq_refl eq_refl).
Defined.

Lemma params_bind_in_the_scope_of_the_function_witness :
  let xs := [Sqf.VString "fred"; Sqf.VScalar 156] in
  let f : gmap string Sqf.value := {[ "_this" := Sqf.VArray xs ]} in
  let caller : gmap string Sqf.value := {[ "_name" := Sqf.VString "kept" ]} in
  exists F,
    run_bare 24 (Sqf.PARAMS_2 ∅ (Sqf.Site "fnc_frog.sqf" 7) "_name" "_height")
      (Sqf.State (Sqf.globals fish_installed) [f; caller] [])
    = Sqf.Ok (Sqf.VNil,
              Sqf.State (Sqf.globals fish_installed) [F; caller] [])
    /\ F !! "_name" = Some (Sqf.VString "fred")
    /\ F !! "_height" = Some (Sqf.VScalar 156).
Proof.
  intros xs f caller.
  destruct (params_bind_in_the_scope_of_the_function bare_format nothing_else
              ∅ (Sqf.Site "fnc_frog.sqf" 7) ["_name"; "_height"] xs
              (Sqf.globals fish_installed) f [caller] [] 0 _ eq_refl)
    as (F & Hrun & Hbound & _).
  - simpl. lia.
  - apply (bool_decide_unpack _). vm_compute. exact I.
  - repeat constructor; done.
  - reflexivity.
  - reflexivity.
  - exists F. split; [exact Hrun |]. split.
    + exact (Hbound 0%nat _ _ eq_refl eq_refl).
    + exact (Hbound 1%nat _ _ eq_refl eq_refl).
Defined.

Lemma component_names_do_not_collide_witness :
  let d : gmap string string := {[ "PREFIX" := "cba"; "COMPONENT" := "main" ]} in
  Text.GVAR d ("fr" +:+ "og") = Text.GVAR d "frog" /\ "fr" +:+ "og" = "frog".
Proof.
  intros d.
  assert (H : Text.GVAR d ("fr" +:+ "og") = Text.GVAR d "frog")
    by reflexivity.
  split; [exact H |].
  exact (component_names_do_not_collide d ("fr" +:+ "og") "frog"
           (or_introl H)).
Defined.

Lemma more_names_are_identifiers_witness :
  Text.is_identifier
    (Text.LSTR {[ "PREFIX" := "cba"; "COMPONENT" := "main" ]} "title")
  = true.
Proof.
  pose proof
    (more_names_are_identifiers
       {[ "PREFIX" := "cba"; "COMPONENT" := "main" ]} "cba" "main" "title"
       eq_refl eq_refl eq_refl eq_refl eq_refl) as H.
  exact (proj1 (proj2 (proj2 (proj2 (proj2 (proj2 H)))))).
Defined.

Lemma reports_carry_the_site_witness :
  let s :=
    Sqf.State
      {[ "CBA_fnc_log" := Sqf.VNative "CBA_fnc_log";
         "CBA_fnc_error" := Sqf.VNative "CBA_fnc_error" ]} [] [] in
  let here := Sqf.Site "fnc_frog.sqf" 7 in
  let d : gmap string string := {[ "DEBUG_MODE_FULL" := "" ]} in
  run_bare 4 (Sqf.LOG d here (Sqf.EStr "Initiated clog-dancing simulator.")) s
  = Sqf.Ok (Sqf.VNil,
            logged
              (Sqf.VArray
                 [Sqf.VString "fnc_frog.sqf"; Sqf.VScalar 7;
                  Sqf.VString "Initiated clog-dancing simulator."]) s)
  /\ run_bare 7
       (Sqf.WARNING d here
          (Sqf.EParen (Sqf.EStr "Initiated clog-dancing simulator."))) s
     = Sqf.Ok (Sqf.VNil,
               logged
                 (Sqf.VArray
                    [Sqf.VString "fnc_frog.sqf"; Sqf.VScalar 7;
                     Sqf.VString
                       "WARNING: Initiated clog-dancing simulator."]) s).
Proof.
  intros s here d.
  destruct (reports_carry_the_site bare_format nothing_else d here
              (Sqf.EStr "Initiated clog-dancing simulator.") "" s 1 _ s
              eq_refl eq_refl eq_refl) as [Hlog [Hwarning _]].
  split; [exact Hlog | exact (Hwarning _ eq_refl)].
Defined.
